(** * ResQ mesh messenger: relay engine, message store, SOS resender and
      connectivity notifier of [src/mesh/dmasst.py]

    The development embeds the store-and-forward core of the mesh node:
    [Storage] (the [messages] table), [on_incoming_message] (the relay
    engine), one pass of [sos_resender_task] and one pass of
    [SignalNotifier.run]; then the [/send] and [/ack] commands of
    [main_loop], the beacon of [UDPPeer.broadcaster], and the [alerts]
    table with one pass of [OnlineMonitor.run].

    Modelling choices, all taken from the source:
    - a decoded packet is the JSON object the receiver hands to the handler;
      each wire key is present or absent ([option]), and a present key holds
      a value of the JSON type the wire format gives it (text for
      identifiers and bodies, an integer of any size for [hops] and [ttl]),
      so that [int(...)] is the identity and [msg.get(key, default)] is
      [get]; keys outside the three wire shapes are not kept;
    - an integer bound to an SQL statement must fit SQLite's signed 64-bit
      INTEGER: otherwise the statement raises OverflowError before it
      runs, which [insert_message] does not catch;
    - the [messages] table is the list of its rows in rowid order; a row is
      appended by a successful INSERT, and the PRIMARY KEY on [id] is the
      lookup that makes INSERT fail;
    - [now_iso()] reads a clock: the node carries the clock as a function of
      the number of reads made so far, and the world counts the reads;
    - [send_packet] appends to the list of packets handed to the socket;
    - the upstream forwarding of [SignalNotifier.run] is simulated by the
      lines it prints; the world keeps those lines, and no other print;
    - the tasks of [main_loop] are interleaved at their [await]s only, so
      each handler call, scheduler pass, notifier pass and [/send] command
      is one step on the shared state. *)

From Stdlib Require Import String List ZArith Bool Lia.
Import ListNotations.

Local Open Scope string_scope.
Local Open Scope list_scope.
Local Open Scope Z_scope.

(** ** Constants *)

Definition MESSAGE_TTL : Z := 6.
Definition MAX_SOS_RESENDS : Z := 6.

(** ** Python helpers *)

(** [d.get(key, default)] on a key that is present or absent. *)
Definition get {A : Type} (field : option A) (default : A) : A :=
  match field with
  | Some v => v
  | None => default
  end.

(** Truth value of a string: the empty string is false. *)
Definition truthy (s : string) : bool := negb (s =? "")%string.

(** [a != b] on strings. *)
Definition neq (a b : string) : bool := negb (a =? b)%string.

(** An exception a call raises. *)
Inductive exception : Type :=
  | OverflowError.

(** What a call that can raise gives its caller: the value it returns, or
    the exception. *)
Inductive result (A : Type) : Type :=
  | Returns (a : A)
  | Raises (e : exception).

Arguments Returns {A} a.
Arguments Raises {A} e.

(** A Python int that sqlite3 can bind to a statement: SQLite's INTEGER is
    signed 64-bit, and a larger int raises OverflowError at the binding. *)
Definition fits_integer (z : Z) : bool :=
  (-9223372036854775808 <=? z) && (z <=? 9223372036854775807).

(** ** Data *)

(** A decoded datagram: the keys of the three wire shapes. *)
Record packet : Type := mkPacket {
  p_type : option string;
  p_id : option string;
  p_origin_id : option string;
  p_origin_label : option string;
  p_dest_id : option string;
  p_subtype : option string;
  p_payload : option string;
  p_timestamp : option string;
  p_hops : option Z;
  p_ttl : option Z;
  p_orig_msg_id : option string;
  p_from_node : option string;
  p_node_id : option string;
  p_label : option string
}.

(** [outgoing = dict(msg); outgoing["hops"] = h]. *)
Definition set_hops (msg : packet) (h : Z) : packet :=
  {| p_type := p_type msg;
     p_id := p_id msg;
     p_origin_id := p_origin_id msg;
     p_origin_label := p_origin_label msg;
     p_dest_id := p_dest_id msg;
     p_subtype := p_subtype msg;
     p_payload := p_payload msg;
     p_timestamp := p_timestamp msg;
     p_hops := Some h;
     p_ttl := p_ttl msg;
     p_orig_msg_id := p_orig_msg_id msg;
     p_from_node := p_from_node msg;
     p_node_id := p_node_id msg;
     p_label := p_label msg |}.

(** The dictionary handed to [Storage.insert_message]: [id] is read with
    [msg["id"]], every other key with [msg.get]. *)
Record message : Type := mkMessage {
  m_id : string;
  m_origin_id : option string;
  m_origin_label : option string;
  m_dest_id : option string;
  m_type : option string;
  m_payload : option string;
  m_timestamp : option string;
  m_hops : option Z;
  m_ttl : option Z;
  m_forwarded : option Z;
  m_acknowledged : option Z;
  m_resend_count : option Z
}.

(** A row of the [messages] table. *)
Record row : Type := mkRow {
  r_id : string;
  r_origin_id : string;
  r_origin_label : string;
  r_dest_id : string;
  r_type : string;
  r_payload : string;
  r_timestamp : string;
  r_received_at : string;
  r_hops : Z;
  r_ttl : Z;
  r_forwarded : Z;
  r_acknowledged : Z;
  r_resend_count : Z
}.

Definition set_forwarded (v : Z) (r : row) : row :=
  mkRow (r_id r) (r_origin_id r) (r_origin_label r) (r_dest_id r) (r_type r)
        (r_payload r) (r_timestamp r) (r_received_at r) (r_hops r) (r_ttl r)
        v (r_acknowledged r) (r_resend_count r).

Definition set_acknowledged (v : Z) (r : row) : row :=
  mkRow (r_id r) (r_origin_id r) (r_origin_label r) (r_dest_id r) (r_type r)
        (r_payload r) (r_timestamp r) (r_received_at r) (r_hops r) (r_ttl r)
        (r_forwarded r) v (r_resend_count r).

Definition set_resend (v : Z) (r : row) : row :=
  mkRow (r_id r) (r_origin_id r) (r_origin_label r) (r_dest_id r) (r_type r)
        (r_payload r) (r_timestamp r) (r_received_at r) (r_hops r) (r_ttl r)
        (r_forwarded r) (r_acknowledged r) v.

(** What [SignalNotifier.run] prints: the line that opens a forwarding batch,
    and one line per message it forwards (the forwarding is simulated by
    that line). *)
Inductive log_line : Type :=
  | Connectivity_detected
  | Forwarding (mid origin kind : string).

(** What a node is started with: [--id], [--label], and its clock. *)
Record node : Type := mkNode {
  node_id : string;
  node_label : string;
  clock : nat -> string
}.

(** The mutable state one node's tasks share. *)
Record world : Type := mkWorld {
  messages : list row;          (* Storage: the messages table, by rowid *)
  sent : list packet;           (* UDPPeer: packets given to send_packet *)
  clock_reads : nat;            (* calls of now_iso so far *)
  seen_online : bool;           (* SignalNotifier._seen_online *)
  upstream : list log_line      (* lines printed by the notifier *)
}.

Definition with_messages (t : list row) (w : world) : world :=
  mkWorld t (sent w) (clock_reads w) (seen_online w) (upstream w).

(** ** State monad *)

Definition M (A : Type) : Type := world -> A * world.

Definition ret {A : Type} (a : A) : M A := fun w => (a, w).

Definition bind {A B : Type} (c : M A) (k : A -> M B) : M B :=
  fun w => let (a, w') := c w in k a w'.

Notation "x <- c ;; k" := (bind c (fun x => k))
  (at level 61, c at next level, right associativity).
Notation "c ;; k" := (bind c (fun _ => k))
  (at level 61, right associativity).

(** [for x in xs: body(x)] *)
Fixpoint for_each {A : Type} (xs : list A) (body : A -> M unit) : M unit :=
  match xs with
  | [] => ret tt
  | x :: rest => body x ;; for_each rest body
  end.

(** Final world of a computation. *)
Definition exec {A : Type} (c : M A) (w : world) : world := snd (c w).

(** [now_iso()] *)
Definition now_iso (nd : node) : M string :=
  fun w => (clock nd (clock_reads w),
            mkWorld (messages w) (sent w) (S (clock_reads w))
                    (seen_online w) (upstream w)).

(** [UDPPeer.send_packet]: a failing [sendto] is caught and printed, so the
    call always returns. *)
Definition send_packet (data : packet) : M unit :=
  fun w => (tt, mkWorld (messages w) (sent w ++ [data]) (clock_reads w)
                        (seen_online w) (upstream w)).

(** ** Storage *)

Module Storage.

(** [SELECT * FROM messages WHERE id = ?] and [fetchone]. *)
Definition select_by_id (mid : string) (t : list row) : option row :=
  find (fun r => (r_id r =? mid)%string) t.

(** [UPDATE messages SET ... WHERE id = ?] *)
Definition update_where_id (mid : string) (f : row -> row) (t : list row)
  : list row :=
  map (fun r => if (r_id r =? mid)%string then f r else r) t.

(** The row an INSERT of [msg] writes; [ts] is the value of the
    [now_iso()] in [msg.get("timestamp", now_iso())], [rcv] the one stored
    as [received_at]. *)
Definition row_of_message (msg : message) (ts rcv : string) : row :=
  {| r_id := m_id msg;
     r_origin_id := get (m_origin_id msg) "";
     r_origin_label := get (m_origin_label msg) "";
     r_dest_id := get (m_dest_id msg) "";
     r_type := get (m_type msg) "";
     r_payload := get (m_payload msg) "";
     r_timestamp := get (m_timestamp msg) ts;
     r_received_at := rcv;
     r_hops := get (m_hops msg) 0;
     r_ttl := get (m_ttl msg) MESSAGE_TTL;
     r_forwarded := get (m_forwarded msg) 0;
     r_acknowledged := get (m_acknowledged msg) 0;
     r_resend_count := get (m_resend_count msg) 0 |}.

(** The five integers of a row can be bound to the INSERT. *)
Definition bindable (r : row) : bool :=
  fits_integer (r_hops r) && fits_integer (r_ttl r)
  && fits_integer (r_forwarded r) && fits_integer (r_acknowledged r)
  && fits_integer (r_resend_count r).

(** [insert_message]: the parameters are evaluated (two clock reads) and
    bound, which raises OverflowError for an integer out of range; then
    [True] after the INSERT, [False] when the PRIMARY KEY raises
    IntegrityError, the one exception the method catches. *)
Definition insert_message (nd : node) (msg : message) : M (result bool) :=
  ts <- now_iso nd ;;
  rcv <- now_iso nd ;;
  fun w =>
    if negb (bindable (row_of_message msg ts rcv))
    then (Raises OverflowError, w)
    else
      match select_by_id (m_id msg) (messages w) with
      | Some _ => (Returns false, w)
      | None =>
          (Returns true,
           with_messages (messages w ++ [row_of_message msg ts rcv]) w)
      end.

Definition mark_forwarded (message_id : string) : M unit :=
  fun w => (tt, with_messages
                  (update_where_id message_id (set_forwarded 1) (messages w))
                  w).

Definition mark_acknowledged (message_id : string) : M unit :=
  fun w => (tt, with_messages
                  (update_where_id message_id (set_acknowledged 1)
                                   (messages w))
                  w).

Definition increment_resend (message_id : string) : M unit :=
  fun w => (tt, with_messages
                  (update_where_id message_id
                     (fun r => set_resend (r_resend_count r + 1) r)
                     (messages w))
                  w).

(** [WHERE forwarded=0 OR (type='SOS' AND acknowledged=0)] *)
Definition is_pending (r : row) : bool :=
  (r_forwarded r =? 0)
  || ((r_type r =? "SOS")%string && (r_acknowledged r =? 0)).

Definition get_pending_messages : M (list row) :=
  fun w => (filter is_pending (messages w), w).

Definition get_message (message_id : string) : M (option row) :=
  fun w => (select_by_id message_id (messages w), w).

(** [WHERE type='SOS' AND acknowledged=0 AND ttl > 0] *)
Definition is_unacknowledged_sos (r : row) : bool :=
  (r_type r =? "SOS")%string && (r_acknowledged r =? 0) && (0 <? r_ttl r).

(** [get_unacknowledged_sos]: the [cutoff] it computes from
    [age_limit_seconds] is not used by the query; [ORDER BY rowid ASC] is
    the order of the table. *)
Definition get_unacknowledged_sos : M (list row) :=
  fun w => (filter is_unacknowledged_sos (messages w), w).

(** [set_resend_count]: [val] is bound to the UPDATE, which raises
    OverflowError when it is out of range. *)
Definition set_resend_count (message_id : string) (val : Z)
  : M (result unit) :=
  fun w =>
    if negb (fits_integer val) then (Raises OverflowError, w)
    else
      (Returns tt,
       with_messages (update_where_id message_id (set_resend val) (messages w))
                     w).

(** [list_messages]: [ORDER BY rowid DESC], under [WHERE forwarded=0] when
    [unseen_only]. *)
Definition list_messages (unseen_only : bool) : M (list row) :=
  fun w =>
    (if unseen_only
     then rev (filter (fun r => r_forwarded r =? 0) (messages w))
     else rev (messages w),
     w).

(** [cleanup_expired]: [DELETE FROM messages WHERE received_at < ?]; [cutoff]
    is the ISO text of the instant seven days before the call, and the two
    TEXT values are compared byte by byte. *)
Definition cleanup_expired (cutoff : string) : M unit :=
  fun w => (tt, with_messages
                  (filter (fun r => negb (String.ltb (r_received_at r) cutoff))
                          (messages w))
                  w).

End Storage.

(** ** Relay engine *)

(** The acknowledgement built on first admission. *)
Definition ack_packet (nd : node) (mid ts : string) : packet :=
  {| p_type := Some "DM_ACK";
     p_id := None;
     p_origin_id := None;
     p_origin_label := None;
     p_dest_id := None;
     p_subtype := None;
     p_payload := None;
     p_timestamp := Some ts;
     p_hops := None;
     p_ttl := None;
     p_orig_msg_id := Some mid;
     p_from_node := Some (node_id nd);
     p_node_id := None;
     p_label := None |}.

(** The dictionary [on_incoming_message] stores for a DM_MSG. *)
Definition message_of_packet (msg : packet) (mid ts : string) (hops ttl : Z)
  : message :=
  {| m_id := mid;
     m_origin_id := Some (get (p_origin_id msg) "");
     m_origin_label := Some (get (p_origin_label msg) "");
     m_dest_id := Some (get (p_dest_id msg) "");
     m_type := Some (get (p_subtype msg) "SOS");
     m_payload := Some (get (p_payload msg) "");
     m_timestamp := Some (get (p_timestamp msg) ts);
     m_hops := Some hops;
     m_ttl := Some ttl;
     m_forwarded := None;
     m_acknowledged := None;
     m_resend_count := None |}.

(** [on_incoming_message].  An OverflowError of the INSERT ends the call
    where it is raised: nothing after it runs, and the receive loop that
    called the handler catches it and goes on. *)
Definition on_incoming_message (nd : node) (msg : packet) : M unit :=
  let t := get (p_type msg) "" in
  if (t =? "ANNOUNCE")%string then ret tt
  else if (t =? "DM_MSG")%string then
    let dest := get (p_dest_id msg) "" in
    if truthy dest && neq dest (node_id nd) then ret tt
    else
      match p_id msg with
      | None => ret tt
      | Some mid =>
          if negb (truthy mid) then ret tt
          else
            let hops := get (p_hops msg) 0 in
            let ttl := get (p_ttl msg) MESSAGE_TTL in
            ts <- now_iso nd ;;
            inserted <- Storage.insert_message nd
                          (message_of_packet msg mid ts hops ttl) ;;
            match inserted with
            | Returns true =>
                ack_ts <- now_iso nd ;;
                send_packet (ack_packet nd mid ack_ts) ;;
                if hops <? ttl then send_packet (set_hops msg (hops + 1))
                else ret tt
            | Returns false => ret tt
            | Raises _ => ret tt
            end
      end
  else if (t =? "DM_ACK")%string then
    match p_orig_msg_id msg with
    | None => ret tt
    | Some orig_mid =>
        if negb (truthy orig_mid) then ret tt
        else
          stored <- Storage.get_message orig_mid ;;
          match stored with
          | Some _ => Storage.mark_acknowledged orig_mid
          | None => ret tt
          end
    end
  else ret tt.

(** ** SOS resender *)

(** The flood packet rebuilt from a stored row. *)
Definition resend_packet (r : row) : packet :=
  {| p_type := Some "DM_MSG";
     p_id := Some (r_id r);
     p_origin_id := Some (r_origin_id r);
     p_origin_label := Some (r_origin_label r);
     p_dest_id := Some (r_dest_id r);
     p_subtype := Some (r_type r);
     p_payload := Some (r_payload r);
     p_timestamp := Some (r_timestamp r);
     p_hops := Some 0;
     p_ttl := Some (r_ttl r);
     p_orig_msg_id := None;
     p_from_node := None;
     p_node_id := None;
     p_label := None |}.

(** Body of [for row in rows] in [sos_resender_task]. *)
Definition resend_row (nd : node) (r : row) : M unit :=
  if neq (r_origin_id r) (node_id nd) then ret tt
  else
    let resend_count := r_resend_count r in
    if MAX_SOS_RESENDS <=? resend_count then ret tt
    else
      send_packet (resend_packet r) ;;
      Storage.increment_resend (r_id r).

(** One pass of the [while True] loop of [sos_resender_task]. *)
Definition sos_resender_cycle (nd : node) : M unit :=
  rows <- Storage.get_unacknowledged_sos ;;
  for_each rows (resend_row nd).

(** [n] passes in a row. *)
Fixpoint sos_resender_cycles (nd : node) (n : nat) : M unit :=
  match n with
  | O => ret tt
  | S k => sos_resender_cycle nd ;; sos_resender_cycles nd k
  end.

(** ** Signal notifier *)

Definition set_seen_online (b : bool) : M unit :=
  fun w => (tt, mkWorld (messages w) (sent w) (clock_reads w) b (upstream w)).

Definition print_line (l : log_line) : M unit :=
  fun w => (tt, mkWorld (messages w) (sent w) (clock_reads w) (seen_online w)
                        (upstream w ++ [l])).

(** Body of [for row in pending]. *)
Definition forward_row (r : row) : M unit :=
  let mid := r_id r in
  print_line (Forwarding mid (r_origin_id r) (r_type r)) ;;
  Storage.mark_forwarded mid.

(** One pass of the [while True] loop of [SignalNotifier.run]; [online] is
    the result of the reachability probe [is_online()]. *)
Definition notifier_step (online : bool) : M unit :=
  fun w =>
    if online && negb (seen_online w) then
      (print_line Connectivity_detected ;;
       pending <- Storage.get_pending_messages ;;
       for_each pending forward_row ;;
       set_seen_online true) w
    else if negb online then set_seen_online false w
    else (tt, w).

(** A run of the notifier over successive probe results. *)
Fixpoint notifier_run (obs : list bool) : M unit :=
  match obs with
  | [] => ret tt
  | online :: rest => notifier_step online ;; notifier_run rest
  end.

(** ** Originating a message *)

(** [build_outgoing_message], with the [ttl] left at its default; [uuid] is
    the value of [str(uuid.uuid4())]. *)
Definition build_outgoing_message
           (uuid origin_id origin_label subtype payload dest_id ts : string)
  : packet :=
  {| p_type := Some "DM_MSG";
     p_id := Some uuid;
     p_origin_id := Some origin_id;
     p_origin_label := Some origin_label;
     p_dest_id := Some dest_id;
     p_subtype := Some subtype;
     p_payload := Some payload;
     p_timestamp := Some ts;
     p_hops := Some 0;
     p_ttl := Some MESSAGE_TTL;
     p_orig_msg_id := None;
     p_from_node := None;
     p_node_id := None;
     p_label := None |}.

(** The dictionary the [/send] branch stores for the packet [msg] it built. *)
Definition message_of_command (nd : node) (msg : packet)
           (uuid subtype dest_id text : string) : message :=
  {| m_id := uuid;
     m_origin_id := Some (node_id nd);
     m_origin_label := Some (node_label nd);
     m_dest_id := Some dest_id;
     m_type := Some subtype;
     m_payload := Some text;
     m_timestamp := p_timestamp msg;
     m_hops := Some 0;
     m_ttl := p_ttl msg;
     m_forwarded := Some 0;
     m_acknowledged := Some 0;
     m_resend_count := Some 0 |}.

(** The [/send] branch of [main_loop], after the command line is split into
    [subtype], [dest_id] and [text]: the value [insert_message] returns is
    not looked at, and an exception it raised would leave the branch before
    the packet is sent. *)
Definition send_command (nd : node) (uuid subtype dest_id text : string)
  : M unit :=
  ts <- now_iso nd ;;
  let msg := build_outgoing_message uuid (node_id nd) (node_label nd)
                                    subtype text dest_id ts in
  inserted <- Storage.insert_message nd
                (message_of_command nd msg uuid subtype dest_id text) ;;
  match inserted with
  | Returns _ => send_packet msg
  | Raises _ => ret tt
  end.

(** ** A node's life *)

(** What the tasks of [main_loop] do to the shared state, one at a time. *)
Inductive event : Type :=
  | Receive (msg : packet)
  | Send (uuid subtype dest_id text : string)
  | Probe (online : bool)
  | ResendPass.

Definition step (nd : node) (e : event) : M unit :=
  match e with
  | Receive msg => on_incoming_message nd msg
  | Send uuid subtype dest_id text => send_command nd uuid subtype dest_id text
  | Probe online => notifier_step online
  | ResendPass => sos_resender_cycle nd
  end.

Fixpoint run (nd : node) (es : list event) : M unit :=
  match es with
  | [] => ret tt
  | e :: rest => step nd e ;; run nd rest
  end.

(** ** The console, the beacon and the alert cache *)

(** The [/ack] branch of [main_loop], after the id is cut out of the
    command line. *)
Definition ack_command (nd : node) (mid : string) : M unit :=
  ts <- now_iso nd ;;
  send_packet (ack_packet nd mid ts).

(** The beacon of [UDPPeer.broadcaster]. *)
Definition announce_packet (nd : node) (ts : string) : packet :=
  {| p_type := Some "ANNOUNCE";
     p_id := None;
     p_origin_id := None;
     p_origin_label := None;
     p_dest_id := None;
     p_subtype := None;
     p_payload := None;
     p_timestamp := Some ts;
     p_hops := None;
     p_ttl := None;
     p_orig_msg_id := None;
     p_from_node := None;
     p_node_id := Some (node_id nd);
     p_label := Some (node_label nd) |}.

(** One pass of the [while True] loop of [UDPPeer.broadcaster]. *)
Definition broadcaster_pass (nd : node) : M unit :=
  ts <- now_iso nd ;;
  send_packet (announce_packet nd ts).

(** A row of the [alerts] table. *)
Record alert : Type := mkAlert {
  a_id : string;
  a_title : string;
  a_body : string;
  a_source : string;
  a_fetched_at : string
}.

(** What [OnlineMonitor.fetch_feed] returns for a feed it could read. *)
Record fetched : Type := mkFetched {
  f_id : string;
  f_title : string;
  f_body : string;
  f_source : string
}.

Module Alerts.

(** [SELECT * FROM alerts WHERE id = ?] *)
Definition select_by_id (alert_id : string) (t : list alert) : option alert :=
  find (fun a => (a_id a =? alert_id)%string) t.

(** [Storage.insert_alert]: INSERT OR REPLACE deletes the row that holds the
    id and inserts the new one; [now] is the value of [now_iso()]. *)
Definition insert_alert (alert_id title body source now : string)
           (t : list alert) : list alert :=
  filter (fun a => negb (a_id a =? alert_id)%string) t
  ++ [mkAlert alert_id title body source now].

(** [for url in self.feeds] of [OnlineMonitor.run]: each feed comes with the
    outcome of its HTTP request ([None] when [fetch_feed] returns [None]),
    and the state is the table with the number of clock reads. *)
Fixpoint store_feeds (clock : nat -> string)
         (feeds : list (string * option fetched)) (st : list alert * nat)
  : list alert * nat :=
  match feeds with
  | [] => st
  | (_, Some f) :: rest =>
      store_feeds clock rest
        (insert_alert (f_id f) (f_title f) (f_body f) (f_source f)
                      (clock (snd st)) (fst st),
         S (snd st))
  | (_, None) :: rest => store_feeds clock rest st
  end.

(** One pass of the [while self._running] loop of [OnlineMonitor.run]:
    [online] is the result of the probe, [requests] tells whether the
    [requests] module could be imported. *)
Definition monitor_pass (clock : nat -> string)
           (feeds : list (string * option fetched)) (online requests : bool)
           (st : list alert * nat) : list alert * nat :=
  if online && negb (match feeds with [] => true | _ => false end) && requests
  then store_feeds clock feeds st
  else st.

End Alerts.

(** ** Vocabulary of the statements *)

(** The PRIMARY KEY constraint: no two rows share an id. *)
Definition ids_unique (t : list row) : Prop := NoDup (map r_id t).

(** The destination test of the relay engine lets the packet through. *)
Definition addressed_here (nd : node) (msg : packet) : Prop :=
  get (p_dest_id msg) "" = "" \/ get (p_dest_id msg) "" = node_id nd.

(** [msg] is a DM_MSG that the relay engine sees for the first time under
    the id [mid]: it passes the destination test, carries a non-empty id,
    and that id is not in the store. *)
Definition first_seen (nd : node) (msg : packet) (w : world) (mid : string)
  : Prop :=
  get (p_type msg) "" = "DM_MSG" /\
  addressed_here nd msg /\
  p_id msg = Some mid /\
  mid <> "" /\
  Storage.select_by_id mid (messages w) = None.

(** The integers the dictionary [msg] gives the INSERT can be bound. *)
Definition message_in_range (msg : message) : Prop :=
  Storage.bindable (Storage.row_of_message msg "" "") = true.

(** The [hops] and [ttl] the relay engine reads from [msg] can be bound to
    the INSERT. *)
Definition in_range (msg : packet) : Prop :=
  fits_integer (get (p_hops msg) 0) = true /\
  fits_integer (get (p_ttl msg) MESSAGE_TTL) = true.

(** [r'] is [r] up to its [forwarded] and [acknowledged] flags. *)
Definition same_but_flags (r r' : row) : Prop :=
  r' = set_forwarded (r_forwarded r') (set_acknowledged (r_acknowledged r') r).

(** The row the scheduler resends: its own, below the cap. *)
Definition resendable (nd : node) (r : row) : bool :=
  negb (neq (r_origin_id r) (node_id nd))
  && negb (MAX_SOS_RESENDS <=? r_resend_count r).

(** Every record of [t] that the scheduler does not resend is still in
    [t'], up to its [forwarded] and [acknowledged] flags. *)
Definition keeps_unsent (nd : node) (t t' : list row) : Prop :=
  forall r, In r t -> resendable nd r = false ->
            exists r', In r' t' /\ same_but_flags r r'.

(** [n] insertions of the same dictionary, with what each call gave. *)
Fixpoint insert_repeatedly (nd : node) (msg : message) (n : nat)
  : M (list (result bool)) :=
  match n with
  | O => ret []
  | S k =>
      b <- Storage.insert_message nd msg ;;
      bs <- insert_repeatedly nd msg k ;;
      ret (b :: bs)
  end.

(** Forwarding batches opened in a log. *)
Fixpoint batches (log : list log_line) : nat :=
  match log with
  | [] => O
  | Connectivity_detected :: rest => S (batches rest)
  | Forwarding _ _ _ :: rest => batches rest
  end.

(** Offline-to-online edges in a sequence of probe results, [prev] being
    the result before the first of them. *)
Fixpoint edges (prev : bool) (obs : list bool) : nat :=
  match obs with
  | [] => O
  | online :: rest =>
      ((if online && negb prev then 1 else 0) + edges online rest)%nat
  end.

(** [s] keeps some of the elements of [t], in the order of [t]. *)
Inductive Subseq {A : Type} : list A -> list A -> Prop :=
  | Subseq_nil : Subseq [] []
  | Subseq_skip : forall x s t, Subseq s t -> Subseq s (x :: t)
  | Subseq_keep : forall x s t, Subseq s t -> Subseq (x :: s) (x :: t).

(** The row written when [on_incoming_message] admits [msg] under the id
    [mid] in the world [w]: the handler reads the clock once for the default
    of [timestamp], [insert_message] reads it twice. *)
Definition admitted_row (nd : node) (msg : packet) (mid : string) (w : world)
  : row :=
  Storage.row_of_message
    (message_of_packet msg mid (clock nd (clock_reads w))
                       (get (p_hops msg) 0) (get (p_ttl msg) MESSAGE_TTL))
    (clock nd (S (clock_reads w)))
    (clock nd (S (S (clock_reads w)))).

(** The packets a world gained over an earlier one. *)
Definition emitted (w w' : world) (new : list packet) : Prop :=
  sent w' = sent w ++ new.

(** [b] has every key of [a] other than [hops] as [a] has it. *)
Definition same_but_hops (a b : packet) : Prop :=
  p_type b = p_type a /\
  p_id b = p_id a /\
  p_origin_id b = p_origin_id a /\
  p_origin_label b = p_origin_label a /\
  p_dest_id b = p_dest_id a /\
  p_subtype b = p_subtype a /\
  p_payload b = p_payload a /\
  p_timestamp b = p_timestamp a /\
  p_ttl b = p_ttl a /\
  p_orig_msg_id b = p_orig_msg_id a /\
  p_from_node b = p_from_node a /\
  p_node_id b = p_node_id a /\
  p_label b = p_label a.

(** [resend_count = resend_count + 1] *)
Definition bump (r : row) : row := set_resend (r_resend_count r + 1) r.

(** The table after [increment_resend] was called for each row of [rs]. *)
Definition bump_all (rs t : list row) : list row :=
  fold_left (fun acc r => Storage.update_where_id (r_id r) bump acc) rs t.

(** The table after [mark_forwarded] was called for each row of [rs]. *)
Definition mark_all (rs t : list row) : list row :=
  fold_left
    (fun acc r => Storage.update_where_id (r_id r) (set_forwarded 1) acc) rs t.

(** The line printed for a forwarded row. *)
Definition forwarding_line (r : row) : log_line :=
  Forwarding (r_id r) (r_origin_id r) (r_type r).

(** ** Vocabulary of the further properties *)

(** A key is present and holds [s]. *)
Definition holds (field : option string) (s : string) : bool :=
  match field with
  | Some v => (v =? s)%string
  | None => false
  end.

(** [p] is a DM_ACK for the id [i]. *)
Definition is_ack_for (i : string) (p : packet) : bool :=
  holds (p_type p) "DM_ACK" && holds (p_orig_msg_id p) i.

(** [p] is a DM_MSG with the id [i]. *)
Definition is_msg_for (i : string) (p : packet) : bool :=
  holds (p_type p) "DM_MSG" && holds (p_id p) i.

Definition count_acks (i : string) (l : list packet) : nat :=
  length (filter (is_ack_for i) l).

Definition count_msgs (i : string) (l : list packet) : nat :=
  length (filter (is_msg_for i) l).

(** The receive loop over a sequence of decoded datagrams. *)
Definition receive_all (nd : node) (msgs : list packet) : M unit :=
  for_each msgs (on_incoming_message nd).

(** A row with its three status columns blanked. *)
Definition content (r : row) : row :=
  set_resend 0 (set_forwarded 0 (set_acknowledged 0 r)).

(** The columns a message carries from node to node. *)
Definition message_columns (r : row)
  : string * string * string * string * string * string * Z :=
  (r_id r, r_origin_id r, r_origin_label r, r_dest_id r, r_type r,
   r_payload r, r_ttl r).

(** [r'] is a later state of the record [r]: the same content, a flag that
    was set still set, and no fewer resends. *)
Definition row_evolves (r r' : row) : Prop :=
  content r' = content r /\
  (r_forwarded r = 1 -> r_forwarded r' = 1) /\
  (r_acknowledged r = 1 -> r_acknowledged r' = 1) /\
  r_resend_count r <= r_resend_count r'.

(** [t'] is a later state of the table [t]: every row of [t] is at its
    place, evolved, and the new rows come after them. *)
Definition grows (t t' : list row) : Prop :=
  exists kept extra : list row,
    t' = kept ++ extra /\ Forall2 row_evolves t kept.

(** The status columns are in range. *)
Definition row_ok (r : row) : Prop :=
  (r_forwarded r = 0 \/ r_forwarded r = 1) /\
  (r_acknowledged r = 0 \/ r_acknowledged r = 1) /\
  0 <= r_resend_count r <= MAX_SOS_RESENDS.

(** The scheduler resends [r] in its next pass. *)
Definition eligible (nd : node) (r : row) : bool :=
  Storage.is_unacknowledged_sos r && resendable nd r.

(** What a pass of the scheduler does to one row. *)
Definition pass_row (nd : node) (r : row) : row :=
  if eligible nd r then bump r else r.

(** The packets a first admission of [msg] under [mid] sends. *)
Definition admission_packets (nd : node) (msg : packet) (w : world)
           (mid : string) : list packet :=
  ack_packet nd mid (clock nd (3 + clock_reads w)) ::
  (if get (p_hops msg) 0 <? get (p_ttl msg) MESSAGE_TTL
   then [set_hops msg (get (p_hops msg) 0 + 1)]
   else []).

(** The packets [c] hands to the socket when run in [w]. *)
Definition emissions {A : Type} (c : M A) (w : world) : list packet :=
  skipn (length (sent w)) (sent (exec c w)).

(** The copy of [msg] that [nd] re-emits when it handles it in [w]. *)
Definition relayed_copy (nd : node) (msg : packet) (w : world)
  : option packet :=
  match emissions (on_incoming_message nd msg) w with
  | [_; out] => Some out
  | _ => None
  end.

(** A packet travels along a path of nodes, each handling the copy the node
    before it re-emitted: the number of nodes that re-emit it. *)
Fixpoint flood_path (path : list (node * world)) (msg : packet) : nat :=
  match path with
  | [] => O
  | (nd, w) :: rest =>
      match relayed_copy nd msg w with
      | Some out => S (flood_path rest out)
      | None => O
      end
  end.

(** Every node of the path sees the id [mid] for the first time and is
    addressed by [dest]. *)
Definition fresh_path (path : list (node * world)) (mid dest : string)
  : Prop :=
  Forall (fun nw => (dest = "" \/ dest = node_id (fst nw)) /\
                    Storage.select_by_id mid (messages (snd nw)) = None)
         path.

(** The packet [/send] broadcasts when run in [w]. *)
Definition command_packet (nd : node) (uuid subtype dest_id text : string)
           (w : world) : packet :=
  build_outgoing_message uuid (node_id nd) (node_label nd) subtype text
                         dest_id (clock nd (clock_reads w)).

(** The row [/send] writes when run in [w]. *)
Definition command_row (nd : node) (uuid subtype dest_id text : string)
           (w : world) : row :=
  Storage.row_of_message
    (message_of_command nd (command_packet nd uuid subtype dest_id text w)
                        uuid subtype dest_id text)
    (clock nd (S (clock_reads w)))
    (clock nd (S (S (clock_reads w)))).

(** [type='SOS' AND acknowledged=0] *)
Definition is_open_sos (r : row) : bool :=
  (r_type r =? "SOS")%string && (r_acknowledged r =? 0).

(** What a forwarding batch over the table [t] does to a row. *)
Definition mark_row (t : list row) (r : row) : row :=
  if existsb (fun x => (r_id x =? r_id r)%string)
             (filter Storage.is_pending t)
  then set_forwarded 1 r else r.

(** ** Sample nodes, packets and stores *)

Definition clockA (n : nat) : string :=
  match n with
  | O => "2025-01-01T00:00:00+00:00"
  | S O => "2025-01-01T00:00:01+00:00"
  | S (S O) => "2025-01-01T00:00:02+00:00"
  | _ => "2025-01-01T00:00:03+00:00"
  end.

Definition nodeA : node := mkNode "A" "alpha" clockA.
Definition nodeB : node := mkNode "B" "bravo" clockA.
Definition nodeC : node := mkNode "C" "charlie" clockA.

Definition world0 : world := mkWorld [] [] O false [].

(** A DM_MSG as [build_outgoing_message] makes it. *)
Definition dm_msg (mid origin dest subtype body : string) (hops ttl : Z)
  : packet :=
  {| p_type := Some "DM_MSG";
     p_id := Some mid;
     p_origin_id := Some origin;
     p_origin_label := Some origin;
     p_dest_id := Some dest;
     p_subtype := Some subtype;
     p_payload := Some body;
     p_timestamp := Some "2024-12-31T23:59:59+00:00";
     p_hops := Some hops;
     p_ttl := Some ttl;
     p_orig_msg_id := None;
     p_from_node := None;
     p_node_id := None;
     p_label := None |}.

(** A DM_MSG that carries neither subtype nor ttl. *)
Definition bare_msg (mid : string) : packet :=
  {| p_type := Some "DM_MSG";
     p_id := Some mid;
     p_origin_id := Some "C";
     p_origin_label := None;
     p_dest_id := None;
     p_subtype := None;
     p_payload := Some "help";
     p_timestamp := None;
     p_hops := None;
     p_ttl := None;
     p_orig_msg_id := None;
     p_from_node := None;
     p_node_id := None;
     p_label := None |}.

(** The dictionary [/send] stores, with the three status keys set. *)
Definition local_message (mid origin kind body : string) (fwd : Z) : message :=
  {| m_id := mid;
     m_origin_id := Some origin;
     m_origin_label := Some origin;
     m_dest_id := Some "";
     m_type := Some kind;
     m_payload := Some body;
     m_timestamp := Some "2024-12-31T23:59:59+00:00";
     m_hops := Some 0;
     m_ttl := Some 6;
     m_forwarded := Some fwd;
     m_acknowledged := Some 0;
     m_resend_count := Some 0 |}.

Definition sos_row (mid origin : string) (ack resends : Z) : row :=
  {| r_id := mid;
     r_origin_id := origin;
     r_origin_label := origin;
     r_dest_id := "";
     r_type := "SOS";
     r_payload := "help";
     r_timestamp := "2024-12-31T23:59:59+00:00";
     r_received_at := "2025-01-01T00:00:00+00:00";
     r_hops := 0;
     r_ttl := 6;
     r_forwarded := 0;
     r_acknowledged := ack;
     r_resend_count := resends |}.

Definition world_of (t : list row) : world := mkWorld t [] O false [].

(** * Properties *)

(** ** The table *)

Section StorageFacts.

Import Storage.

Lemma select_by_id_some (mid : string) (t : list row) (r : row) :
  select_by_id mid t = Some r -> In r t /\ r_id r = mid.
Proof.
  unfold select_by_id. intros H.
  apply find_some in H. destruct H as [Hin Heq].
  split; [exact Hin | now apply String.eqb_eq].
Qed.

Lemma select_by_id_none (mid : string) (t : list row) :
  select_by_id mid t = None <-> ~ In mid (map r_id t).
Proof.
  unfold select_by_id. induction t as [|r t IH]; simpl.
  - tauto.
  - destruct (String.eqb_spec (r_id r) mid) as [E|E].
    + split; [discriminate | intros H; exfalso; apply H; now left].
    + rewrite IH. split.
      * intros H [H'|H']; [contradiction | now apply H].
      * intros H H'. apply H. now right.
Qed.

Lemma select_by_id_app (mid : string) (t u : list row) :
  select_by_id mid (t ++ u) =
  match select_by_id mid t with
  | Some r => Some r
  | None => select_by_id mid u
  end.
Proof.
  unfold select_by_id. induction t as [|r t IH]; simpl.
  - reflexivity.
  - destruct (r_id r =? mid)%string; [reflexivity | exact IH].
Qed.

Lemma select_by_id_unique (t : list row) (r : row) :
  ids_unique t -> In r t -> select_by_id (r_id r) t = Some r.
Proof.
  unfold ids_unique, select_by_id.
  induction t as [|x t IH]; simpl; intros Hnd Hin.
  - contradiction.
  - inversion Hnd as [|? ? Hx Hnd']; subst.
    destruct Hin as [->|Hin].
    + now rewrite String.eqb_refl.
    + destruct (String.eqb_spec (r_id x) (r_id r)) as [E|E].
      * exfalso. apply Hx. rewrite E. now apply in_map.
      * now apply IH.
Qed.

Lemma same_id_same_row (t : list row) (r r' : row) :
  ids_unique t -> In r t -> In r' t -> r_id r = r_id r' -> r = r'.
Proof.
  intros Hu Hr Hr' E.
  pose proof (select_by_id_unique t r Hu Hr) as H1.
  pose proof (select_by_id_unique t r' Hu Hr') as H2.
  rewrite E in H1. congruence.
Qed.

Lemma update_where_id_ids (mid : string) (f : row -> row) (t : list row) :
  (forall r, r_id (f r) = r_id r) ->
  map r_id (update_where_id mid f t) = map r_id t.
Proof.
  intros Hf. unfold update_where_id. rewrite map_map.
  apply map_ext. intros r. destruct (r_id r =? mid)%string; auto.
Qed.

Lemma update_where_id_length (mid : string) (f : row -> row) (t : list row) :
  length (update_where_id mid f t) = length t.
Proof. unfold update_where_id. apply length_map. Qed.

Lemma update_where_id_other (mid : string) (f : row -> row) (t : list row)
      (r : row) :
  r_id r <> mid -> In r t -> In r (update_where_id mid f t).
Proof.
  intros Hne Hin. unfold update_where_id.
  apply in_map_iff. exists r. split; [|exact Hin].
  destruct (String.eqb_spec (r_id r) mid); [contradiction | reflexivity].
Qed.

Lemma update_where_id_absent (mid : string) (f : row -> row) (t : list row) :
  select_by_id mid t = None -> update_where_id mid f t = t.
Proof.
  unfold select_by_id, update_where_id.
  induction t as [|r t IH]; simpl; intros H.
  - reflexivity.
  - destruct (r_id r =? mid)%string; [discriminate|].
    now rewrite IH.
Qed.

Lemma select_update_where_id (mid : string) (f : row -> row) (t : list row) :
  (forall r, r_id (f r) = r_id r) ->
  select_by_id mid (update_where_id mid f t) =
  option_map f (select_by_id mid t).
Proof.
  intros Hf. unfold select_by_id, update_where_id.
  induction t as [|r t IH]; simpl.
  - reflexivity.
  - destruct (String.eqb_spec (r_id r) mid) as [E|E].
    + rewrite Hf. subst mid. now rewrite String.eqb_refl.
    + destruct (String.eqb_spec (r_id r) mid); [contradiction | exact IH].
Qed.

Lemma filter_Subseq {A : Type} (p : A -> bool) (t : list A) :
  Subseq (filter p t) t.
Proof.
  induction t as [|x t IH]; simpl.
  - constructor.
  - destruct (p x); now constructor.
Qed.

End StorageFacts.

(** ** [Storage.insert_message] *)

Section InsertMessage.

Import Storage.

Variable nd : node.

Lemma bindable_any_time (msg : message) (ts rcv : string) :
  bindable (row_of_message msg ts rcv) = bindable (row_of_message msg "" "").
Proof. reflexivity. Qed.

Lemma insert_message_absent (msg : message) (w : world) :
  message_in_range msg ->
  select_by_id (m_id msg) (messages w) = None ->
  insert_message nd msg w =
  (Returns true,
   mkWorld (messages w ++
            [row_of_message msg (clock nd (clock_reads w))
                            (clock nd (S (clock_reads w)))])
           (sent w) (S (S (clock_reads w))) (seen_online w) (upstream w)).
Proof.
  intros Hfit H. unfold insert_message, bind, now_iso, with_messages.
  cbn [messages sent clock_reads seen_online upstream].
  rewrite bindable_any_time, Hfit. cbn [negb]. now rewrite H.
Qed.

Lemma insert_message_present (msg : message) (w : world) (r : row) :
  message_in_range msg ->
  select_by_id (m_id msg) (messages w) = Some r ->
  insert_message nd msg w =
  (Returns false,
   mkWorld (messages w) (sent w) (S (S (clock_reads w))) (seen_online w)
           (upstream w)).
Proof.
  intros Hfit H. unfold insert_message, bind, now_iso, with_messages.
  cbn [messages sent clock_reads seen_online upstream].
  rewrite bindable_any_time, Hfit. cbn [negb]. now rewrite H.
Qed.

Lemma insert_message_overflow (msg : message) (w : world) :
  bindable (row_of_message msg "" "") = false ->
  insert_message nd msg w =
  (Raises OverflowError,
   mkWorld (messages w) (sent w) (S (S (clock_reads w))) (seen_online w)
           (upstream w)).
Proof.
  intros Hfit. unfold insert_message, bind, now_iso, with_messages.
  cbn [messages sent clock_reads seen_online upstream].
  rewrite bindable_any_time, Hfit. reflexivity.
Qed.

(** Whatever it gives, a call on an id that is in the table leaves the
    table and the sent packets alone. *)
Lemma insert_message_known_id (msg : message) (w : world) (r : row) :
  select_by_id (m_id msg) (messages w) = Some r ->
  snd (insert_message nd msg w) =
  mkWorld (messages w) (sent w) (S (S (clock_reads w))) (seen_online w)
          (upstream w) /\
  fst (insert_message nd msg w) <> Returns true.
Proof.
  intros H. destruct (bindable (row_of_message msg "" "")) eqn:E.
  - rewrite (insert_message_present msg w r E H). split; [reflexivity|].
    discriminate.
  - rewrite (insert_message_overflow msg w E). split; [reflexivity|].
    discriminate.
Qed.

Lemma insert_repeatedly_present (msg : message) (n : nat) (w : world)
      (r : row) :
  message_in_range msg ->
  select_by_id (m_id msg) (messages w) = Some r ->
  insert_repeatedly nd msg n w =
  (repeat (Returns false) n,
   mkWorld (messages w) (sent w) (n + n + clock_reads w) (seen_online w)
           (upstream w)).
Proof.
  intros Hfit. revert w. induction n as [|n IH]; intros w H; simpl.
  - now destruct w.
  - unfold bind. rewrite (insert_message_present msg w r Hfit H).
    rewrite IH by exact H. unfold ret. simpl.
    do 2 f_equal. lia.
Qed.

End InsertMessage.

(** C2, as amended.  For a dictionary whose integers fit SQLite's INTEGER,
    the first [insert_message] for an id returns [True] and appends one row
    whose [forwarded], [acknowledged] and [resend_count] are the values the
    dictionary carries under those keys, 0 for each key it does not carry
    (so all three are 0 for the dictionaries the relay engine and the
    [/send] command build); every later [insert_message] for that id, of
    the same or of another such dictionary, however often, returns [False]
    and leaves the table as it is.  For a dictionary with an integer out of
    range the call raises OverflowError and leaves the table as it is. *)
Theorem insert_message_first_then_duplicates
        (nd : node) (msg : message) (w : world) (n : nat) :
  message_in_range msg ->
  Storage.select_by_id (m_id msg) (messages w) = None ->
  let r := Storage.row_of_message msg (clock nd (clock_reads w))
                                  (clock nd (S (clock_reads w))) in
  let first := Storage.insert_message nd msg w in
  fst first = Returns true /\
  messages (snd first) = messages w ++ [r] /\
  Storage.select_by_id (m_id msg) (messages (snd first)) = Some r /\
  r_forwarded r = get (m_forwarded msg) 0 /\
  r_acknowledged r = get (m_acknowledged msg) 0 /\
  r_resend_count r = get (m_resend_count msg) 0 /\
  (m_forwarded msg = None -> m_acknowledged msg = None ->
   m_resend_count msg = None ->
   r_forwarded r = 0 /\ r_acknowledged r = 0 /\ r_resend_count r = 0) /\
  (forall (pkt : packet) (mid ts a b : string) (hops ttl : Z),
      let r' := Storage.row_of_message
                  (message_of_packet pkt mid ts hops ttl) a b in
      r_forwarded r' = 0 /\ r_acknowledged r' = 0 /\ r_resend_count r' = 0) /\
  (forall (pkt : packet) (uuid subtype dest_id text a b : string),
      let r' := Storage.row_of_message
                  (message_of_command nd pkt uuid subtype dest_id text) a b in
      r_forwarded r' = 0 /\ r_acknowledged r' = 0 /\ r_resend_count r' = 0) /\
  fst (insert_repeatedly nd msg (S n) w)
  = Returns true :: repeat (Returns false) n /\
  messages (snd (insert_repeatedly nd msg (S n) w)) = messages w ++ [r] /\
  (forall (msg' : message) (w' : world) (r' : row),
      m_id msg' = m_id msg ->
      message_in_range msg' ->
      Storage.select_by_id (m_id msg) (messages w') = Some r' ->
      fst (Storage.insert_message nd msg' w') = Returns false /\
      messages (snd (Storage.insert_message nd msg' w')) = messages w') /\
  (forall (msg' : message) (w' : world),
      ~ message_in_range msg' ->
      fst (Storage.insert_message nd msg' w') = Raises OverflowError /\
      messages (snd (Storage.insert_message nd msg' w')) = messages w').
Proof.
  intros Hfit Habsent r first.
  assert (Hsel : Storage.select_by_id (m_id msg) (messages w ++ [r]) = Some r).
  { rewrite select_by_id_app, Habsent. unfold Storage.select_by_id. simpl.
    now rewrite String.eqb_refl. }
  assert (Hmany : insert_repeatedly nd msg (S n) w =
                  (Returns true :: repeat (Returns false) n,
                   mkWorld (messages w ++ [r]) (sent w)
                           (n + n + S (S (clock_reads w))) (seen_online w)
                           (upstream w))).
  { simpl. unfold bind. rewrite (insert_message_absent nd msg w Hfit Habsent).
    fold r. erewrite insert_repeatedly_present by (exact Hfit || exact Hsel).
    reflexivity. }
  subst first. rewrite (insert_message_absent nd msg w Hfit Habsent), Hmany.
  simpl. fold r.
  split; [reflexivity|]. split; [reflexivity|]. split; [exact Hsel|].
  split; [reflexivity|]. split; [reflexivity|]. split; [reflexivity|].
  split.
  { intros Hf Ha Hc. unfold r. simpl. now rewrite Hf, Ha, Hc. }
  split; [intros; simpl; auto|]. split; [intros; simpl; auto|].
  split; [reflexivity|]. split; [reflexivity|]. split.
  - intros msg' w' r' Hid Hfit' Hsel'. rewrite <- Hid in Hsel'.
    now rewrite (insert_message_present nd msg' w' r' Hfit' Hsel').
  - intros msg' w' Hno.
    assert (E : Storage.bindable (Storage.row_of_message msg' "" "") = false).
    { unfold message_in_range in Hno.
      now destruct (Storage.bindable (Storage.row_of_message msg' "" "")). }
    now rewrite (insert_message_overflow nd msg' w' E).
Qed.

Lemma insert_message_first_then_duplicates_witness :
  let msg := local_message "m1" "A" "SOS" "help" 0 in
  let big := local_message "m2" "A" "SOS" "help" 9223372036854775808 in
  fst (insert_repeatedly nodeA msg 3 world0)
  = [Returns true; Returns false; Returns false] /\
  map r_forwarded (messages (snd (insert_repeatedly nodeA msg 3 world0)))
  = [0] /\
  fst (Storage.insert_message nodeA big world0) = Raises OverflowError /\
  messages (snd (Storage.insert_message nodeA big world0)) = [].
Proof.
  pose proof (insert_message_first_then_duplicates
                nodeA (local_message "m1" "A" "SOS" "help" 0) world0 2
                eq_refl eq_refl) as H.
  cbv zeta in H.
  destruct H as (_ & _ & _ & _ & _ & _ & _ & _ & _ & H1 & H2 & _ & H3).
  split; [exact H1|]. split; [exact (f_equal (map r_forwarded) H2)|].
  apply (H3 (local_message "m2" "A" "SOS" "help" 9223372036854775808) world0).
  intros Hfit. discriminate Hfit.
Defined.

(** C2 as stated fails: a dictionary that carries [forwarded = 1] is
    inserted with [forwarded = 1], not 0. *)
Lemma insert_message_flags_counterexample :
  let msg := local_message "m1" "A" "SOS" "help" 1 in
  let first := Storage.insert_message nodeA msg world0 in
  Storage.select_by_id "m1" (messages world0) = None /\
  fst first = Returns true /\
  map r_id (messages (snd first)) = ["m1"] /\
  map r_forwarded (messages (snd first)) = [1] /\
  ~ (forall r, In r (messages (snd first)) ->
               r_forwarded r = 0 /\ r_acknowledged r = 0
               /\ r_resend_count r = 0).
Proof.
  simpl. repeat split; try reflexivity.
  intros H. specialize (H _ (or_introl eq_refl)). simpl in H.
  destruct H as [H _]. discriminate H.
Qed.

(** ** The relay engine on DM_MSG *)

Section RelayEngine.

Variable nd : node.

Lemma addressed_here_passes (msg : packet) :
  addressed_here nd msg ->
  truthy (get (p_dest_id msg) "") && neq (get (p_dest_id msg) "") (node_id nd)
  = false.
Proof.
  unfold addressed_here, truthy, neq. intros [E|E]; rewrite E.
  - reflexivity.
  - rewrite String.eqb_refl. apply andb_false_r.
Qed.

Lemma truthy_true (s : string) : s <> "" -> truthy s = true.
Proof.
  intros H. unfold truthy.
  destruct (String.eqb_spec s ""); [contradiction | reflexivity].
Qed.

Lemma dm_msg_rejected (msg : packet) (w : world) :
  get (p_type msg) "" = "DM_MSG" ->
  get (p_dest_id msg) "" <> "" ->
  get (p_dest_id msg) "" <> node_id nd ->
  on_incoming_message nd msg w = (tt, w).
Proof.
  intros Ht Hne Hother. unfold on_incoming_message. rewrite Ht. simpl.
  rewrite (truthy_true _ Hne). unfold neq.
  destruct (String.eqb_spec (get (p_dest_id msg) "") (node_id nd));
    [contradiction | reflexivity].
Qed.

Lemma packet_in_range (msg : packet) (mid ts : string) :
  in_range msg ->
  message_in_range
    (message_of_packet msg mid ts (get (p_hops msg) 0)
                       (get (p_ttl msg) MESSAGE_TTL)).
Proof.
  intros [H1 H2]. unfold message_in_range, Storage.bindable.
  cbn [Storage.row_of_message message_of_packet r_hops r_ttl r_forwarded
       r_acknowledged r_resend_count m_hops m_ttl m_forwarded m_acknowledged
       m_resend_count get].
  now rewrite H1, H2.
Qed.

Lemma packet_out_of_range (msg : packet) (mid ts : string) :
  ~ in_range msg ->
  Storage.bindable
    (Storage.row_of_message
       (message_of_packet msg mid ts (get (p_hops msg) 0)
                          (get (p_ttl msg) MESSAGE_TTL)) "" "") = false.
Proof.
  intros Hno. unfold in_range in Hno. unfold Storage.bindable.
  cbn [Storage.row_of_message message_of_packet r_hops r_ttl r_forwarded
       r_acknowledged r_resend_count m_hops m_ttl m_forwarded m_acknowledged
       m_resend_count get].
  destruct (fits_integer (get (p_hops msg) 0));
    destruct (fits_integer (get (p_ttl msg) MESSAGE_TTL));
    try reflexivity.
  exfalso. apply Hno. auto.
Qed.

Lemma in_range_dec (msg : packet) : {in_range msg} + {~ in_range msg}.
Proof.
  unfold in_range.
  destruct (fits_integer (get (p_hops msg) 0));
    destruct (fits_integer (get (p_ttl msg) MESSAGE_TTL));
    try (left; split; reflexivity);
    right; intros [H1 H2]; discriminate.
Qed.

(** A DM_MSG that passes the two guards, up to the INSERT. *)
Lemma dm_msg_to_insert (msg : packet) (w : world) (mid : string) :
  get (p_type msg) "" = "DM_MSG" ->
  addressed_here nd msg ->
  p_id msg = Some mid ->
  mid <> "" ->
  on_incoming_message nd msg w =
  (inserted <- Storage.insert_message nd
                 (message_of_packet msg mid (clock nd (clock_reads w))
                    (get (p_hops msg) 0) (get (p_ttl msg) MESSAGE_TTL)) ;;
   match inserted with
   | Returns true =>
       ack_ts <- now_iso nd ;;
       send_packet (ack_packet nd mid ack_ts) ;;
       if get (p_hops msg) 0 <? get (p_ttl msg) MESSAGE_TTL
       then send_packet (set_hops msg (get (p_hops msg) 0 + 1))
       else ret tt
   | Returns false => ret tt
   | Raises _ => ret tt
   end)
    (mkWorld (messages w) (sent w) (S (clock_reads w)) (seen_online w)
             (upstream w)).
Proof.
  intros Ht Hdest Hid Hmid. unfold on_incoming_message.
  rewrite Ht. simpl. rewrite (addressed_here_passes msg Hdest), Hid.
  rewrite (truthy_true mid Hmid). reflexivity.
Qed.

Lemma dm_msg_duplicate (msg : packet) (w : world) (mid : string) (r : row) :
  get (p_type msg) "" = "DM_MSG" ->
  addressed_here nd msg ->
  p_id msg = Some mid ->
  mid <> "" ->
  Storage.select_by_id mid (messages w) = Some r ->
  on_incoming_message nd msg w =
  (tt, mkWorld (messages w) (sent w) (3 + clock_reads w) (seen_online w)
               (upstream w)).
Proof.
  intros Ht Hdest Hid Hmid Hsel.
  rewrite (dm_msg_to_insert msg w mid Ht Hdest Hid Hmid). unfold bind.
  destruct (in_range_dec msg) as [Hfit|Hfit].
  - erewrite insert_message_present
      by (try apply packet_in_range; try exact Hfit; simpl; exact Hsel).
    reflexivity.
  - rewrite insert_message_overflow by (now apply packet_out_of_range).
    reflexivity.
Qed.

(** A DM_MSG whose [hops] or [ttl] cannot be bound: the INSERT raises, and
    the call ends after three clock reads with nothing stored or sent. *)
Lemma dm_msg_overflow (msg : packet) (w : world) (mid : string) :
  get (p_type msg) "" = "DM_MSG" ->
  addressed_here nd msg ->
  p_id msg = Some mid ->
  mid <> "" ->
  ~ in_range msg ->
  on_incoming_message nd msg w =
  (tt, mkWorld (messages w) (sent w) (3 + clock_reads w) (seen_online w)
               (upstream w)).
Proof.
  intros Ht Hdest Hid Hmid Hfit.
  rewrite (dm_msg_to_insert msg w mid Ht Hdest Hid Hmid). unfold bind.
  rewrite insert_message_overflow by (now apply packet_out_of_range).
  reflexivity.
Qed.

Lemma dm_msg_admitted (msg : packet) (w : world) (mid : string) :
  get (p_type msg) "" = "DM_MSG" ->
  addressed_here nd msg ->
  p_id msg = Some mid ->
  mid <> "" ->
  Storage.select_by_id mid (messages w) = None ->
  in_range msg ->
  on_incoming_message nd msg w =
  (tt,
   mkWorld (messages w ++ [admitted_row nd msg mid w])
           (sent w ++
            ack_packet nd mid (clock nd (3 + clock_reads w)) ::
            (if get (p_hops msg) 0 <? get (p_ttl msg) MESSAGE_TTL
             then [set_hops msg (get (p_hops msg) 0 + 1)]
             else []))
           (4 + clock_reads w) (seen_online w) (upstream w)).
Proof.
  intros Ht Hdest Hid Hmid Hsel Hfit.
  rewrite (dm_msg_to_insert msg w mid Ht Hdest Hid Hmid). unfold bind at 1.
  erewrite insert_message_absent
    by (try apply packet_in_range; try exact Hfit; simpl; exact Hsel).
  unfold bind, now_iso, send_packet, ret, admitted_row. simpl.
  destruct (get (p_hops msg) 0 <? get (p_ttl msg) MESSAGE_TTL); simpl.
  - now rewrite <- app_assoc.
  - reflexivity.
Qed.

Lemma dm_msg_known_id (msg : packet) (w : world) (mid : string) (r : row) :
  get (p_type msg) "" = "DM_MSG" ->
  p_id msg = Some mid ->
  Storage.select_by_id mid (messages w) = Some r ->
  exists n : nat,
    on_incoming_message nd msg w =
    (tt, mkWorld (messages w) (sent w) (n + clock_reads w) (seen_online w)
                 (upstream w)).
Proof.
  intros Ht Hid Hsel.
  destruct (String.eqb_spec (get (p_dest_id msg) "") "") as [Hd|Hd].
  2: destruct (String.eqb_spec (get (p_dest_id msg) "") (node_id nd))
      as [Hd'|Hd'].
  3: { exists O. rewrite (dm_msg_rejected msg w Ht Hd Hd').
       now destruct w. }
  all: assert (Hdest : addressed_here nd msg)
    by (unfold addressed_here; tauto).
  all: destruct (String.eqb_spec mid "") as [Hm|Hm];
    [exists O; subst mid; unfold on_incoming_message; rewrite Ht; simpl;
     rewrite (addressed_here_passes msg Hdest), Hid; simpl; now destruct w|].
  all: exists 3%nat;
    exact (dm_msg_duplicate msg w mid r Ht Hdest Hid Hm Hsel).
Qed.

End RelayEngine.

(** C1, as amended.  A DM_MSG whose [dest_id] is non-empty and is not the
    receiving node's id is ignored entirely: nothing is stored, no
    acknowledgement and no relay is emitted, and the world of the node is
    left as it was. *)
Theorem dm_msg_for_another_node_is_ignored
        (nd : node) (msg : packet) (w : world) :
  get (p_type msg) "" = "DM_MSG" ->
  get (p_dest_id msg) "" <> "" ->
  get (p_dest_id msg) "" <> node_id nd ->
  let w' := exec (on_incoming_message nd msg) w in
  w' = w /\ messages w' = messages w /\ emitted w w' [].
Proof.
  intros Ht Hne Hother w'. subst w'. unfold exec, emitted.
  rewrite (dm_msg_rejected nd msg w Ht Hne Hother). simpl.
  now rewrite app_nil_r.
Qed.

Lemma dm_msg_for_another_node_is_ignored_witness :
  exec (on_incoming_message nodeB (dm_msg "m1" "A" "C" "SOS" "help" 0 6))
       world0 = world0.
Proof.
  apply (dm_msg_for_another_node_is_ignored
           nodeB (dm_msg "m1" "A" "C" "SOS" "help" 0 6) world0).
  - reflexivity.
  - discriminate.
  - discriminate.
Defined.

(** C1 as stated fails: node B receives a DM_MSG addressed to C with
    [hops = 0 < ttl = 6] and emits nothing, so it does not relay it. *)
Lemma dm_msg_for_another_node_counterexample :
  let msg := dm_msg "m1" "A" "C" "SOS" "help" 0 6 in
  let w' := exec (on_incoming_message nodeB msg) world0 in
  get (p_type msg) "" = "DM_MSG" /\
  get (p_dest_id msg) "" <> "" /\
  get (p_dest_id msg) "" <> node_id nodeB /\
  get (p_hops msg) 0 < get (p_ttl msg) MESSAGE_TTL /\
  sent w' = [] /\
  ~ In (set_hops msg (get (p_hops msg) 0 + 1)) (sent w').
Proof.
  simpl. repeat split; try discriminate; try reflexivity.
  intros H. exact H.
Qed.

(** C3.  A DM_MSG whose id is already in the store changes neither the
    table (the stored record, its [hops] included, stays as it is) nor the
    packets sent: no second acknowledgement and no second relay. *)
Theorem duplicate_dm_msg_changes_nothing
        (nd : node) (msg : packet) (w : world) (mid : string) (r : row) :
  get (p_type msg) "" = "DM_MSG" ->
  p_id msg = Some mid ->
  Storage.select_by_id mid (messages w) = Some r ->
  let w' := exec (on_incoming_message nd msg) w in
  messages w' = messages w /\
  Storage.select_by_id mid (messages w') = Some r /\
  emitted w w' [].
Proof.
  intros Ht Hid Hsel w'. subst w'. unfold exec, emitted.
  destruct (dm_msg_known_id nd msg w mid r Ht Hid Hsel) as [n ->]. simpl.
  now rewrite app_nil_r.
Qed.

Lemma duplicate_dm_msg_changes_nothing_witness :
  let msg := dm_msg "m1" "A" "" "SOS" "help" 0 6 in
  let w1 := exec (on_incoming_message nodeB msg) world0 in
  let w2 := exec (on_incoming_message nodeB msg) w1 in
  map r_id (messages w1) = ["m1"] /\ length (sent w1) = 2%nat /\
  messages w2 = messages w1 /\ emitted w1 w2 [].
Proof.
  intros msg w1 w2.
  split; [reflexivity|]. split; [reflexivity|].
  destruct (duplicate_dm_msg_changes_nothing
              nodeB msg w1 "m1" (admitted_row nodeB msg "m1" world0)
              eq_refl eq_refl eq_refl) as (H1 & _ & H2).
  split; [exact H1 | exact H2].
Defined.

(** C4.  A DM_MSG admitted for the first time (first seen, with [hops] and
    [ttl] the store can hold) that arrives with [hops >= ttl] is stored and
    acknowledged, and is not re-emitted: the table gains its row, and the
    only packet sent is a DM_ACK whose [orig_msg_id] is the message's id and
    whose [from_node] is this node; no DM_MSG is sent. *)
Theorem expired_dm_msg_stored_acked_not_relayed
        (nd : node) (msg : packet) (w : world) (mid : string) :
  first_seen nd msg w mid ->
  in_range msg ->
  get (p_ttl msg) MESSAGE_TTL <= get (p_hops msg) 0 ->
  let w' := exec (on_incoming_message nd msg) w in
  let r := admitted_row nd msg mid w in
  messages w' = messages w ++ [r] /\
  Storage.select_by_id mid (messages w') = Some r /\
  r_id r = mid /\
  r_hops r = get (p_hops msg) 0 /\
  r_ttl r = get (p_ttl msg) MESSAGE_TTL /\
  (exists ack : packet,
      emitted w w' [ack] /\
      p_type ack = Some "DM_ACK" /\
      p_orig_msg_id ack = Some mid /\
      p_from_node ack = Some (node_id nd) /\
      p_timestamp ack = Some (clock nd (3 + clock_reads w)) /\
      is_ack_for mid ack = true /\ is_msg_for mid ack = false) /\
  (forall p, In p (sent w') -> p_type p = Some "DM_MSG" -> In p (sent w)).
Proof.
  intros (Ht & Hdest & Hid & Hmid & Hsel) Hfit Hexp w' r. subst w'.
  unfold exec, emitted.
  rewrite (dm_msg_admitted nd msg w mid Ht Hdest Hid Hmid Hsel Hfit).
  assert (E : (get (p_hops msg) 0 <? get (p_ttl msg) MESSAGE_TTL) = false)
    by (apply Z.ltb_ge; exact Hexp).
  rewrite E. cbn [snd messages sent]. fold r.
  split; [reflexivity|]. split.
  { rewrite select_by_id_app, Hsel. unfold Storage.select_by_id. simpl.
    now rewrite String.eqb_refl. }
  split; [reflexivity|]. split; [reflexivity|]. split; [reflexivity|].
  split.
  - exists (ack_packet nd mid (clock nd (3 + clock_reads w))).
    split; [reflexivity|]. split; [reflexivity|]. split; [reflexivity|].
    split; [reflexivity|]. split; [reflexivity|].
    unfold is_ack_for, is_msg_for. simpl. rewrite String.eqb_refl. auto.
  - intros p Hin Hp. apply in_app_or in Hin. destruct Hin as [Hin|[<-|[]]].
    + exact Hin.
    + discriminate Hp.
Qed.

Lemma expired_dm_msg_stored_acked_not_relayed_witness :
  let msg := dm_msg "m1" "A" "" "SOS" "help" 6 6 in
  let w' := exec (on_incoming_message nodeB msg) world0 in
  map r_id (messages w') = ["m1"] /\
  map p_type (sent w') = [Some "DM_ACK"] /\
  map p_orig_msg_id (sent w') = [Some "m1"] /\
  map p_from_node (sent w') = [Some "B"].
Proof.
  intros msg w'.
  destruct (expired_dm_msg_stored_acked_not_relayed nodeB msg world0 "m1")
    as (H1 & _ & _ & _ & _ & (ack & He & Hty & Ho & Hf & _) & _).
  - split; [reflexivity|]. split; [left; reflexivity|].
    split; [reflexivity|]. split; [discriminate | reflexivity].
  - split; reflexivity.
  - simpl. lia.
  - unfold emitted in He. fold w' in H1, He.
    split; [exact (f_equal (map r_id) H1)|].
    rewrite He. simpl. rewrite Hty, Ho, Hf. auto.
Defined.

(** C5.  When a DM_MSG is admitted for the first time (first seen, with
    [hops] and [ttl] the store can hold) and arrives with [hops < ttl], the
    packet re-emitted after the acknowledgement is the incoming packet with
    [hops] set to the incoming hops plus 1, every other key as it came. *)
Theorem relayed_dm_msg_only_hops_incremented
        (nd : node) (msg : packet) (w : world) (mid : string) :
  first_seen nd msg w mid ->
  in_range msg ->
  get (p_hops msg) 0 < get (p_ttl msg) MESSAGE_TTL ->
  let w' := exec (on_incoming_message nd msg) w in
  exists ack out : packet,
    emitted w w' [ack; out] /\
    p_type ack = Some "DM_ACK" /\
    p_orig_msg_id ack = Some mid /\
    p_from_node ack = Some (node_id nd) /\
    out = set_hops msg (get (p_hops msg) 0 + 1) /\
    p_hops out = Some (get (p_hops msg) 0 + 1) /\
    same_but_hops msg out /\
    relayed_copy nd msg w = Some out.
Proof.
  intros (Ht & Hdest & Hid & Hmid & Hsel) Hfit Hlt w'.
  assert (E : (get (p_hops msg) 0 <? get (p_ttl msg) MESSAGE_TTL) = true)
    by (apply Z.ltb_lt; exact Hlt).
  pose proof (dm_msg_admitted nd msg w mid Ht Hdest Hid Hmid Hsel Hfit) as Eq.
  rewrite E in Eq.
  exists (ack_packet nd mid (clock nd (3 + clock_reads w))).
  exists (set_hops msg (get (p_hops msg) 0 + 1)).
  split; [subst w'; unfold exec, emitted; now rewrite Eq|].
  split; [reflexivity|]. split; [reflexivity|]. split; [reflexivity|].
  split; [reflexivity|]. split; [reflexivity|]. split.
  - unfold same_but_hops. simpl. repeat split; reflexivity.
  - unfold relayed_copy, emissions, exec. rewrite Eq. cbn [snd sent].
    assert (Hs : forall (l l' : list packet), skipn (length l) (l ++ l') = l')
      by (intros l l'; induction l as [|x l IH]; simpl; auto).
    now rewrite Hs.
Qed.

Lemma relayed_dm_msg_only_hops_incremented_witness :
  let msg := dm_msg "m1" "A" "" "SOS" "help" 2 6 in
  let w' := exec (on_incoming_message nodeB msg) world0 in
  exists out, nth_error (sent w') 1 = Some out /\
              p_hops out = Some 3 /\ same_but_hops msg out.
Proof.
  intros msg w'.
  destruct (relayed_dm_msg_only_hops_incremented nodeB msg world0 "m1")
    as (ack & out & H1 & _ & _ & _ & _ & H2 & H3 & _).
  - split; [reflexivity|]. split; [left; reflexivity|].
    split; [reflexivity|]. split; [discriminate | reflexivity].
  - split; reflexivity.
  - simpl. lia.
  - exists out. unfold emitted in H1. fold w' in H1. rewrite H1.
    split; [reflexivity | split; [exact H2 | exact H3]].
Defined.

(** C10, as amended.  A DM_MSG admitted for the first time (it passes the
    destination test, carries a non-empty id that is not in the store, and
    its [hops] and [ttl] can be stored) that carries no [subtype] is stored
    with type "SOS", and with [ttl] 6 when it carries no [ttl]; its row is
    returned by [get_pending_messages], and by [get_unacknowledged_sos]
    exactly when its [ttl] is positive, as it is when the packet carries
    none. *)
Theorem dm_msg_without_subtype_is_stored_as_sos
        (nd : node) (msg : packet) (w : world) (mid : string) :
  first_seen nd msg w mid ->
  in_range msg ->
  p_subtype msg = None ->
  let w' := exec (on_incoming_message nd msg) w in
  let r := admitted_row nd msg mid w in
  Storage.select_by_id mid (messages w') = Some r /\
  r_type r = "SOS" /\
  r_ttl r = get (p_ttl msg) MESSAGE_TTL /\
  (p_ttl msg = None -> r_ttl r = 6) /\
  In r (fst (Storage.get_pending_messages w')) /\
  (In r (fst (Storage.get_unacknowledged_sos w')) <-> 0 < r_ttl r) /\
  (p_ttl msg = None -> In r (fst (Storage.get_unacknowledged_sos w'))).
Proof.
  intros (Ht & Hdest & Hid & Hmid & Hsel) Hfit Hsub w' r. subst w'.
  unfold exec.
  rewrite (dm_msg_admitted nd msg w mid Ht Hdest Hid Hmid Hsel Hfit). simpl.
  fold r.
  assert (Hty : r_type r = "SOS") by (unfold r; simpl; now rewrite Hsub).
  assert (Hin : In r (messages w ++ [r])) by (apply in_or_app; right; now left).
  assert (Hiff : In r (filter Storage.is_unacknowledged_sos (messages w ++ [r]))
                 <-> 0 < r_ttl r).
  { rewrite filter_In. unfold Storage.is_unacknowledged_sos.
    rewrite Hty. simpl (r_acknowledged r). simpl (_ =? _)%string.
    simpl (0 =? 0). simpl andb. rewrite Z.ltb_lt. tauto. }
  repeat split.
  - rewrite select_by_id_app, Hsel. unfold Storage.select_by_id. simpl.
    now rewrite String.eqb_refl.
  - exact Hty.
  - intros ->. reflexivity.
  - apply filter_In. split; [exact Hin | reflexivity].
  - apply Hiff.
  - apply Hiff.
  - intros Hnone. apply Hiff. unfold r. simpl. rewrite Hnone. reflexivity.
Qed.

Lemma dm_msg_without_subtype_is_stored_as_sos_witness :
  let w' := exec (on_incoming_message nodeA (bare_msg "m9")) world0 in
  let r := admitted_row nodeA (bare_msg "m9") "m9" world0 in
  Storage.select_by_id "m9" (messages w') = Some r /\
  r_type r = "SOS" /\
  r_ttl r = 6 /\
  In r (fst (Storage.get_unacknowledged_sos w')).
Proof.
  intros w' r.
  destruct (dm_msg_without_subtype_is_stored_as_sos
              nodeA (bare_msg "m9") world0 "m9")
    as (H1 & H2 & _ & H4 & _ & _ & H7).
  - split; [reflexivity|]. split; [left; reflexivity|].
    split; [reflexivity|]. split; [discriminate | reflexivity].
  - split; reflexivity.
  - reflexivity.
  - split; [exact H1|]. split; [exact H2|].
    split; [exact (H4 eq_refl) | exact (H7 eq_refl)].
Defined.

(** C10 as stated fails.  Each of these packets carries the id "m9" and no
    [subtype]: the one addressed to node B is not stored by node A; the one
    whose id node A already holds as an ALERT leaves that record an ALERT;
    the one with [hops] beyond the INTEGER range is not stored; the one
    with [ttl = 0] is stored as SOS and is not returned by
    [get_unacknowledged_sos]. *)
Lemma dm_msg_without_subtype_counterexample :
  let pkt := fun (dest : option string) (hops ttl : option Z) =>
               mkPacket (Some "DM_MSG") (Some "m9") (Some "C") None dest None
                        (Some "help") None hops ttl None None None None in
  let held := mkRow "m9" "C" "C" "" "ALERT" "flood" "t" "t" 0 6 0 0 0 in
  let after := fun (p : packet) (w : world) =>
                 exec (on_incoming_message nodeA p) w in
  messages (after (pkt (Some "B") None None) world0) = [] /\
  map r_type (messages (after (pkt None None None) (world_of [held])))
  = ["ALERT"] /\
  messages (after (pkt None (Some 9223372036854775808) None) world0) = [] /\
  map r_type (messages (after (pkt None None (Some 0)) world0)) = ["SOS"] /\
  fst (Storage.get_unacknowledged_sos
         (after (pkt None None (Some 0)) world0)) = [].
Proof.
  simpl. repeat split; reflexivity.
Qed.

(** ** The relay engine on DM_ACK *)

Lemma dm_ack_marks (nd : node) (msg : packet) (w : world) (mid : string) :
  get (p_type msg) "" = "DM_ACK" ->
  p_orig_msg_id msg = Some mid ->
  mid <> "" ->
  on_incoming_message nd msg w =
  (tt, with_messages
         (Storage.update_where_id mid (set_acknowledged 1) (messages w)) w).
Proof.
  intros Ht Hid Hmid. unfold on_incoming_message. rewrite Ht. simpl.
  rewrite Hid, (truthy_true mid Hmid). simpl.
  unfold bind, Storage.get_message.
  destruct (Storage.select_by_id mid (messages w)) eqn:E.
  - reflexivity.
  - unfold ret. rewrite (update_where_id_absent _ _ _ E).
    unfold with_messages. now destruct w.
Qed.

(** C6, as amended.  A DM_ACK that names an id present in the store sets
    [acknowledged] to 1 on that record at whichever node receives it,
    whatever the record's [origin_id]; it emits nothing and leaves the
    records of other ids, and a store without that id, as they were. *)
Theorem dm_ack_marks_stored_message_at_any_node
        (nd : node) (msg : packet) (w : world) (mid : string) :
  get (p_type msg) "" = "DM_ACK" ->
  p_orig_msg_id msg = Some mid ->
  mid <> "" ->
  let w' := exec (on_incoming_message nd msg) w in
  (forall r, Storage.select_by_id mid (messages w) = Some r ->
             Storage.select_by_id mid (messages w')
             = Some (set_acknowledged 1 r)) /\
  (forall r, In r (messages w) -> r_id r <> mid -> In r (messages w')) /\
  (Storage.select_by_id mid (messages w) = None ->
   messages w' = messages w) /\
  emitted w w' [].
Proof.
  intros Ht Hid Hmid w'. subst w'. unfold exec, emitted.
  rewrite (dm_ack_marks nd msg w mid Ht Hid Hmid). simpl.
  repeat split.
  - intros r Hr. rewrite select_update_where_id by reflexivity.
    now rewrite Hr.
  - intros r Hin Hne. now apply update_where_id_other.
  - intros Hnone. now apply update_where_id_absent.
  - now rewrite app_nil_r.
Qed.

Lemma dm_ack_marks_stored_message_at_any_node_witness :
  let w := world_of [sos_row "m1" "A" 0 0] in
  let ack := ack_packet nodeC "m1" "2025-01-01T00:00:09+00:00" in
  Storage.select_by_id "m1" (messages (exec (on_incoming_message nodeB ack) w))
  = Some (sos_row "m1" "A" 1 0).
Proof.
  intros w ack.
  destruct (dm_ack_marks_stored_message_at_any_node nodeB ack w "m1")
    as (H & _).
  - reflexivity.
  - reflexivity.
  - discriminate.
  - apply (H (sos_row "m1" "A" 0 0)). reflexivity.
Defined.

(** C6 as stated fails: node B stores a message that node A originated, and
    a DM_ACK for its id sets [acknowledged] to 1 at node B. *)
Lemma dm_ack_at_relay_node_counterexample :
  let stored := sos_row "m1" "A" 0 0 in
  let w := world_of [stored] in
  let ack := ack_packet nodeC "m1" "2025-01-01T00:00:09+00:00" in
  let w' := exec (on_incoming_message nodeB ack) w in
  r_origin_id stored <> node_id nodeB /\
  r_acknowledged stored = 0 /\
  map r_id (messages w') = ["m1"] /\
  map r_origin_id (messages w') = ["A"] /\
  map r_acknowledged (messages w') = [1].
Proof.
  simpl. repeat split; try reflexivity. discriminate.
Qed.

(** ** The SOS resender *)

Section Resender.

Variable nd : node.

Lemma resendable_true (r : row) :
  resendable nd r = true <->
  r_origin_id r = node_id nd /\ r_resend_count r < MAX_SOS_RESENDS.
Proof.
  unfold resendable, neq. rewrite andb_true_iff, !negb_true_iff.
  rewrite negb_false_iff, String.eqb_eq, Z.leb_gt. tauto.
Qed.

Lemma resendable_false (r : row) :
  resendable nd r = false <->
  r_origin_id r <> node_id nd \/ MAX_SOS_RESENDS <= r_resend_count r.
Proof.
  unfold resendable, neq. rewrite andb_false_iff, !negb_false_iff.
  rewrite negb_true_iff, String.eqb_neq, Z.leb_le. tauto.
Qed.

Lemma for_each_resend_row (rows : list row) (w : world) :
  for_each rows (resend_row nd) w =
  (tt, mkWorld (bump_all (filter (resendable nd) rows) (messages w))
               (sent w ++ map resend_packet (filter (resendable nd) rows))
               (clock_reads w) (seen_online w) (upstream w)).
Proof.
  revert w. induction rows as [|r rows IH]; intros w; simpl.
  - unfold ret, bump_all. simpl. rewrite app_nil_r. now destruct w.
  - unfold bind at 1. unfold resend_row, resendable.
    destruct (neq (r_origin_id r) (node_id nd)); simpl.
    + apply IH.
    + destruct (MAX_SOS_RESENDS <=? r_resend_count r); simpl.
      * apply IH.
      * unfold bind at 1. unfold send_packet, Storage.increment_resend.
        simpl. rewrite IH. simpl. unfold bump_all. simpl.
        now rewrite <- app_assoc.
Qed.

Lemma sos_resender_cycle_world (w : world) :
  sos_resender_cycle nd w =
  (tt,
   let rs := filter (resendable nd)
                    (filter Storage.is_unacknowledged_sos (messages w)) in
   mkWorld (bump_all rs (messages w)) (sent w ++ map resend_packet rs)
           (clock_reads w) (seen_online w) (upstream w)).
Proof.
  unfold sos_resender_cycle, bind, Storage.get_unacknowledged_sos.
  apply for_each_resend_row.
Qed.

Lemma bump_all_ids (rs t : list row) :
  map r_id (bump_all rs t) = map r_id t.
Proof.
  unfold bump_all. revert t. induction rs as [|x rs IH]; intros t; simpl.
  - reflexivity.
  - rewrite IH. now apply update_where_id_ids.
Qed.

Lemma bump_all_keeps (rs t : list row) (r : row) :
  In r t ->
  (forall x, In x rs -> r_id x <> r_id r) ->
  In r (bump_all rs t).
Proof.
  unfold bump_all. revert t. induction rs as [|x rs IH]; intros t Hin Hne;
    simpl.
  - exact Hin.
  - apply IH.
    + apply update_where_id_other; [|exact Hin].
      intros E. apply (Hne x); [now left | now symmetry].
    + intros y Hy. apply Hne. now right.
Qed.

(** What one pass does, for a table that satisfies the key constraint. *)
Lemma sos_resender_cycle_spec (w : world) :
  ids_unique (messages w) ->
  let w' := exec (sos_resender_cycle nd) w in
  exists new : list packet,
    emitted w w' new /\
    map r_id (messages w') = map r_id (messages w) /\
    (forall p, In p new ->
               exists r, In r (messages w) /\ p = resend_packet r
                         /\ resendable nd r = true) /\
    (forall r, In r (messages w) -> resendable nd r = false ->
               In r (messages w')).
Proof.
  intros Hu w'. subst w'. unfold exec, emitted.
  rewrite sos_resender_cycle_world. simpl.
  eexists. split; [reflexivity|]. split; [apply bump_all_ids|]. split.
  - intros p Hp. apply in_map_iff in Hp. destruct Hp as (r & <- & Hr).
    apply filter_In in Hr. destruct Hr as [Hr Hres].
    apply filter_In in Hr. destruct Hr as [Hr _].
    exists r. auto.
  - intros r Hr Hres. apply bump_all_keeps; [exact Hr|].
    intros x Hx E. apply filter_In in Hx. destruct Hx as [Hx Hxres].
    apply filter_In in Hx. destruct Hx as [Hx _].
    rewrite (same_id_same_row _ x r Hu Hx Hr E) in Hxres. congruence.
Qed.

Lemma sos_resender_cycles_spec (n : nat) (w : world) :
  ids_unique (messages w) ->
  let w' := exec (sos_resender_cycles nd n) w in
  exists new : list packet,
    emitted w w' new /\
    map r_id (messages w') = map r_id (messages w) /\
    (forall p, In p new ->
               exists r, In r (messages w) /\ p_id p = Some (r_id r)
                         /\ resendable nd r = true) /\
    (forall r, In r (messages w) -> resendable nd r = false ->
               In r (messages w')).
Proof.
  revert w. induction n as [|n IH]; intros w Hu; simpl.
  - exists []. unfold exec, emitted. simpl. rewrite app_nil_r.
    repeat split; auto. intros p [].
  - unfold exec, bind.
    destruct (sos_resender_cycle_spec w Hu) as (new1 & He1 & Hids1 & Hp1 & Hk1).
    unfold exec in He1, Hids1, Hk1.
    destruct (sos_resender_cycle nd w) as [[] w1]. simpl in He1, Hids1, Hk1.
    assert (Hu1 : ids_unique (messages w1))
      by (unfold ids_unique; rewrite Hids1; exact Hu).
    destruct (IH w1 Hu1) as (new2 & He2 & Hids2 & Hp2 & Hk2).
    unfold exec in He2, Hids2, Hk2.
    exists (new1 ++ new2). unfold emitted in *. repeat split.
    + rewrite He2, He1. now rewrite app_assoc.
    + now rewrite Hids2.
    + intros p Hp. apply in_app_or in Hp. destruct Hp as [Hp|Hp].
      * destruct (Hp1 p Hp) as (r & Hr & -> & Hres). exists r. auto.
      * destruct (Hp2 p Hp) as (r1 & Hr1 & Hid & Hres1).
        assert (Hex : In (r_id r1) (map r_id (messages w)))
          by (rewrite <- Hids1; now apply in_map).
        apply in_map_iff in Hex. destruct Hex as (r & E & Hr).
        exists r. split; [exact Hr|]. split; [now rewrite E|].
        destruct (resendable nd r) eqn:Hres; [reflexivity|].
        pose proof (Hk1 r Hr Hres) as Hr'.
        rewrite (same_id_same_row _ r r1 Hu1 Hr' Hr1 E) in Hres. congruence.
    + intros r Hr Hres. apply Hk2; [|exact Hres]. now apply Hk1.
Qed.

End Resender.

(** ** The signal notifier *)

Section Notifier.

Import Storage.

Lemma for_each_forward_row (rows : list row) (w : world) :
  for_each rows forward_row w =
  (tt, mkWorld (mark_all rows (messages w)) (sent w) (clock_reads w)
               (seen_online w) (upstream w ++ map forwarding_line rows)).
Proof.
  revert w. induction rows as [|r rows IH]; intros w; simpl.
  - unfold ret, mark_all. simpl. rewrite app_nil_r. now destruct w.
  - unfold bind at 1. unfold forward_row, bind, print_line, mark_forwarded.
    simpl. rewrite IH. simpl. unfold mark_all. simpl.
    now rewrite <- app_assoc.
Qed.

Lemma notifier_step_edge (w : world) :
  seen_online w = false ->
  notifier_step true w =
  (tt,
   let pending := filter is_pending (messages w) in
   mkWorld (mark_all pending (messages w)) (sent w) (clock_reads w) true
           (upstream w ++ Connectivity_detected
                          :: map forwarding_line pending)).
Proof.
  intros H. unfold notifier_step. rewrite H. simpl.
  unfold bind at 1. unfold print_line at 1.
  unfold bind at 1. unfold get_pending_messages at 1. simpl.
  unfold bind. rewrite for_each_forward_row. simpl.
  unfold set_seen_online. simpl. now rewrite <- app_assoc.
Qed.

Lemma notifier_step_still_online (w : world) :
  seen_online w = true -> notifier_step true w = (tt, w).
Proof. intros H. unfold notifier_step. now rewrite H. Qed.

Lemma notifier_step_offline (w : world) :
  notifier_step false w =
  (tt, mkWorld (messages w) (sent w) (clock_reads w) false (upstream w)).
Proof. reflexivity. Qed.

Lemma batches_app (l l' : list log_line) :
  batches (l ++ l') = (batches l + batches l')%nat.
Proof.
  induction l as [|x l IH]; simpl; [reflexivity|].
  destruct x; simpl; now rewrite IH.
Qed.

Lemma batches_forwarding (rows : list row) :
  batches (map forwarding_line rows) = O.
Proof. induction rows as [|r rows IH]; simpl; auto. Qed.

Lemma notifier_step_summary (online : bool) (w : world) :
  seen_online (exec (notifier_step online) w) = online /\
  batches (upstream (exec (notifier_step online) w)) =
  (batches (upstream w)
   + (if online && negb (seen_online w) then 1 else 0))%nat.
Proof.
  unfold exec. destruct online.
  - destruct (seen_online w) eqn:E.
    + rewrite (notifier_step_still_online w E). simpl. rewrite E. auto.
    + rewrite (notifier_step_edge w E). simpl.
      rewrite batches_app. simpl. rewrite batches_forwarding. auto.
  - rewrite notifier_step_offline. simpl. auto.
Qed.

Lemma mark_all_map (rs t : list row) :
  mark_all rs t =
  map (fun r => if existsb (fun x => (r_id x =? r_id r)%string) rs
                then set_forwarded 1 r else r) t.
Proof.
  unfold mark_all. revert t. induction rs as [|x rs IH]; intros t; simpl.
  - symmetry. apply map_id.
  - rewrite IH. unfold update_where_id. rewrite map_map.
    apply map_ext. intros r. rewrite (String.eqb_sym (r_id x) (r_id r)).
    destruct (r_id r =? r_id x)%string; simpl; [|reflexivity].
    now destruct (existsb _ rs).
Qed.

Lemma mark_all_marks (rs t : list row) (r : row) :
  In r t -> In r rs -> In (set_forwarded 1 r) (mark_all rs t).
Proof.
  intros Ht Hrs. rewrite mark_all_map. apply in_map_iff. exists r.
  split; [|exact Ht].
  assert (E : existsb (fun x => (r_id x =? r_id r)%string) rs = true).
  { apply existsb_exists. exists r. split; [exact Hrs|].
    apply String.eqb_refl. }
  now rewrite E.
Qed.

Lemma notifier_run_batches (obs : list bool) (w : world) :
  batches (upstream (exec (notifier_run obs) w)) =
  (batches (upstream w) + edges (seen_online w) obs)%nat.
Proof.
  revert w. induction obs as [|online obs IH]; intros w; simpl.
  - unfold exec. simpl. lia.
  - destruct (notifier_step_summary online w) as [Hs Hb].
    unfold exec in *. unfold bind.
    destruct (notifier_step online w) as [[] w1]. simpl in Hs, Hb.
    rewrite IH, Hs, Hb. lia.
Qed.

End Notifier.

(** C9.  Of two consecutive online observations only the first one at most
    forwards: after an online observation the notifier has seen the node
    online, and a further online observation changes nothing.  An offline
    observation forwards nothing and clears the flag, so that the next
    online observation opens one batch, over the records pending at that
    moment, and marks each of them forwarded.  Over any sequence of
    observations, the batches opened are as many as its offline-to-online
    edges. *)
Theorem notifier_forwards_once_per_edge (w : world) (obs : list bool) :
  let pending := filter Storage.is_pending (messages w) in
  let w1 := exec (notifier_step true) w in
  let w0 := exec (notifier_step false) w in
  let w2 := exec (notifier_step true) w0 in
  seen_online w1 = true /\
  upstream w1 =
  upstream w ++ (if seen_online w then []
                 else Connectivity_detected :: map forwarding_line pending) /\
  exec (notifier_step true) w1 = w1 /\
  messages w0 = messages w /\
  upstream w0 = upstream w /\
  seen_online w0 = false /\
  upstream w2 =
  upstream w ++ Connectivity_detected :: map forwarding_line pending /\
  batches (upstream w2) = S (batches (upstream w)) /\
  (forall r, In r pending -> In (set_forwarded 1 r) (messages w2)) /\
  exec (notifier_step true) w2 = w2 /\
  batches (upstream (exec (notifier_run obs) w)) =
  (batches (upstream w) + edges (seen_online w) obs)%nat.
Proof.
  intros pending w1 w0 w2.
  assert (H0 : w0 = mkWorld (messages w) (sent w) (clock_reads w) false
                            (upstream w)) by reflexivity.
  assert (H2 : w2 = mkWorld (mark_all pending (messages w)) (sent w)
                            (clock_reads w) true
                            (upstream w ++ Connectivity_detected
                                           :: map forwarding_line pending)).
  { unfold w2, exec. rewrite notifier_step_edge by (rewrite H0; reflexivity).
    rewrite H0. reflexivity. }
  assert (H1 : seen_online w1 = true)
    by apply (notifier_step_summary true w).
  split; [exact H1|]. split.
  { unfold w1, exec. destruct (seen_online w) eqn:E.
    - rewrite (notifier_step_still_online w E). simpl. now rewrite app_nil_r.
    - rewrite (notifier_step_edge w E). reflexivity. }
  split.
  { unfold exec. now rewrite (notifier_step_still_online w1 H1). }
  rewrite H0, H2. simpl.
  repeat (split; [reflexivity|]).
  split.
  { rewrite batches_app. simpl. rewrite batches_forwarding. lia. }
  split.
  { intros r Hr. apply mark_all_marks; [|exact Hr].
    apply filter_In in Hr. apply Hr. }
  split.
  { unfold exec. now rewrite notifier_step_still_online. }
  apply notifier_run_batches.
Qed.

Lemma notifier_forwards_once_per_edge_witness :
  let w := world_of [sos_row "m1" "A" 0 0] in
  batches (upstream (exec (notifier_run [true; true; false; true]) w))
  = 2%nat /\
  exec (notifier_step true) (exec (notifier_step true) w)
  = exec (notifier_step true) w.
Proof.
  intros w.
  destruct (notifier_forwards_once_per_edge w [true; true; false; true])
    as (_ & _ & Hsecond & _ & _ & _ & _ & _ & _ & _ & Hcount).
  split; [exact Hcount | exact Hsecond].
Defined.

(** ** A node's life: what every step keeps *)

Section Life.

Import Storage.

Variable nd : node.

Lemma same_but_flags_refl (r : row) : same_but_flags r r.
Proof. unfold same_but_flags. now destruct r. Qed.

Lemma same_but_flags_trans (a b c : row) :
  same_but_flags a b -> same_but_flags b c -> same_but_flags a c.
Proof.
  unfold same_but_flags, set_forwarded, set_acknowledged.
  destruct a, b, c. simpl. intros Hab Hbc.
  inversion Hab. inversion Hbc. subst. reflexivity.
Qed.

Lemma same_but_flags_fields (r r' : row) :
  same_but_flags r r' ->
  r_id r' = r_id r /\ r_origin_id r' = r_origin_id r /\
  r_type r' = r_type r /\ r_hops r' = r_hops r /\ r_ttl r' = r_ttl r /\
  r_resend_count r' = r_resend_count r.
Proof. unfold same_but_flags. intros ->. simpl. tauto. Qed.

Lemma same_but_flags_resendable (r r' : row) :
  same_but_flags r r' -> resendable nd r' = resendable nd r.
Proof.
  intros H. apply same_but_flags_fields in H.
  destruct H as (_ & Ho & _ & _ & _ & Hc). unfold resendable.
  now rewrite Ho, Hc.
Qed.

Lemma keeps_unsent_refl (t : list row) : keeps_unsent nd t t.
Proof. intros r Hr _. exists r. split; [exact Hr | apply same_but_flags_refl]. Qed.

Lemma keeps_unsent_trans (t u v : list row) :
  keeps_unsent nd t u -> keeps_unsent nd u v -> keeps_unsent nd t v.
Proof.
  intros Htu Huv r Hr Hres.
  destruct (Htu r Hr Hres) as (r1 & Hr1 & H1).
  assert (Hres1 : resendable nd r1 = false)
    by (rewrite (same_but_flags_resendable r r1 H1); exact Hres).
  destruct (Huv r1 Hr1 Hres1) as (r2 & Hr2 & H2).
  exists r2. split; [exact Hr2 | exact (same_but_flags_trans _ _ _ H1 H2)].
Qed.

Lemma keeps_unsent_insert (t : list row) (x : row) :
  keeps_unsent nd t (t ++ [x]).
Proof.
  intros r Hr _. exists r.
  split; [apply in_or_app; now left | apply same_but_flags_refl].
Qed.

Lemma keeps_unsent_update (t : list row) (mid : string) (f : row -> row) :
  (forall r, same_but_flags r (f r)) ->
  keeps_unsent nd t (update_where_id mid f t).
Proof.
  intros Hf r Hr _. unfold update_where_id.
  exists (if (r_id r =? mid)%string then f r else r). split.
  - apply in_map_iff. exists r. auto.
  - destruct (r_id r =? mid)%string; [apply Hf | apply same_but_flags_refl].
Qed.

Lemma set_acknowledged_flags (v : Z) (r : row) :
  same_but_flags r (set_acknowledged v r).
Proof. unfold same_but_flags. reflexivity. Qed.

Lemma set_forwarded_flags (v : Z) (r : row) :
  same_but_flags r (set_forwarded v r).
Proof. unfold same_but_flags. reflexivity. Qed.

Lemma NoDup_snoc {A : Type} (l : list A) (a : A) :
  NoDup l -> ~ In a l -> NoDup (l ++ [a]).
Proof.
  induction l as [|x l IH]; simpl; intros Hnd Hni.
  - constructor; [intros [] | constructor].
  - inversion Hnd as [|? ? Hx Hl]; subst. constructor.
    + intros Hin. apply in_app_or in Hin. destruct Hin as [Hin|[E|[]]].
      * contradiction.
      * apply Hni. now left.
    + apply IH; [exact Hl|]. intros Hin. apply Hni. now right.
Qed.

Lemma ids_unique_insert (t : list row) (x : row) :
  ids_unique t -> select_by_id (r_id x) t = None -> ids_unique (t ++ [x]).
Proof.
  unfold ids_unique. intros Hu Hnone. rewrite map_app. simpl.
  apply NoDup_snoc; [exact Hu | now apply select_by_id_none].
Qed.

Lemma mark_all_ids (rs t : list row) : map r_id (mark_all rs t) = map r_id t.
Proof.
  unfold mark_all. revert t. induction rs as [|x rs IH]; intros t; simpl.
  - reflexivity.
  - rewrite IH. now apply update_where_id_ids.
Qed.

Lemma keeps_unsent_mark_all (rs t : list row) :
  keeps_unsent nd t (mark_all rs t).
Proof.
  unfold mark_all. revert t. induction rs as [|x rs IH]; intros t; simpl.
  - apply keeps_unsent_refl.
  - eapply keeps_unsent_trans; [|apply IH].
    apply keeps_unsent_update. intros r. apply set_forwarded_flags.
Qed.

(** The three ways a received packet leaves the table. *)
Lemma on_incoming_message_table (msg : packet) (w : world) :
  let t' := messages (exec (on_incoming_message nd msg) w) in
  t' = messages w \/
  (exists mid, first_seen nd msg w mid /\
               t' = messages w ++ [admitted_row nd msg mid w]) \/
  (exists mid, t' = update_where_id mid (set_acknowledged 1) (messages w)).
Proof.
  unfold exec.
  destruct (String.eqb_spec (get (p_type msg) "") "DM_MSG") as [Ht|Hnm].
  - destruct (String.eqb_spec (get (p_dest_id msg) "") "") as [Hd|Hd].
    2: destruct (String.eqb_spec (get (p_dest_id msg) "") (node_id nd))
        as [Hd'|Hd'].
    3: { left. now rewrite (dm_msg_rejected nd msg w Ht Hd Hd'). }
    all: assert (Hdest : addressed_here nd msg)
      by (unfold addressed_here; tauto).
    all: destruct (p_id msg) as [mid|] eqn:Hid;
      [|left; unfold on_incoming_message; rewrite Ht; simpl;
        rewrite (addressed_here_passes nd msg Hdest), Hid; reflexivity].
    all: destruct (String.eqb_spec mid "") as [Hm|Hm];
      [left; subst mid; unfold on_incoming_message; rewrite Ht; simpl;
       rewrite (addressed_here_passes nd msg Hdest), Hid; reflexivity|].
    all: destruct (select_by_id mid (messages w)) as [r|] eqn:Hsel;
      [left; now rewrite (dm_msg_duplicate nd msg w mid r Ht Hdest Hid Hm Hsel)
      |].
    all: destruct (in_range_dec msg) as [Hfit|Hfit];
      [|left; now rewrite (dm_msg_overflow nd msg w mid Ht Hdest Hid Hm Hfit)].
    all: right; left; exists mid; split; [repeat split; assumption|].
    all: now rewrite (dm_msg_admitted nd msg w mid Ht Hdest Hid Hm Hsel Hfit).
  - unfold on_incoming_message.
    destruct (String.eqb_spec (get (p_type msg) "") "ANNOUNCE") as [|_];
      [now left|].
    destruct (String.eqb_spec (get (p_type msg) "") "DM_MSG");
      [contradiction|].
    destruct (String.eqb_spec (get (p_type msg) "") "DM_ACK") as [Ht|_];
      [|now left].
    destruct (p_orig_msg_id msg) as [mid|] eqn:Hid; [|now left].
    destruct (truthy mid) eqn:Hm; simpl; [|now left].
    right. right. exists mid. unfold bind, get_message.
    destruct (select_by_id mid (messages w)) eqn:E.
    + reflexivity.
    + simpl. now rewrite (update_where_id_absent _ _ _ E).
Qed.

Lemma command_in_range (uuid subtype dest_id text ts : string) :
  message_in_range
    (message_of_command nd
       (build_outgoing_message uuid (node_id nd) (node_label nd) subtype text
                               dest_id ts)
       uuid subtype dest_id text).
Proof. reflexivity. Qed.

Lemma send_command_table (uuid subtype dest_id text : string) (w : world) :
  let t' := messages (exec (send_command nd uuid subtype dest_id text) w) in
  t' = messages w \/
  (exists r, r_id r = uuid /\ select_by_id uuid (messages w) = None /\
             t' = messages w ++ [r]).
Proof.
  intros t'. subst t'. unfold exec, send_command, bind, now_iso.
  destruct (select_by_id uuid (messages w)) as [r|] eqn:Hsel.
  - left. erewrite insert_message_present
      by (try apply command_in_range; simpl; exact Hsel).
    reflexivity.
  - right. erewrite insert_message_absent
      by (try apply command_in_range; simpl; exact Hsel).
    simpl.
    eexists. split; [|split; [reflexivity|reflexivity]]. reflexivity.
Qed.

Lemma notifier_step_table (online : bool) (w : world) :
  let t' := messages (exec (notifier_step online) w) in
  t' = messages w \/
  t' = mark_all (filter is_pending (messages w)) (messages w).
Proof.
  unfold exec. destruct online.
  - destruct (seen_online w) eqn:E.
    + left. now rewrite (notifier_step_still_online w E).
    + right. now rewrite (notifier_step_edge w E).
  - left. reflexivity.
Qed.

(** Every step keeps the key constraint, and keeps each record the
    scheduler does not resend, up to the two flags. *)
Lemma step_keeps (e : event) (w : world) :
  ids_unique (messages w) ->
  ids_unique (messages (exec (step nd e) w)) /\
  keeps_unsent nd (messages w) (messages (exec (step nd e) w)).
Proof.
  intros Hu. destruct e as [msg|uuid subtype dest_id text|online|]; simpl.
  - destruct (on_incoming_message_table msg w)
      as [->|[(mid & Hfs & ->)|(mid & ->)]].
    + split; [exact Hu | apply keeps_unsent_refl].
    + destruct Hfs as (_ & _ & _ & _ & Hsel).
      split; [now apply ids_unique_insert | apply keeps_unsent_insert].
    + split.
      * unfold ids_unique. now rewrite update_where_id_ids.
      * apply keeps_unsent_update. intros r. apply set_acknowledged_flags.
  - destruct (send_command_table uuid subtype dest_id text w)
      as [->|(r & Hid & Hsel & ->)].
    + split; [exact Hu | apply keeps_unsent_refl].
    + split; [apply ids_unique_insert; [exact Hu | now rewrite Hid]
             | apply keeps_unsent_insert].
  - destruct (notifier_step_table online w) as [->| ->].
    + split; [exact Hu | apply keeps_unsent_refl].
    + split; [unfold ids_unique; now rewrite mark_all_ids
             | apply keeps_unsent_mark_all].
  - destruct (sos_resender_cycle_spec nd w Hu) as (new & _ & Hids & _ & Hk).
    split.
    + unfold ids_unique. now rewrite Hids.
    + intros r Hr Hres. exists r.
      split; [now apply Hk | apply same_but_flags_refl].
Qed.

Lemma run_keeps (es : list event) (w : world) :
  ids_unique (messages w) ->
  ids_unique (messages (exec (run nd es) w)) /\
  keeps_unsent nd (messages w) (messages (exec (run nd es) w)).
Proof.
  revert w. induction es as [|e es IH]; intros w Hu; simpl.
  - split; [exact Hu | apply keeps_unsent_refl].
  - destruct (step_keeps e w Hu) as [Hu1 Hk1].
    unfold exec in *. unfold bind.
    destruct (step nd e w) as [[] w1]. simpl in Hu1, Hk1.
    destruct (IH w1 Hu1) as [Hu2 Hk2].
    split; [exact Hu2 | exact (keeps_unsent_trans _ _ _ Hk1 Hk2)].
Qed.

(** In every world a node reaches from an empty table the key constraint
    holds. *)
Lemma reachable_ids_unique (es : list event) (w : world) :
  messages w = [] -> ids_unique (messages (exec (run nd es) w)).
Proof.
  intros H. apply run_keeps. unfold ids_unique. rewrite H. constructor.
Qed.

(** Being first seen, with integers the store can hold, is what makes the
    relay engine store a DM_MSG. *)
Lemma first_seen_iff_stored (msg : packet) (w : world) (mid : string) :
  get (p_type msg) "" = "DM_MSG" ->
  p_id msg = Some mid ->
  select_by_id mid (messages w) = None ->
  first_seen nd msg w mid /\ in_range msg <->
  select_by_id mid (messages (exec (on_incoming_message nd msg) w)) <> None.
Proof.
  intros Ht Hid Hsel. split.
  - intros [(_ & Hdest & _ & Hmid & _) Hfit]. unfold exec.
    rewrite (dm_msg_admitted nd msg w mid Ht Hdest Hid Hmid Hsel Hfit). simpl.
    rewrite select_by_id_app, Hsel. unfold select_by_id. simpl.
    rewrite String.eqb_refl. discriminate.
  - intros Hstored.
    assert (Hfs : first_seen nd msg w mid).
    { destruct (on_incoming_message_table msg w)
        as [E|[(mid' & Hfs & _)|(mid' & E)]].
      - rewrite E in Hstored. contradiction.
      - destruct Hfs as (? & ? & Hid' & ? & ?).
        assert (mid' = mid) by congruence. subst mid'.
        repeat split; assumption.
      - exfalso. apply Hstored. rewrite E. apply select_by_id_none.
        rewrite update_where_id_ids by reflexivity.
        now apply select_by_id_none. }
    split; [exact Hfs|].
    destruct (in_range_dec msg) as [Hfit|Hfit]; [exact Hfit|].
    exfalso. apply Hstored. destruct Hfs as (_ & Hdest & _ & Hmid & _).
    unfold exec.
    now rewrite (dm_msg_overflow nd msg w mid Ht Hdest Hid Hmid Hfit).
Qed.

End Life.

(** ** The scheduler and its query *)

(** C7.  Over any number of consecutive passes of the SOS scheduler, every
    packet it sends is for a record that this node originated and whose
    [resend_count] was below MAX_SOS_RESENDS; a record that another node
    originated, or whose [resend_count] has reached MAX_SOS_RESENDS, is
    still in the table, unchanged, after those passes, no packet with its id
    was sent, and no record was deleted.  However the later passes are
    interleaved with received packets, [/send] commands and connectivity
    probes, such a record stays in the table with its [resend_count] and
    every other column but the two flags as they were. *)
Theorem sos_resender_only_own_below_cap (nd : node) (w : world) (n : nat) :
  ids_unique (messages w) ->
  let w' := exec (sos_resender_cycles nd n) w in
  exists new : list packet,
    emitted w w' new /\
    map r_id (messages w') = map r_id (messages w) /\
    (forall p, In p new ->
       exists r, In r (messages w) /\ p_id p = Some (r_id r) /\
                 r_origin_id r = node_id nd /\
                 r_resend_count r < MAX_SOS_RESENDS) /\
    (forall r, In r (messages w) ->
       r_origin_id r <> node_id nd \/ MAX_SOS_RESENDS <= r_resend_count r ->
       In r (messages w') /\
       Storage.select_by_id (r_id r) (messages w') = Some r /\
       (forall p, In p new -> p_id p <> Some (r_id r)) /\
       (forall es : list event,
           exists r', In r' (messages (exec (run nd es) w)) /\
                      same_but_flags r r' /\
                      r_resend_count r' = r_resend_count r)).
Proof.
  intros Hu w'.
  destruct (sos_resender_cycles_spec nd n w Hu) as (new & He & Hids & Hp & Hk).
  fold w' in He, Hids, Hk.
  assert (Hu' : ids_unique (messages w'))
    by (unfold ids_unique; rewrite Hids; exact Hu).
  exists new. split; [exact He|]. split; [exact Hids|]. split.
  - intros p Hin. destruct (Hp p Hin) as (r & Hr & Hid & Hres).
    apply resendable_true in Hres. exists r. tauto.
  - intros r Hr Hno. apply resendable_false in Hno.
    pose proof (Hk r Hr Hno) as Hr'.
    split; [exact Hr'|]. split; [|split].
    + now apply select_by_id_unique.
    + intros p Hin Hid. destruct (Hp p Hin) as (r0 & Hr0 & Hid0 & Hres0).
      assert (E : r_id r0 = r_id r) by congruence.
      rewrite (same_id_same_row _ r0 r Hu Hr0 Hr E) in Hres0. congruence.
    + intros es. destruct (run_keeps nd es w Hu) as [_ Hkeep].
      destruct (Hkeep r Hr Hno) as (r' & Hin & Hsame).
      exists r'. split; [exact Hin|]. split; [exact Hsame|].
      apply (same_but_flags_fields r r' Hsame).
Qed.

Lemma sos_resender_only_own_below_cap_witness :
  let capped := sos_row "m1" "A" 0 6 in
  let foreign := sos_row "m2" "B" 0 0 in
  let w := world_of [capped; foreign; sos_row "m3" "A" 0 2] in
  let w' := exec (sos_resender_cycles nodeA 3) w in
  In capped (messages w') /\ In foreign (messages w').
Proof.
  intros capped foreign w w'.
  assert (Hu : ids_unique (messages w)).
  { unfold ids_unique. simpl.
    repeat constructor; simpl; intuition discriminate. }
  destruct (sos_resender_only_own_below_cap nodeA w 3 Hu)
    as (new & _ & _ & _ & Hk).
  split.
  - apply (Hk capped); [now left | right; simpl; unfold MAX_SOS_RESENDS; lia].
  - apply (Hk foreign); [right; now left | left; discriminate].
Defined.

(** C8, as amended.  [get_unacknowledged_sos] returns exactly the records
    with type "SOS", [acknowledged = 0] and [ttl > 0], in rowid order,
    whichever node originated them, and changes nothing; the restriction to
    records this node originated is made by the scheduler, which sends, of
    those rows, the ones whose [origin_id] is its own id and whose
    [resend_count] is below the cap. *)
Theorem get_unacknowledged_sos_any_origin (w : world) :
  let rows := fst (Storage.get_unacknowledged_sos w) in
  snd (Storage.get_unacknowledged_sos w) = w /\
  (forall r, In r rows <->
             In r (messages w) /\ r_type r = "SOS" /\ r_acknowledged r = 0
             /\ 0 < r_ttl r) /\
  Subseq rows (messages w) /\
  (forall nd : node,
      sent (exec (sos_resender_cycle nd) w) =
      sent w ++ map resend_packet (filter (resendable nd) rows)).
Proof.
  simpl. split; [reflexivity|]. split; [|split].
  - intros r. rewrite filter_In. unfold Storage.is_unacknowledged_sos.
    rewrite !andb_true_iff, String.eqb_eq, Z.eqb_eq, Z.ltb_lt. tauto.
  - apply filter_Subseq.
  - intros nd. unfold exec. now rewrite sos_resender_cycle_world.
Qed.

(** C8 as stated fails: at node B the query returns an unacknowledged SOS
    that node A originated. *)
Lemma get_unacknowledged_sos_counterexample :
  let relayed := sos_row "m1" "A" 0 0 in
  let w := world_of [relayed] in
  fst (Storage.get_unacknowledged_sos w) = [relayed] /\
  r_origin_id relayed <> node_id nodeB /\
  ~ (forall r, In r (fst (Storage.get_unacknowledged_sos w)) ->
               r_origin_id r = node_id nodeB).
Proof.
  simpl. split; [reflexivity|]. split; [discriminate|].
  intros H. specialize (H _ (or_introl eq_refl)). discriminate H.
Qed.

Lemma get_unacknowledged_sos_any_origin_witness :
  let own := sos_row "m1" "B" 0 0 in
  let relayed := sos_row "m2" "A" 0 0 in
  let w := world_of [own; sos_row "m3" "A" 1 0; relayed] in
  fst (Storage.get_unacknowledged_sos w) = [own; relayed] /\
  In relayed (fst (Storage.get_unacknowledged_sos w)) /\
  sent (exec (sos_resender_cycle nodeB) w) = [resend_packet own].
Proof.
  intros own relayed w.
  destruct (get_unacknowledged_sos_any_origin w) as (_ & Hiff & _ & Hsent).
  split; [reflexivity|]. split.
  - apply Hiff. split; [right; right; left; reflexivity | repeat split; reflexivity].
  - rewrite Hsent. reflexivity.
Defined.

(** * Further properties *)

(** ** The relay engine, case by case *)

Section RelayCases.

Variable nd : node.

Lemma world_eta (w : world) :
  mkWorld (messages w) (sent w) (clock_reads w) (seen_online w) (upstream w)
  = w.
Proof. now destruct w. Qed.

Lemma other_type_ignored (msg : packet) (w : world) :
  get (p_type msg) "" <> "DM_MSG" ->
  get (p_type msg) "" <> "DM_ACK" ->
  on_incoming_message nd msg w = (tt, w).
Proof.
  intros Hm Ha. unfold on_incoming_message.
  destruct (String.eqb_spec (get (p_type msg) "") "ANNOUNCE"); [reflexivity|].
  destruct (String.eqb_spec (get (p_type msg) "") "DM_MSG"); [contradiction|].
  destruct (String.eqb_spec (get (p_type msg) "") "DM_ACK"); [contradiction|].
  reflexivity.
Qed.

Lemma dm_msg_no_id (msg : packet) (w : world) :
  get (p_type msg) "" = "DM_MSG" ->
  get (p_id msg) "" = "" ->
  on_incoming_message nd msg w = (tt, w).
Proof.
  intros Ht Hid. unfold on_incoming_message. rewrite Ht. simpl.
  destruct (truthy (get (p_dest_id msg) "")
            && neq (get (p_dest_id msg) "") (node_id nd)); [reflexivity|].
  destruct (p_id msg) as [mid|]; [|reflexivity].
  simpl in Hid. subst mid. reflexivity.
Qed.

Lemma dm_ack_no_id (msg : packet) (w : world) :
  get (p_type msg) "" = "DM_ACK" ->
  get (p_orig_msg_id msg) "" = "" ->
  on_incoming_message nd msg w = (tt, w).
Proof.
  intros Ht Hid. unfold on_incoming_message. rewrite Ht. simpl.
  destruct (p_orig_msg_id msg) as [mid|]; [|reflexivity].
  simpl in Hid. subst mid. reflexivity.
Qed.

(** Every call of the handler is one of three: nothing but clock reads, a
    first admission, or an acknowledgement mark. *)
Lemma on_incoming_message_cases (msg : packet) (w : world) :
  (exists n : nat,
      on_incoming_message nd msg w =
      (tt, mkWorld (messages w) (sent w) (n + clock_reads w) (seen_online w)
                   (upstream w))) \/
  (exists mid : string,
      first_seen nd msg w mid /\ in_range msg /\
      on_incoming_message nd msg w =
      (tt, mkWorld (messages w ++ [admitted_row nd msg mid w])
                   (sent w ++ admission_packets nd msg w mid)
                   (4 + clock_reads w) (seen_online w) (upstream w))) \/
  (exists mid : string,
      get (p_type msg) "" = "DM_ACK" /\ p_orig_msg_id msg = Some mid /\
      mid <> "" /\
      on_incoming_message nd msg w =
      (tt, mkWorld (Storage.update_where_id mid (set_acknowledged 1)
                                            (messages w))
                   (sent w) (clock_reads w) (seen_online w) (upstream w))).
Proof.
  destruct (String.eqb_spec (get (p_type msg) "") "DM_MSG") as [Ht|Hnm].
  - destruct (String.eqb_spec (get (p_dest_id msg) "") "") as [Hd|Hd].
    2: destruct (String.eqb_spec (get (p_dest_id msg) "") (node_id nd))
        as [Hd'|Hd'].
    3: { left. exists O. rewrite (dm_msg_rejected nd msg w Ht Hd Hd').
         simpl. now rewrite world_eta. }
    all: assert (Hdest : addressed_here nd msg)
      by (unfold addressed_here; tauto).
    all: destruct (String.eqb_spec (get (p_id msg) "") "") as [Hid|Hid];
      [left; exists O; rewrite (dm_msg_no_id msg w Ht Hid); simpl;
       now rewrite world_eta|].
    all: destruct (p_id msg) as [mid|] eqn:Hp; [|now simpl in Hid].
    all: simpl in Hid.
    all: destruct (Storage.select_by_id mid (messages w)) as [r|] eqn:Hsel;
      [left; exists 3%nat;
       exact (dm_msg_duplicate nd msg w mid r Ht Hdest Hp Hid Hsel)|].
    all: destruct (in_range_dec msg) as [Hfit|Hfit];
      [|left; exists 3%nat;
        exact (dm_msg_overflow nd msg w mid Ht Hdest Hp Hid Hfit)].
    all: right; left; exists mid; split; [repeat split; assumption|].
    all: split; [exact Hfit|].
    all: exact (dm_msg_admitted nd msg w mid Ht Hdest Hp Hid Hsel Hfit).
  - destruct (String.eqb_spec (get (p_type msg) "") "DM_ACK") as [Ht|Hna].
    + destruct (String.eqb_spec (get (p_orig_msg_id msg) "") "") as [Hid|Hid].
      * left. exists O. rewrite (dm_ack_no_id msg w Ht Hid). simpl.
        now rewrite world_eta.
      * destruct (p_orig_msg_id msg) as [mid|] eqn:Hp; [|now simpl in Hid].
        simpl in Hid. right. right. exists mid.
        repeat split; try assumption.
        exact (dm_ack_marks nd msg w mid Ht Hp Hid).
    + left. exists O. rewrite (other_type_ignored msg w Hnm Hna). simpl.
      now rewrite world_eta.
Qed.

Lemma skipn_length_app {A : Type} (l l' : list A) :
  skipn (length l) (l ++ l') = l'.
Proof. induction l as [|x l IH]; simpl; auto. Qed.

Lemma emissions_of {A : Type} (c : M A) (w : world) (new : list packet) :
  sent (exec c w) = sent w ++ new -> emissions c w = new.
Proof. intros H. unfold emissions. rewrite H. apply skipn_length_app. Qed.

End RelayCases.

(** ** What the relay engine ignores *)

(** X1.  A packet whose [type] is neither DM_MSG nor DM_ACK (a beacon, an
    unknown type, no [type] key at all) leaves the node's state as it is;
    so does every beacon [UDPPeer.broadcaster] makes, at every node. *)
Theorem other_packet_types_change_nothing
        (nd : node) (msg : packet) (w : world) :
  get (p_type msg) "" <> "DM_MSG" ->
  get (p_type msg) "" <> "DM_ACK" ->
  on_incoming_message nd msg w = (tt, w) /\
  (forall (sender : node) (ts : string),
      on_incoming_message nd (announce_packet sender ts) w = (tt, w)).
Proof.
  intros Hm Ha. split.
  - now apply other_type_ignored.
  - intros sender ts. reflexivity.
Qed.

Lemma other_packet_types_change_nothing_witness :
  let no_type := mkPacket None (Some "m1") None None None None None None None
                          None None None None None in
  exec (on_incoming_message nodeB no_type) world0 = world0.
Proof.
  intros no_type.
  destruct (other_packet_types_change_nothing nodeB no_type world0)
    as [H _].
  - discriminate.
  - discriminate.
  - unfold exec. now rewrite H.
Defined.

(** X2.  A DM_MSG that carries no [id], or an empty one, is dropped: nothing
    is stored, acknowledged or relayed, whatever else it carries. *)
Theorem dm_msg_without_id_is_dropped (nd : node) (msg : packet) (w : world) :
  get (p_type msg) "" = "DM_MSG" ->
  p_id msg = None \/ p_id msg = Some "" ->
  on_incoming_message nd msg w = (tt, w).
Proof.
  intros Ht Hid. apply dm_msg_no_id; [exact Ht|].
  destruct Hid as [-> | ->]; reflexivity.
Qed.

Lemma dm_msg_without_id_is_dropped_witness :
  exec (on_incoming_message nodeB
          (mkPacket (Some "DM_MSG") None (Some "A") None None (Some "SOS")
                    (Some "help") None (Some 0) (Some 6) None None None None))
       world0 = world0.
Proof.
  apply (f_equal snd
           (dm_msg_without_id_is_dropped
              nodeB
              (mkPacket (Some "DM_MSG") None (Some "A") None None (Some "SOS")
                        (Some "help") None (Some 0) (Some 6) None None None
                        None)
              world0 eq_refl (or_introl eq_refl))).
Defined.

(** ** Acknowledgements *)

Lemma update_where_id_idem (mid : string) (f : row -> row) (t : list row) :
  (forall r, r_id (f r) = r_id r) ->
  (forall r, f (f r) = f r) ->
  Storage.update_where_id mid f (Storage.update_where_id mid f t) =
  Storage.update_where_id mid f t.
Proof.
  intros Hid Hf. unfold Storage.update_where_id. rewrite map_map.
  apply map_ext. intros r.
  destruct (String.eqb_spec (r_id r) mid) as [E|E].
  - rewrite Hid. destruct (String.eqb_spec (r_id r) mid); [apply Hf|].
    contradiction.
  - destruct (String.eqb_spec (r_id r) mid); [contradiction | reflexivity].
Qed.

(** X3.  A DM_ACK is never answered and never relayed, it reads no clock and
    keeps the ids of the table; a second copy of the same DM_ACK changes
    nothing more. *)
Theorem dm_ack_is_silent_and_idempotent
        (nd : node) (msg : packet) (w : world) :
  get (p_type msg) "" = "DM_ACK" ->
  let w1 := exec (on_incoming_message nd msg) w in
  emitted w w1 [] /\
  clock_reads w1 = clock_reads w /\
  map r_id (messages w1) = map r_id (messages w) /\
  exec (on_incoming_message nd msg) w1 = w1.
Proof.
  intros Ht w1. subst w1. unfold exec, emitted.
  destruct (String.eqb_spec (get (p_orig_msg_id msg) "") "") as [Hid|Hid].
  - rewrite !(dm_ack_no_id nd msg _ Ht Hid). simpl.
    rewrite app_nil_r. auto.
  - destruct (p_orig_msg_id msg) as [mid|] eqn:Hp; [|now simpl in Hid].
    simpl in Hid. rewrite (dm_ack_marks nd msg w mid Ht Hp Hid). simpl.
    rewrite (dm_ack_marks nd msg _ mid Ht Hp Hid). simpl.
    rewrite app_nil_r. repeat split.
    + now apply update_where_id_ids.
    + unfold with_messages. simpl.
      now rewrite update_where_id_idem.
Qed.

Lemma dm_ack_is_silent_and_idempotent_witness :
  let w := world_of [sos_row "m1" "A" 0 0] in
  let ack := ack_packet nodeC "m1" "2025-01-01T00:00:09+00:00" in
  let w1 := exec (on_incoming_message nodeA ack) w in
  messages w1 = [sos_row "m1" "A" 1 0] /\
  exec (on_incoming_message nodeA ack) w1 = w1.
Proof.
  intros w ack w1. split; [reflexivity|].
  apply (dm_ack_is_silent_and_idempotent nodeA ack w eq_refl).
Defined.

(** ** Deduplication over a sequence of receptions *)

Section Dedup.

Variable nd : node.
Variable i : string.

Lemma count_acks_app (l l' : list packet) :
  count_acks i (l ++ l') = (count_acks i l + count_acks i l')%nat.
Proof. unfold count_acks. now rewrite filter_app, length_app. Qed.

Lemma count_msgs_app (l l' : list packet) :
  count_msgs i (l ++ l') = (count_msgs i l + count_msgs i l')%nat.
Proof. unfold count_msgs. now rewrite filter_app, length_app. Qed.

Lemma dm_msg_type (msg : packet) :
  get (p_type msg) "" = "DM_MSG" -> p_type msg = Some "DM_MSG".
Proof. destruct (p_type msg); simpl; [congruence | discriminate]. Qed.

(** The packets of an admission under another id do not count for [i];
    those of an admission under [i] count once at most. *)
Lemma admission_packets_counts (msg : packet) (w : world) (mid : string) :
  first_seen nd msg w mid ->
  (mid <> i ->
   count_acks i (admission_packets nd msg w mid) = O /\
   count_msgs i (admission_packets nd msg w mid) = O) /\
  (count_acks i (admission_packets nd msg w mid) <= 1)%nat /\
  (count_msgs i (admission_packets nd msg w mid) <= 1)%nat.
Proof.
  intros (Ht & _ & Hid & _ & _). apply dm_msg_type in Ht.
  unfold admission_packets, count_acks, count_msgs, is_ack_for, is_msg_for.
  destruct (get (p_hops msg) 0 <? get (p_ttl msg) MESSAGE_TTL); simpl;
    rewrite ?Ht, ?Hid; simpl;
    destruct (String.eqb_spec mid i); simpl; split; try split;
    try (intros; contradiction); try lia; auto.
Qed.

Lemma receive_all_counts (msgs : list packet) (w : world) :
  exists new : list packet,
    sent (exec (receive_all nd msgs) w) = sent w ++ new /\
    (count_acks i new <= 1)%nat /\ (count_msgs i new <= 1)%nat /\
    (Storage.select_by_id i (messages w) <> None ->
     count_acks i new = O /\ count_msgs i new = O).
Proof.
  revert w. induction msgs as [|msg msgs IH]; intros w.
  - exists []. unfold exec. simpl. rewrite app_nil_r.
    unfold count_acks, count_msgs. simpl.
    split; [reflexivity|]. split; [lia|]. split; [lia | auto].
  - unfold exec, receive_all. simpl. unfold bind.
    destruct (on_incoming_message_cases nd msg w)
      as [(n & E)|[(mid & Hfs & _ & E)|(mid & _ & _ & _ & E)]]; rewrite E.
    + destruct (IH (mkWorld (messages w) (sent w) (n + clock_reads w)
                            (seen_online w) (upstream w)))
        as (new & Hs & Ha & Hm & H0).
      exists new. unfold exec, receive_all in Hs. cbn [messages sent] in Hs, H0.
      exact (conj Hs (conj Ha (conj Hm H0))).
    + destruct (IH (mkWorld (messages w ++ [admitted_row nd msg mid w])
                            (sent w ++ admission_packets nd msg w mid)
                            (4 + clock_reads w) (seen_online w) (upstream w)))
        as (new & Hs & Ha & Hm & H0).
      unfold exec, receive_all in Hs. cbn [messages sent] in Hs, H0.
      exists (admission_packets nd msg w mid ++ new).
      rewrite Hs, <- app_assoc. split; [reflexivity|].
      rewrite count_acks_app, count_msgs_app.
      destruct (admission_packets_counts msg w mid Hfs)
        as (Hother & Ha1 & Hm1).
      destruct Hfs as (_ & _ & _ & _ & Hsel).
      destruct (String.eqb_spec mid i) as [Heq|Hne].
      * subst mid.
        assert (Hnow : Storage.select_by_id i
                         (messages w ++ [admitted_row nd msg i w]) <> None).
        { rewrite select_by_id_app, Hsel. unfold Storage.select_by_id.
          simpl. rewrite String.eqb_refl. discriminate. }
        destruct (H0 Hnow) as [Ea Em]. rewrite Ea, Em.
        split; [lia|]. split; [lia|]. intros Hp. contradiction.
      * destruct (Hother Hne) as [Ea Em]. rewrite Ea, Em. simpl.
        split; [exact Ha|]. split; [exact Hm|].
        intros Hp. apply H0. rewrite select_by_id_app.
        destruct (Storage.select_by_id i (messages w));
          [discriminate | contradiction].
    + destruct (IH (mkWorld (Storage.update_where_id mid (set_acknowledged 1)
                                                     (messages w))
                            (sent w) (clock_reads w) (seen_online w)
                            (upstream w)))
        as (new & Hs & Ha & Hm & H0).
      exists new. unfold exec, receive_all in Hs. cbn [messages sent] in Hs, H0.
      split; [exact Hs|]. split; [exact Ha|]. split; [exact Hm|].
      intros Hp. apply H0. intros Hnone. apply Hp.
      apply select_by_id_none. apply select_by_id_none in Hnone.
      now rewrite update_where_id_ids in Hnone.
Qed.

End Dedup.

(** X4.  Over any sequence of received packets, a node sends at most one
    DM_ACK and at most one DM_MSG for any one message id, and none at all
    for an id that was in its store before the sequence. *)
Theorem each_id_acked_and_relayed_at_most_once
        (nd : node) (msgs : list packet) (w : world) (i : string) :
  let new := emissions (receive_all nd msgs) w in
  (count_acks i new <= 1)%nat /\
  (count_msgs i new <= 1)%nat /\
  (Storage.select_by_id i (messages w) <> None ->
   count_acks i new = O /\ count_msgs i new = O).
Proof.
  intros new. destruct (receive_all_counts nd i msgs w) as (l & Hs & H).
  subst new. rewrite (emissions_of _ w l Hs). exact H.
Qed.

Lemma each_id_acked_and_relayed_at_most_once_witness :
  let msg := dm_msg "m1" "A" "" "SOS" "help" 0 6 in
  let later := dm_msg "m1" "A" "" "SOS" "help" 3 6 in
  let new := emissions (receive_all nodeB [msg; later; msg]) world0 in
  length new = 2%nat /\ count_acks "m1" new = 1%nat /\
  count_msgs "m1" new = 1%nat /\
  count_msgs "m1"
    (emissions (receive_all nodeB [later])
               (exec (receive_all nodeB [msg]) world0)) = O.
Proof.
  intros msg later new.
  split; [reflexivity|]. split; [reflexivity|]. split; [reflexivity|].
  apply (each_id_acked_and_relayed_at_most_once
           nodeB [later] (exec (receive_all nodeB [msg]) world0) "m1").
  discriminate.
Defined.

(** ** The hop limit along a path *)

Section Flood.

Lemma emissions_handler (nd : node) (msg : packet) (w : world) :
  emissions (on_incoming_message nd msg) w = [] \/
  exists mid, first_seen nd msg w mid /\ in_range msg /\
              emissions (on_incoming_message nd msg) w
              = admission_packets nd msg w mid.
Proof.
  destruct (on_incoming_message_cases nd msg w)
    as [(n & E)|[(mid & Hfs & Hfit & E)|(mid & _ & _ & _ & E)]].
  - left. apply emissions_of. unfold exec. rewrite E. simpl.
    now rewrite app_nil_r.
  - right. exists mid. split; [exact Hfs|]. split; [exact Hfit|].
    apply emissions_of. unfold exec. now rewrite E.
  - left. apply emissions_of. unfold exec. rewrite E. simpl.
    now rewrite app_nil_r.
Qed.

Lemma emissions_first_seen (nd : node) (msg : packet) (w : world)
      (mid : string) :
  first_seen nd msg w mid ->
  in_range msg ->
  emissions (on_incoming_message nd msg) w = admission_packets nd msg w mid.
Proof.
  intros (Ht & Hdest & Hid & Hmid & Hsel) Hfit. apply emissions_of.
  unfold exec.
  now rewrite (dm_msg_admitted nd msg w mid Ht Hdest Hid Hmid Hsel Hfit).
Qed.

Lemma relayed_copy_some (nd : node) (msg out : packet) (w : world) :
  relayed_copy nd msg w = Some out ->
  get (p_hops msg) 0 < get (p_ttl msg) MESSAGE_TTL /\
  out = set_hops msg (get (p_hops msg) 0 + 1).
Proof.
  unfold relayed_copy.
  destruct (emissions_handler nd msg w) as [->|(mid & _ & _ & ->)];
    [discriminate|].
  unfold admission_packets.
  destruct (get (p_hops msg) 0 <? get (p_ttl msg) MESSAGE_TTL) eqn:E;
    [|discriminate].
  intros H. inversion H. split; [now apply Z.ltb_lt | reflexivity].
Qed.

Lemma relayed_copy_in_range (nd : node) (msg out : packet) (w : world) :
  relayed_copy nd msg w = Some out -> in_range msg.
Proof.
  unfold relayed_copy.
  destruct (emissions_handler nd msg w) as [->|(mid & _ & Hfit & _)];
    [discriminate|].
  intros _. exact Hfit.
Qed.

Lemma in_range_set_hops (msg : packet) :
  in_range msg ->
  get (p_hops msg) 0 < get (p_ttl msg) MESSAGE_TTL ->
  in_range (set_hops msg (get (p_hops msg) 0 + 1)).
Proof.
  unfold in_range, fits_integer. cbn [p_hops p_ttl set_hops get].
  intros [Hh Ht] Hlt.
  apply andb_true_iff in Hh. apply andb_true_iff in Ht.
  destruct Hh as [Hh1 Hh2]. destruct Ht as [Ht1 Ht2].
  apply Z.leb_le in Hh1, Hh2, Ht1, Ht2.
  split; [|apply andb_true_iff; split; apply Z.leb_le; lia].
  apply andb_true_iff; split; apply Z.leb_le; lia.
Qed.

Lemma relayed_copy_first_seen (nd : node) (msg : packet) (w : world)
      (mid : string) :
  first_seen nd msg w mid ->
  in_range msg ->
  relayed_copy nd msg w =
  if get (p_hops msg) 0 <? get (p_ttl msg) MESSAGE_TTL
  then Some (set_hops msg (get (p_hops msg) 0 + 1))
  else None.
Proof.
  intros Hfs Hfit. unfold relayed_copy.
  rewrite (emissions_first_seen nd msg w mid Hfs Hfit).
  unfold admission_packets.
  now destruct (get (p_hops msg) 0 <? get (p_ttl msg) MESSAGE_TTL).
Qed.

End Flood.

(** X5.  However a packet travels from node to node, whatever the nodes
    hold, the number of nodes that re-emit it is at most the hops it has
    left, [ttl - hops] (none when [hops >= ttl]). *)
Theorem flood_stops_at_hop_limit (path : list (node * world)) (msg : packet) :
  Z.of_nat (flood_path path msg)
  <= Z.max 0 (get (p_ttl msg) MESSAGE_TTL - get (p_hops msg) 0).
Proof.
  revert msg. induction path as [|[nd w] rest IH]; intros msg; simpl.
  - lia.
  - destruct (relayed_copy nd msg w) as [out|] eqn:E; [|simpl; lia].
    apply relayed_copy_some in E. destruct E as [Hlt ->].
    specialize (IH (set_hops msg (get (p_hops msg) 0 + 1))).
    simpl in IH. lia.
Qed.

(** X6.  Along a path of nodes that all see the message for the first time
    and are addressed by it, when the packet's hops and ttl fit SQLite's
    64-bit INTEGER, exactly the first [ttl - hops] nodes re-emit it (all
    of them when the path is shorter). *)
Theorem flood_reaches_hop_limit
        (path : list (node * world)) (msg : packet) (mid : string) :
  get (p_type msg) "" = "DM_MSG" ->
  p_id msg = Some mid ->
  mid <> "" ->
  in_range msg ->
  fresh_path path mid (get (p_dest_id msg) "") ->
  flood_path path msg =
  Nat.min (length path)
          (Z.to_nat (get (p_ttl msg) MESSAGE_TTL - get (p_hops msg) 0)).
Proof.
  revert msg. induction path as [|[nd w] rest IH];
    intros msg Ht Hid Hmid Hfit Hfresh; cbn [flood_path length].
  - reflexivity.
  - inversion Hfresh as [|? ? [Hdest Hsel] Hrest]; subst. simpl in Hdest, Hsel.
    assert (Hfs : first_seen nd msg w mid)
      by (repeat split; assumption).
    rewrite (relayed_copy_first_seen nd msg w mid Hfs Hfit).
    destruct (get (p_hops msg) 0 <? get (p_ttl msg) MESSAGE_TTL) eqn:E.
    + apply Z.ltb_lt in E.
      rewrite (IH (set_hops msg (get (p_hops msg) 0 + 1)));
        try assumption; [|now apply in_range_set_hops].
      cbn [p_ttl p_hops set_hops get]. lia.
    + apply Z.ltb_ge in E. lia.
Qed.

Lemma flood_reaches_hop_limit_witness :
  let fresh := (nodeB, world0) in
  flood_path [fresh; fresh; fresh; fresh]
             (dm_msg "m1" "A" "" "SOS" "help" 4 6) = 2%nat.
Proof.
  intros fresh.
  apply (flood_reaches_hop_limit
           [fresh; fresh; fresh; fresh]
           (dm_msg "m1" "A" "" "SOS" "help" 4 6) "m1").
  - reflexivity.
  - reflexivity.
  - discriminate.
  - split; reflexivity.
  - repeat constructor.
Defined.

(** ** The table over a node's life *)

Section Growth.

Import Storage.

Variable nd : node.

Lemma row_evolves_refl (r : row) : row_evolves r r.
Proof. unfold row_evolves. repeat split; auto. lia. Qed.

Lemma row_evolves_trans (a b c : row) :
  row_evolves a b -> row_evolves b c -> row_evolves a c.
Proof.
  unfold row_evolves. intros (E1 & F1 & A1 & C1) (E2 & F2 & A2 & C2).
  repeat split; [congruence | auto | auto | lia].
Qed.

Lemma Forall2_row_evolves_refl (t : list row) : Forall2 row_evolves t t.
Proof. induction t; constructor; auto using row_evolves_refl. Qed.

Lemma Forall2_row_evolves_trans (t u v : list row) :
  Forall2 row_evolves t u -> Forall2 row_evolves u v ->
  Forall2 row_evolves t v.
Proof.
  intros H. revert v. induction H as [|a b t u Hab Htu IH]; intros v Huv.
  - inversion Huv. constructor.
  - inversion Huv as [|? c ? v' Hbc Huv']; subst.
    constructor; [exact (row_evolves_trans _ _ _ Hab Hbc) | now apply IH].
Qed.

Lemma grows_refl (t : list row) : grows t t.
Proof.
  exists t, []. rewrite app_nil_r.
  split; [reflexivity | apply Forall2_row_evolves_refl].
Qed.

Lemma grows_trans (t u v : list row) : grows t u -> grows u v -> grows t v.
Proof.
  intros (k1 & e1 & -> & H1) (k2 & e2 & -> & H2).
  apply Forall2_app_inv_l in H2.
  destruct H2 as (k2a & k2b & Ha & Hb & ->).
  exists k2a, (k2b ++ e2). rewrite app_assoc.
  split; [reflexivity | exact (Forall2_row_evolves_trans _ _ _ H1 Ha)].
Qed.

Lemma grows_insert (t : list row) (x : row) : grows t (t ++ [x]).
Proof.
  exists t, [x]. split; [reflexivity | apply Forall2_row_evolves_refl].
Qed.

Lemma grows_update (t : list row) (mid : string) (f : row -> row) :
  (forall r, row_evolves r (f r)) -> grows t (update_where_id mid f t).
Proof.
  intros Hf. exists (update_where_id mid f t), []. rewrite app_nil_r.
  split; [reflexivity|]. unfold update_where_id.
  induction t as [|r t IH]; simpl; constructor; [|exact IH].
  destruct (r_id r =? mid)%string; [apply Hf | apply row_evolves_refl].
Qed.

Lemma set_acknowledged_evolves (r : row) :
  row_evolves r (set_acknowledged 1 r).
Proof. unfold row_evolves. simpl. repeat split; auto. lia. Qed.

Lemma set_forwarded_evolves (r : row) : row_evolves r (set_forwarded 1 r).
Proof. unfold row_evolves. simpl. repeat split; auto. lia. Qed.

Lemma bump_evolves (r : row) : row_evolves r (bump r).
Proof. unfold row_evolves, bump. simpl. repeat split; auto. lia. Qed.

Lemma grows_mark_all (rs t : list row) : grows t (mark_all rs t).
Proof.
  unfold mark_all. revert t. induction rs as [|x rs IH]; intros t; simpl.
  - apply grows_refl.
  - eapply grows_trans; [|apply IH].
    apply grows_update. apply set_forwarded_evolves.
Qed.

Lemma grows_bump_all (rs t : list row) : grows t (bump_all rs t).
Proof.
  unfold bump_all. revert t. induction rs as [|x rs IH]; intros t; simpl.
  - apply grows_refl.
  - eapply grows_trans; [|apply IH].
    apply grows_update. apply bump_evolves.
Qed.

Lemma step_grows (e : event) (w : world) :
  grows (messages w) (messages (exec (step nd e) w)).
Proof.
  destruct e as [msg|uuid subtype dest_id text|online|]; simpl.
  - destruct (on_incoming_message_table nd msg w)
      as [->|[(mid & _ & ->)|(mid & ->)]].
    + apply grows_refl.
    + apply grows_insert.
    + apply grows_update. apply set_acknowledged_evolves.
  - destruct (send_command_table nd uuid subtype dest_id text w)
      as [->|(r & _ & _ & ->)].
    + apply grows_refl.
    + apply grows_insert.
  - destruct (notifier_step_table online w) as [->| ->].
    + apply grows_refl.
    + apply grows_mark_all.
  - unfold exec. rewrite sos_resender_cycle_world. simpl.
    apply grows_bump_all.
Qed.

Lemma run_grows (es : list event) (w : world) :
  grows (messages w) (messages (exec (run nd es) w)).
Proof.
  revert w. induction es as [|e es IH]; intros w; simpl.
  - apply grows_refl.
  - pose proof (step_grows e w) as H1.
    unfold exec in *. unfold bind.
    destruct (step nd e w) as [[] w1]. simpl in H1.
    exact (grows_trans _ _ _ H1 (IH w1)).
Qed.

Lemma grows_nth (t t' : list row) (k : nat) (r : row) :
  grows t t' -> nth_error t k = Some r ->
  exists r', nth_error t' k = Some r' /\ row_evolves r r'.
Proof.
  intros (kept & extra & -> & H). revert k.
  induction H as [|a b t u Hab Htu IH]; intros k Hk.
  - destruct k; discriminate.
  - destruct k as [|k]; simpl in *.
    + inversion Hk; subst. exists b. auto.
    + now apply IH.
Qed.

End Growth.

(** X7.  Whatever a node does (receive packets, [/send], probe passes,
    scheduler passes, in any order), the record at each rowid stays at its
    rowid and keeps its id, origin, destination, type, payload, timestamps,
    hops and ttl; its [forwarded] and [acknowledged] flags, once 1, stay 1;
    its [resend_count] never decreases; no record is deleted. *)
Theorem stored_records_only_evolve
        (nd : node) (es : list event) (w : world) (k : nat) (r : row) :
  nth_error (messages w) k = Some r ->
  let w' := exec (run nd es) w in
  (length (messages w) <= length (messages w'))%nat /\
  exists r', nth_error (messages w') k = Some r' /\
             content r' = content r /\
             (r_forwarded r = 1 -> r_forwarded r' = 1) /\
             (r_acknowledged r = 1 -> r_acknowledged r' = 1) /\
             r_resend_count r <= r_resend_count r'.
Proof.
  intros Hk w'. pose proof (run_grows nd es w) as Hg. fold w' in Hg.
  split.
  - destruct Hg as (kept & extra & -> & H).
    apply Forall2_length in H. rewrite length_app. lia.
  - destruct (grows_nth _ _ k r Hg Hk) as (r' & Hk' & He).
    exists r'. split; [exact Hk' | exact He].
Qed.

Lemma stored_records_only_evolve_witness :
  let w := world_of [sos_row "m1" "A" 0 0; sos_row "m2" "B" 1 0] in
  let es := [Probe true; ResendPass;
             Receive (dm_msg "m3" "C" "" "ALERT" "flood" 1 6);
             Send "m4" "SOS" "" "help"; ResendPass] in
  let w' := exec (run nodeA es) w in
  map r_id (messages w') = ["m1"; "m2"; "m3"; "m4"] /\
  exists r', nth_error (messages w') 1 = Some r' /\
             content r' = content (sos_row "m2" "B" 1 0) /\
             r_acknowledged r' = 1.
Proof.
  intros w es w'. split; [reflexivity|].
  destruct (stored_records_only_evolve nodeA es w 1 (sos_row "m2" "B" 1 0)
                                       eq_refl)
    as (_ & r' & Hk & Hc & _ & Ha & _).
  exists r'. split; [exact Hk|]. split; [exact Hc | exact (Ha eq_refl)].
Defined.

(** ** The scheduler, row by row *)

Section PassRows.

Import Storage.

Variable nd : node.

Lemma filter_filter_eligible (t : list row) :
  filter (resendable nd) (filter is_unacknowledged_sos t)
  = filter (eligible nd) t.
Proof.
  induction t as [|r t IH]; simpl; [reflexivity|].
  assert (E : eligible nd r = is_unacknowledged_sos r && resendable nd r)
    by reflexivity.
  rewrite E. destruct (is_unacknowledged_sos r); simpl; [|exact IH].
  destruct (resendable nd r); [now rewrite IH | exact IH].
Qed.

Lemma bump_all_map (rs t : list row) :
  NoDup (map r_id rs) ->
  bump_all rs t =
  map (fun r => if existsb (fun x => (r_id x =? r_id r)%string) rs
                then bump r else r) t.
Proof.
  unfold bump_all. revert t. induction rs as [|x rs IH]; intros t Hnd; simpl.
  - symmetry. apply map_id.
  - inversion Hnd as [|? ? Hx Hrs]; subst.
    rewrite (IH _ Hrs). unfold update_where_id. rewrite map_map.
    apply map_ext. intros r. rewrite (String.eqb_sym (r_id x) (r_id r)).
    destruct (String.eqb_spec (r_id r) (r_id x)) as [E|E]; simpl;
      [|reflexivity].
    assert (Hno : existsb (fun y => (r_id y =? r_id r)%string) rs = false).
    { destruct (existsb _ rs) eqn:Hex; [|reflexivity].
      apply existsb_exists in Hex. destruct Hex as (y & Hy & Heq).
      apply String.eqb_eq in Heq. exfalso. apply Hx.
      rewrite <- E, <- Heq. now apply in_map. }
    now rewrite Hno.
Qed.

Lemma NoDup_map_filter (p : row -> bool) (t : list row) :
  ids_unique t -> NoDup (map r_id (filter p t)).
Proof.
  unfold ids_unique. induction t as [|r t IH]; simpl; intros Hnd.
  - constructor.
  - inversion Hnd as [|? ? Hr Ht]; subst.
    destruct (p r); simpl; [|now apply IH].
    constructor; [|now apply IH].
    intros Hin. apply Hr. apply in_map_iff in Hin.
    destruct Hin as (y & Hy & Hin). apply filter_In in Hin.
    apply in_map_iff. exists y. tauto.
Qed.

Lemma existsb_filter_unique (p : row -> bool) (t : list row) (r : row) :
  ids_unique t -> In r t ->
  existsb (fun x => (r_id x =? r_id r)%string) (filter p t) = p r.
Proof.
  intros Hu Hr. destruct (p r) eqn:Hp.
  - apply existsb_exists. exists r.
    split; [now apply filter_In | apply String.eqb_refl].
  - destruct (existsb _ (filter p t)) eqn:Hex; [|reflexivity].
    apply existsb_exists in Hex. destruct Hex as (y & Hy & Heq).
    apply filter_In in Hy. destruct Hy as [Hy Hpy].
    apply String.eqb_eq in Heq.
    rewrite (same_id_same_row t y r Hu Hy Hr Heq) in Hpy. congruence.
Qed.

(** One pass on a table with unique ids, in closed form. *)
Lemma sos_resender_cycle_rows (w : world) :
  ids_unique (messages w) ->
  sos_resender_cycle nd w =
  (tt, mkWorld (map (pass_row nd) (messages w))
               (sent w ++ map resend_packet
                              (filter (eligible nd) (messages w)))
               (clock_reads w) (seen_online w) (upstream w)).
Proof.
  intros Hu. rewrite sos_resender_cycle_world. cbv zeta.
  rewrite filter_filter_eligible.
  rewrite bump_all_map by (now apply NoDup_map_filter).
  f_equal. f_equal. apply map_ext_in. intros r Hr. unfold pass_row.
  now rewrite existsb_filter_unique.
Qed.

Lemma pass_row_id (r : row) : r_id (pass_row nd r) = r_id r.
Proof. unfold pass_row. now destruct (eligible nd r). Qed.

Lemma ids_unique_pass (t : list row) :
  ids_unique t -> ids_unique (map (pass_row nd) t).
Proof.
  unfold ids_unique. rewrite map_map.
  now rewrite (map_ext _ r_id pass_row_id).
Qed.

Lemma eligible_true (r : row) :
  eligible nd r = true <->
  r_type r = "SOS" /\ r_acknowledged r = 0 /\ 0 < r_ttl r /\
  r_origin_id r = node_id nd /\ r_resend_count r < MAX_SOS_RESENDS.
Proof.
  unfold eligible, is_unacknowledged_sos.
  rewrite !andb_true_iff, String.eqb_eq, Z.eqb_eq, Z.ltb_lt, resendable_true.
  tauto.
Qed.

Lemma count_msgs_none (i : string) (l : list packet) :
  (forall p, In p l -> p_id p <> Some i) -> count_msgs i l = O.
Proof.
  unfold count_msgs. induction l as [|p l IH]; intros H; simpl.
  - reflexivity.
  - assert (E : is_msg_for i p = false).
    { unfold is_msg_for, holds. destruct (p_id p) as [j|] eqn:Hj.
      - destruct (String.eqb_spec j i) as [->|];
          [exfalso; apply (H p); [now left | exact Hj] | apply andb_false_r].
      - apply andb_false_r. }
    rewrite E. apply IH. intros q Hq. apply H. now right.
Qed.

Lemma count_msgs_resend_unique (t : list row) (r : row) :
  ids_unique t -> In r t ->
  count_msgs (r_id r) (map resend_packet (filter (eligible nd) t))
  = if eligible nd r then 1%nat else O.
Proof.
  unfold ids_unique, count_msgs.
  induction t as [|x t IH]; simpl; intros Hnd Hin; [contradiction|].
  inversion Hnd as [|? ? Hx Ht]; subst.
  assert (Hrest : forall y, In y t -> r_id y <> r_id x).
  { intros y Hy E. apply Hx. rewrite <- E. now apply in_map. }
  destruct Hin as [->|Hin].
  - assert (Hz : length (filter (is_msg_for (r_id r))
                    (map resend_packet (filter (eligible nd) t))) = O).
    { apply count_msgs_none. intros p Hp Hid.
      apply in_map_iff in Hp. destruct Hp as (y & <- & Hy).
      apply filter_In in Hy. simpl in Hid. inversion Hid as [E].
      now apply (Hrest y (proj1 Hy)). }
    destruct (eligible nd r); simpl; [|exact Hz].
    unfold is_msg_for at 1. simpl. rewrite String.eqb_refl. simpl.
    now rewrite Hz.
  - destruct (eligible nd x); simpl; [|now apply IH].
    unfold is_msg_for at 1. simpl.
    destruct (String.eqb_spec (r_id x) (r_id r)) as [E|E].
    + exfalso. now apply (Hrest r Hin).
    + simpl. now apply IH.
Qed.

Lemma filter_seq_succ (f : nat -> bool) (n : nat) :
  length (filter f (seq 0 (S n))) =
  ((if f O then 1 else 0)
   + length (filter (fun k => f (S k)) (seq 0 n)))%nat.
Proof.
  cbn [seq filter]. rewrite <- seq_shift, filter_map_swap.
  destruct (f O); cbn [length]; now rewrite length_map.
Qed.

(** [n] passes on a table with unique ids. *)
Lemma sos_resender_cycles_rows (n : nat) (w : world) :
  ids_unique (messages w) ->
  exists new : list packet,
    sos_resender_cycles nd n w =
    (tt, mkWorld (map (Nat.iter n (pass_row nd)) (messages w))
                 (sent w ++ new) (clock_reads w) (seen_online w)
                 (upstream w)) /\
    forall r, In r (messages w) ->
      count_msgs (r_id r) new =
      length (filter (fun k => eligible nd (Nat.iter k (pass_row nd) r))
                     (seq 0 n)).
Proof.
  revert w. induction n as [|n IH]; intros w Hu.
  - exists []. simpl. unfold ret. rewrite app_nil_r, map_id, world_eta.
    split; [reflexivity | reflexivity].
  - cbn [sos_resender_cycles]. unfold bind.
    rewrite (sos_resender_cycle_rows w Hu).
    destruct (IH (mkWorld (map (pass_row nd) (messages w))
                          (sent w ++ map resend_packet
                                         (filter (eligible nd) (messages w)))
                          (clock_reads w) (seen_online w) (upstream w))
                 (ids_unique_pass _ Hu))
      as (new & E & Hc).
    rewrite E. cbn [messages sent clock_reads seen_online upstream].
    exists (map resend_packet (filter (eligible nd) (messages w)) ++ new).
    split.
    + rewrite map_map, <- app_assoc. do 2 f_equal.
      apply map_ext. intros r. now rewrite Nat.iter_succ_r.
    + intros r Hr. unfold count_msgs. rewrite filter_app, length_app.
      fold (count_msgs (r_id r)
              (map resend_packet (filter (eligible nd) (messages w)))).
      rewrite (count_msgs_resend_unique _ r Hu Hr).
      cbn [messages] in Hc.
      specialize (Hc (pass_row nd r) (in_map _ _ _ Hr)).
      rewrite pass_row_id in Hc. fold (count_msgs (r_id r) new).
      rewrite Hc, filter_seq_succ. cbn [Nat.iter]. f_equal.
      f_equal. apply filter_ext. intros k. f_equal.
      now rewrite <- Nat.iter_succ_r.
Qed.

End PassRows.

Section PassCounts.

Import Storage.

Variable nd : node.

Lemma set_resend_same (r : row) : set_resend (r_resend_count r) r = r.
Proof. now destruct r. Qed.

Lemma eligible_set_resend (r : row) (v : Z) :
  eligible nd (set_resend v r) =
  is_unacknowledged_sos r && negb (neq (r_origin_id r) (node_id nd))
  && (v <? MAX_SOS_RESENDS).
Proof.
  unfold eligible, resendable, is_unacknowledged_sos. simpl.
  rewrite Z.leb_antisym, negb_involutive. now rewrite andb_assoc.
Qed.

(** An own unacknowledged SOS after [k] passes. *)
Lemma iter_pass_row_own (r : row) (k : nat) :
  is_unacknowledged_sos r = true ->
  r_origin_id r = node_id nd ->
  r_resend_count r <= MAX_SOS_RESENDS ->
  Nat.iter k (pass_row nd) r =
  set_resend (Z.min (r_resend_count r + Z.of_nat k) MAX_SOS_RESENDS) r.
Proof.
  intros Hq Ho Hc. induction k as [|k IH].
  - simpl. rewrite Z.add_0_r, Z.min_l by exact Hc.
    symmetry. apply set_resend_same.
  - rewrite Nat.iter_succ, IH. unfold pass_row.
    rewrite eligible_set_resend, Hq. unfold neq. rewrite Ho, String.eqb_refl.
    simpl.
    destruct (Z.ltb_spec (Z.min (r_resend_count r + Z.of_nat k)
                                MAX_SOS_RESENDS) MAX_SOS_RESENDS) as [E|E].
    + unfold bump, set_resend. simpl. f_equal. lia.
    + f_equal. lia.
Qed.

Lemma eligible_iter_own (r : row) (k : nat) :
  is_unacknowledged_sos r = true ->
  r_origin_id r = node_id nd ->
  r_resend_count r <= MAX_SOS_RESENDS ->
  eligible nd (Nat.iter k (pass_row nd) r) =
  (r_resend_count r + Z.of_nat k <? MAX_SOS_RESENDS).
Proof.
  intros Hq Ho Hc. rewrite (iter_pass_row_own r k Hq Ho Hc).
  rewrite eligible_set_resend, Hq. unfold neq. rewrite Ho, String.eqb_refl.
  simpl.
  destruct (Z.ltb_spec (r_resend_count r + Z.of_nat k) MAX_SOS_RESENDS);
    [apply Z.ltb_lt | apply Z.ltb_ge]; lia.
Qed.

Lemma count_below (c m : Z) (n : nat) :
  length (filter (fun k => c + Z.of_nat k <? m) (seq 0 n)) =
  Nat.min n (Z.to_nat (m - c)).
Proof.
  induction n as [|n IH].
  - reflexivity.
  - rewrite seq_S, filter_app, length_app, IH. cbn [filter Nat.add].
    destruct (Z.ltb_spec (c + Z.of_nat n) m); cbn [length]; lia.
Qed.

(** A row the scheduler does not pick stays as it is. *)
Lemma iter_pass_row_skipped (r : row) (k : nat) :
  eligible nd r = false -> Nat.iter k (pass_row nd) r = r.
Proof.
  intros H. induction k as [|k IH]; [reflexivity|].
  rewrite Nat.iter_succ, IH. unfold pass_row. now rewrite H.
Qed.

Lemma iter_pass_row_id (r : row) (k : nat) :
  r_id (Nat.iter k (pass_row nd) r) = r_id r.
Proof.
  induction k as [|k IH]; [reflexivity|].
  rewrite Nat.iter_succ. now rewrite pass_row_id.
Qed.

(** The row that holds the id of [r] after [n] passes. *)
Lemma select_after_cycles (n : nat) (w : world) (r : row) :
  ids_unique (messages w) -> In r (messages w) ->
  exists new : list packet,
    sos_resender_cycles nd n w =
    (tt, mkWorld (map (Nat.iter n (pass_row nd)) (messages w))
                 (sent w ++ new) (clock_reads w) (seen_online w)
                 (upstream w)) /\
    select_by_id (r_id r) (map (Nat.iter n (pass_row nd)) (messages w))
    = Some (Nat.iter n (pass_row nd) r) /\
    count_msgs (r_id r) new =
    length (filter (fun k => eligible nd (Nat.iter k (pass_row nd) r))
                   (seq 0 n)).
Proof.
  intros Hu Hr.
  destruct (sos_resender_cycles_rows nd n w Hu) as (new & E & Hc).
  exists new. split; [exact E|]. split; [|now apply Hc].
  rewrite <- (iter_pass_row_id r n). apply select_by_id_unique.
  - unfold ids_unique. rewrite map_map.
    rewrite (map_ext _ r_id (fun x => iter_pass_row_id x n)). exact Hu.
  - now apply in_map.
Qed.

End PassCounts.

(** X8.  An unacknowledged SOS that this node originated, with a positive
    ttl and [resend_count = c <= MAX_SOS_RESENDS], has after [n] passes of
    the scheduler [resend_count = min (c + n) MAX_SOS_RESENDS], and exactly
    [min n (MAX_SOS_RESENDS - c)] packets were sent for it: one per pass
    until the cap, none after. *)
Theorem own_sos_resent_once_per_pass_until_cap
        (nd : node) (w : world) (n : nat) (r : row) :
  ids_unique (messages w) ->
  In r (messages w) ->
  r_type r = "SOS" ->
  r_acknowledged r = 0 ->
  0 < r_ttl r ->
  r_origin_id r = node_id nd ->
  r_resend_count r <= MAX_SOS_RESENDS ->
  let w' := exec (sos_resender_cycles nd n) w in
  Storage.select_by_id (r_id r) (messages w') =
  Some (set_resend (Z.min (r_resend_count r + Z.of_nat n) MAX_SOS_RESENDS) r)
  /\
  count_msgs (r_id r) (emissions (sos_resender_cycles nd n) w) =
  Nat.min n (Z.to_nat (MAX_SOS_RESENDS - r_resend_count r)).
Proof.
  intros Hu Hr Hty Hack Httl Ho Hc w'.
  assert (Hq : Storage.is_unacknowledged_sos r = true).
  { unfold Storage.is_unacknowledged_sos. rewrite Hty, Hack. simpl.
    now apply Z.ltb_lt. }
  destruct (select_after_cycles nd n w r Hu Hr) as (new & E & Hsel & Hcount).
  subst w'. rewrite (emissions_of _ w new) by (unfold exec; now rewrite E).
  unfold exec. rewrite E. cbn [snd messages].
  rewrite Hsel, Hcount, (iter_pass_row_own nd r n Hq Ho Hc).
  split; [reflexivity|].
  rewrite (filter_ext _ (fun k => r_resend_count r + Z.of_nat k
                                  <? MAX_SOS_RESENDS)
                      (fun k => eligible_iter_own nd r k Hq Ho Hc)).
  apply count_below.
Qed.

Lemma own_sos_resent_once_per_pass_until_cap_witness :
  let r := sos_row "m1" "A" 0 4 in
  let w := world_of [sos_row "m0" "B" 0 0; r] in
  map r_resend_count (messages (exec (sos_resender_cycles nodeA 5) w))
  = [0; 6] /\
  count_msgs "m1" (emissions (sos_resender_cycles nodeA 5) w) = 2%nat.
Proof.
  intros r w. split; [reflexivity|].
  assert (Hu : ids_unique (messages w)).
  { unfold ids_unique. simpl.
    repeat constructor; simpl; intuition discriminate. }
  assert (Hin : In r (messages w)) by (right; now left).
  assert (Hc : r_resend_count r <= MAX_SOS_RESENDS)
    by (unfold MAX_SOS_RESENDS; simpl; lia).
  exact (proj2 (own_sos_resent_once_per_pass_until_cap
                  nodeA w 5 r Hu Hin eq_refl eq_refl eq_refl eq_refl Hc)).
Defined.

(** X9.  A stored message that is acknowledged, or is not of type SOS, or
    has [ttl <= 0], is never resent by the scheduler and is not modified by
    it, over any number of passes. *)
Theorem scheduler_skips_what_the_query_excludes
        (nd : node) (w : world) (n : nat) (r : row) :
  ids_unique (messages w) ->
  In r (messages w) ->
  r_type r <> "SOS" \/ r_acknowledged r <> 0 \/ r_ttl r <= 0 ->
  Storage.select_by_id (r_id r) (messages (exec (sos_resender_cycles nd n) w))
  = Some r /\
  count_msgs (r_id r) (emissions (sos_resender_cycles nd n) w) = O.
Proof.
  intros Hu Hr Hex.
  assert (Hno : eligible nd r = false).
  { destruct (eligible nd r) eqn:E; [|reflexivity].
    apply eligible_true in E. destruct E as (E1 & E2 & E3 & _).
    destruct Hex as [H|[H|H]]; [contradiction | contradiction | lia]. }
  destruct (select_after_cycles nd n w r Hu Hr) as (new & E & Hsel & Hcount).
  rewrite (emissions_of _ w new) by (unfold exec; now rewrite E).
  unfold exec. rewrite E. cbn [snd messages].
  rewrite Hsel, Hcount, (iter_pass_row_skipped nd r n Hno).
  split; [reflexivity|].
  rewrite (filter_ext _ (fun _ => false)).
  - generalize (seq 0 n). clear. intros l.
    induction l as [|k l IH]; simpl; auto.
  - intros k. now rewrite (iter_pass_row_skipped nd r k Hno).
Qed.

Lemma scheduler_skips_what_the_query_excludes_witness :
  let r := sos_row "m1" "A" 1 2 in
  let w := world_of [r; sos_row "m2" "A" 0 0] in
  Storage.select_by_id "m1" (messages (exec (sos_resender_cycles nodeA 4) w))
  = Some r /\
  count_msgs "m1" (emissions (sos_resender_cycles nodeA 4) w) = O.
Proof.
  intros r w.
  apply (scheduler_skips_what_the_query_excludes nodeA w 4 r).
  - unfold ids_unique. simpl.
    repeat constructor; simpl; intuition discriminate.
  - now left.
  - right. left. discriminate.
Defined.

(** ** Acknowledgement and the scheduler *)

(** X10.  Once a node has handled a DM_ACK that names a message in its
    store, the scheduler never resends that message: over any number of
    passes no packet goes out for its id and its record stays as the
    acknowledgement left it.  The [/ack] command of any node sends such a
    DM_ACK, and nothing else. *)
Theorem acknowledgement_stops_resends
        (nd : node) (ack : packet) (w : world) (n : nat) (r : row) :
  ids_unique (messages w) ->
  In r (messages w) ->
  r_id r <> "" ->
  get (p_type ack) "" = "DM_ACK" ->
  p_orig_msg_id ack = Some (r_id r) ->
  let w1 := exec (on_incoming_message nd ack) w in
  let w2 := exec (sos_resender_cycles nd n) w1 in
  Storage.select_by_id (r_id r) (messages w2) = Some (set_acknowledged 1 r) /\
  count_msgs (r_id r) (emissions (sos_resender_cycles nd n) w1) = O /\
  (forall (sender : node) (ws : world),
      emissions (ack_command sender (r_id r)) ws
      = [ack_packet sender (r_id r) (clock sender (clock_reads ws))] /\
      messages (exec (ack_command sender (r_id r)) ws) = messages ws).
Proof.
  intros Hu Hr Hid Ht Horig w1 w2.
  assert (E1 : messages w1 =
               Storage.update_where_id (r_id r) (set_acknowledged 1)
                                       (messages w)).
  { unfold w1, exec. now rewrite (dm_ack_marks nd ack w (r_id r) Ht Horig Hid). }
  assert (Hu1 : ids_unique (messages w1)).
  { unfold ids_unique. rewrite E1. now rewrite update_where_id_ids. }
  assert (Hr1 : In (set_acknowledged 1 r) (messages w1)).
  { rewrite E1. unfold Storage.update_where_id. apply in_map_iff.
    exists r. now rewrite String.eqb_refl. }
  assert (Hno : eligible nd (set_acknowledged 1 r) = false).
  { unfold eligible, Storage.is_unacknowledged_sos. simpl.
    now rewrite andb_false_r. }
  destruct (select_after_cycles nd n w1 (set_acknowledged 1 r) Hu1 Hr1)
    as (new & E & Hsel & Hcount).
  simpl (r_id (set_acknowledged 1 r)) in Hsel, Hcount.
  split; [|split].
  - unfold w2, exec. rewrite E. cbn [snd messages].
    now rewrite Hsel, (iter_pass_row_skipped nd _ n Hno).
  - rewrite (emissions_of _ w1 new) by (unfold exec; now rewrite E).
    rewrite Hcount, (filter_ext _ (fun _ => false)).
    + generalize (seq 0 n). intros l.
      induction l as [|k l IH]; simpl; auto.
    + intros k. now rewrite (iter_pass_row_skipped nd _ k Hno).
  - intros sender ws. split; [|reflexivity].
    apply emissions_of. reflexivity.
Qed.

Lemma acknowledgement_stops_resends_witness :
  let r := sos_row "m1" "A" 0 2 in
  let w := world_of [r] in
  let ack := ack_packet nodeB "m1" "2025-01-01T00:00:09+00:00" in
  let w1 := exec (on_incoming_message nodeA ack) w in
  count_msgs "m1" (emissions (sos_resender_cycles nodeA 1) w) = 1%nat /\
  count_msgs "m1" (emissions (sos_resender_cycles nodeA 5) w1) = O.
Proof.
  intros r w ack w1. split; [reflexivity|].
  assert (Hu : ids_unique (messages w)).
  { unfold ids_unique. simpl. repeat constructor. intros []. }
  assert (Hin : In r (messages w)) by now left.
  assert (Hid : r_id r <> "") by discriminate.
  exact (proj1 (proj2 (acknowledgement_stops_resends
                         nodeA ack w 5 r Hu Hin Hid eq_refl eq_refl))).
Defined.

(** ** The status columns stay in range *)

Section RowsInRange.

Import Storage.

Variable nd : node.

Lemma send_command_world (uuid subtype dest_id text : string) (w : world) :
  send_command nd uuid subtype dest_id text w =
  (tt, mkWorld
         (match select_by_id uuid (messages w) with
          | Some _ => messages w
          | None => messages w ++ [command_row nd uuid subtype dest_id text w]
          end)
         (sent w ++ [command_packet nd uuid subtype dest_id text w])
         (3 + clock_reads w) (seen_online w) (upstream w)).
Proof.
  unfold send_command, bind, now_iso.
  destruct (select_by_id uuid (messages w)) as [r|] eqn:Hsel.
  - erewrite insert_message_present;
      [reflexivity | apply command_in_range | simpl; exact Hsel].
  - erewrite insert_message_absent;
      [reflexivity | apply command_in_range | simpl; exact Hsel].
Qed.

Lemma Forall_update (P : row -> Prop) (mid : string) (f : row -> row)
      (t : list row) :
  (forall r, P r -> P (f r)) ->
  Forall P t -> Forall P (update_where_id mid f t).
Proof.
  intros Hf H. unfold update_where_id. apply Forall_map.
  eapply Forall_impl; [|exact H]. intros r Hr. simpl.
  destruct (r_id r =? mid)%string; auto.
Qed.

Lemma Forall_mark_all (P : row -> Prop) (rs t : list row) :
  (forall r, P r -> P (set_forwarded 1 r)) ->
  Forall P t -> Forall P (mark_all rs t).
Proof.
  intros Hf. unfold mark_all. revert t.
  induction rs as [|x rs IH]; intros t H; simpl; [exact H|].
  apply IH. now apply Forall_update.
Qed.

Lemma row_ok_step (e : event) (w : world) :
  ids_unique (messages w) -> Forall row_ok (messages w) ->
  Forall row_ok (messages (exec (step nd e) w)).
Proof.
  intros Hu Hok. destruct e as [msg|uuid subtype dest_id text|online|]; simpl.
  - destruct (on_incoming_message_table nd msg w)
      as [->|[(mid & _ & ->)|(mid & ->)]].
    + exact Hok.
    + apply Forall_app. split; [exact Hok|]. constructor; [|constructor].
      unfold row_ok, MAX_SOS_RESENDS. simpl. intuition lia.
    + apply Forall_update; [|exact Hok].
      unfold row_ok. simpl. intuition.
  - unfold exec. rewrite send_command_world. simpl.
    destruct (select_by_id uuid (messages w)); [exact Hok|].
    apply Forall_app. split; [exact Hok|]. constructor; [|constructor].
    unfold row_ok, MAX_SOS_RESENDS. simpl. intuition lia.
  - destruct (notifier_step_table online w) as [->| ->].
    + exact Hok.
    + apply Forall_mark_all; [|exact Hok].
      unfold row_ok. simpl. intuition.
  - unfold exec. rewrite (sos_resender_cycle_rows nd w Hu). simpl.
    apply Forall_map. eapply Forall_impl; [|exact Hok].
    intros r (Hf & Ha & Hc). unfold pass_row.
    destruct (eligible nd r) eqn:E; [|repeat split; tauto].
    apply eligible_true in E. unfold row_ok, bump. simpl.
    repeat split; try tauto; lia.
Qed.

Lemma row_ok_run (es : list event) (w : world) :
  ids_unique (messages w) -> Forall row_ok (messages w) ->
  Forall row_ok (messages (exec (run nd es) w)).
Proof.
  revert w. induction es as [|e es IH]; intros w Hu Hok; simpl.
  - exact Hok.
  - pose proof (row_ok_step e w Hu Hok) as H1.
    destruct (step_keeps nd e w Hu) as [Hu1 _].
    unfold exec in *. unfold bind.
    destruct (step nd e w) as [[] w1]. simpl in H1, Hu1.
    now apply IH.
Qed.

End RowsInRange.

(** X11.  In every state a node reaches from an empty table, whatever it
    receives, sends, probes or resends, every record has [forwarded] and
    [acknowledged] in {0, 1} and [0 <= resend_count <= MAX_SOS_RESENDS];
    the same holds from any table that has unique ids and is in range. *)
Theorem status_columns_stay_in_range
        (nd : node) (es : list event) (w : world) :
  ids_unique (messages w) ->
  Forall row_ok (messages w) ->
  Forall row_ok (messages (exec (run nd es) w)) /\
  (forall w0 : world, messages w0 = [] ->
     forall r, In r (messages (exec (run nd es) w0)) ->
       (r_forwarded r = 0 \/ r_forwarded r = 1) /\
       (r_acknowledged r = 0 \/ r_acknowledged r = 1) /\
       0 <= r_resend_count r <= MAX_SOS_RESENDS).
Proof.
  intros Hu Hok. split.
  - now apply row_ok_run.
  - intros w0 H0 r Hr.
    assert (H : Forall row_ok (messages (exec (run nd es) w0))).
    { apply row_ok_run; rewrite H0; [constructor | constructor]. }
    rewrite Forall_forall in H. exact (H r Hr).
Qed.

Lemma status_columns_stay_in_range_witness :
  let es := [Send "m1" "SOS" "" "help"; ResendPass; ResendPass; ResendPass;
             ResendPass; ResendPass; ResendPass; ResendPass; ResendPass;
             Probe true] in
  map r_resend_count (messages (exec (run nodeA es) world0)) = [6] /\
  Forall row_ok (messages (exec (run nodeA es) world0)).
Proof.
  intros es. split; [reflexivity|].
  apply (status_columns_stay_in_range nodeA es world0).
  - constructor.
  - constructor.
Defined.

(** ** Originating a message *)

(** X12.  [/send] always broadcasts one DM_MSG with [hops = 0] and
    [ttl = MESSAGE_TTL] under the drawn id.  When the id is new, it stores a
    record with this node as origin, the same type, destination, payload,
    timestamp and ttl as the packet, and all status columns 0; when the id
    is already in the store, the table is left as it is and the packet is
    broadcast all the same. *)
Theorem send_command_stores_and_broadcasts
        (nd : node) (uuid subtype dest_id text : string) (w : world) :
  let w' := exec (send_command nd uuid subtype dest_id text) w in
  let pkt := command_packet nd uuid subtype dest_id text w in
  let r := command_row nd uuid subtype dest_id text w in
  emitted w w' [pkt] /\
  p_id pkt = Some uuid /\ p_hops pkt = Some 0 /\
  p_ttl pkt = Some MESSAGE_TTL /\
  (Storage.select_by_id uuid (messages w) = None ->
   messages w' = messages w ++ [r] /\
   Storage.select_by_id uuid (messages w') = Some r /\
   r_origin_id r = node_id nd /\
   Some (r_type r) = p_subtype pkt /\ Some (r_dest_id r) = p_dest_id pkt /\
   Some (r_payload r) = p_payload pkt /\
   Some (r_timestamp r) = p_timestamp pkt /\
   Some (r_ttl r) = p_ttl pkt /\ Some (r_hops r) = p_hops pkt /\
   r_forwarded r = 0 /\ r_acknowledged r = 0 /\ r_resend_count r = 0) /\
  (Storage.select_by_id uuid (messages w) <> None ->
   messages w' = messages w).
Proof.
  intros w' pkt r. subst w'. unfold exec, emitted.
  rewrite send_command_world. cbn [snd messages sent]. fold pkt r.
  split; [reflexivity|]. split; [reflexivity|]. split; [reflexivity|].
  split; [reflexivity|]. split.
  - intros Hsel. rewrite Hsel. split; [reflexivity|]. split.
    + rewrite select_by_id_app, Hsel. unfold Storage.select_by_id. simpl.
      now rewrite String.eqb_refl.
    + repeat split; reflexivity.
  - intros Hsel. destruct (Storage.select_by_id uuid (messages w));
      [reflexivity | contradiction].
Qed.

Lemma send_command_stores_and_broadcasts_witness :
  let w1 := exec (send_command nodeA "u1" "ALERT" "B" "water rising") world0 in
  let w2 := exec (send_command nodeA "u1" "SOS" "" "again") w1 in
  map r_type (messages w1) = ["ALERT"] /\
  messages w2 = messages w1 /\ length (sent w2) = 2%nat.
Proof.
  intros w1 w2. split; [reflexivity|]. split; [|reflexivity].
  apply (send_command_stores_and_broadcasts nodeA "u1" "SOS" "" "again" w1).
  discriminate.
Defined.

(** X13.  An SOS sent by [/send] under a new id and never acknowledged goes
    out once by the command and once more in each of the next scheduler
    passes up to MAX_SOS_RESENDS: [1 + min n MAX_SOS_RESENDS] transmissions
    after [n] passes; a message of any other type goes out once only. *)
Theorem sent_sos_transmission_count
        (nd : node) (uuid subtype dest_id text : string) (w : world)
        (n : nat) :
  ids_unique (messages w) ->
  Storage.select_by_id uuid (messages w) = None ->
  let w1 := exec (send_command nd uuid subtype dest_id text) w in
  (count_msgs uuid (emissions (send_command nd uuid subtype dest_id text) w)
   + count_msgs uuid (emissions (sos_resender_cycles nd n) w1))%nat =
  if (subtype =? "SOS")%string
  then (1 + Nat.min n (Z.to_nat MAX_SOS_RESENDS))%nat
  else 1%nat.
Proof.
  intros Hu Hsel w1.
  set (r := command_row nd uuid subtype dest_id text w).
  assert (E1 : emissions (send_command nd uuid subtype dest_id text) w
               = [command_packet nd uuid subtype dest_id text w]).
  { apply emissions_of. unfold exec. now rewrite send_command_world. }
  assert (Em : messages w1 = messages w ++ [r]).
  { unfold w1, exec. rewrite send_command_world. cbn [snd messages].
    now rewrite Hsel. }
  assert (Hu1 : ids_unique (messages w1)).
  { rewrite Em. apply ids_unique_insert; [exact Hu | exact Hsel]. }
  assert (Hr1 : In r (messages w1))
    by (rewrite Em; apply in_or_app; right; now left).
  destruct (select_after_cycles nd n w1 r Hu1 Hr1) as (new & E & _ & Hcount).
  rewrite E1, (emissions_of _ w1 new) by (unfold exec; now rewrite E).
  change (r_id r) with uuid in Hcount. rewrite Hcount.
  assert (H1 : count_msgs uuid [command_packet nd uuid subtype dest_id text w]
               = 1%nat).
  { unfold count_msgs, is_msg_for. simpl. now rewrite String.eqb_refl. }
  rewrite H1.
  destruct (String.eqb_spec subtype "SOS") as [Hs|Hs].
  - assert (Hq : Storage.is_unacknowledged_sos r = true)
      by (unfold Storage.is_unacknowledged_sos; simpl; now rewrite Hs).
    assert (Hc : r_resend_count r <= MAX_SOS_RESENDS)
      by (unfold MAX_SOS_RESENDS; simpl; lia).
    rewrite (filter_ext _ (fun k => r_resend_count r + Z.of_nat k
                                    <? MAX_SOS_RESENDS)
                        (fun k => eligible_iter_own nd r k Hq eq_refl Hc)).
    rewrite count_below. simpl (r_resend_count r). now rewrite Z.sub_0_r.
  - assert (Hno : eligible nd r = false).
    { unfold eligible, Storage.is_unacknowledged_sos. simpl.
      destruct (String.eqb_spec subtype "SOS"); [contradiction|reflexivity]. }
    rewrite (filter_ext _ (fun _ => false)).
    + generalize (seq 0 n). intros l.
      induction l as [|k l IH]; simpl; auto.
    + intros k. now rewrite (iter_pass_row_skipped nd r k Hno).
Qed.

Lemma sent_sos_transmission_count_witness :
  let w1 := exec (send_command nodeA "u1" "SOS" "" "help") world0 in
  (count_msgs "u1" (emissions (send_command nodeA "u1" "SOS" "" "help") world0)
   + count_msgs "u1" (emissions (sos_resender_cycles nodeA 9) w1))%nat
  = 7%nat.
Proof.
  intros w1.
  apply (sent_sos_transmission_count nodeA "u1" "SOS" "" "help" world0 9).
  - constructor.
  - reflexivity.
Defined.

(** ** From store to wire to store *)

(** X14.  A message sent by [/send] at one node and seen for the first time
    by another is stored there with the same id, origin, destination, type,
    payload, ttl and timestamp as at its origin, with [hops = 0] and all
    status columns 0. *)
Theorem sent_message_is_stored_alike_at_receiver
        (a b : node) (uuid subtype dest_id text : string) (wa wb : world) :
  uuid <> "" ->
  dest_id = "" \/ dest_id = node_id b ->
  Storage.select_by_id uuid (messages wb) = None ->
  let pkt := command_packet a uuid subtype dest_id text wa in
  let ra := command_row a uuid subtype dest_id text wa in
  let wb' := exec (on_incoming_message b pkt) wb in
  exists rb : row,
    Storage.select_by_id uuid (messages wb') = Some rb /\
    message_columns rb = message_columns ra /\
    r_timestamp rb = r_timestamp ra /\
    r_hops rb = 0 /\ r_hops ra = 0 /\
    r_forwarded rb = 0 /\ r_acknowledged rb = 0 /\ r_resend_count rb = 0.
Proof.
  intros Hid Hdest Hsel pkt ra wb'.
  exists (admitted_row b pkt uuid wb). subst wb'. unfold exec.
  rewrite (dm_msg_admitted b pkt wb uuid eq_refl Hdest eq_refl Hid Hsel
                           (conj eq_refl eq_refl)).
  cbn [snd messages]. split.
  - rewrite select_by_id_app, Hsel. unfold Storage.select_by_id. simpl.
    now rewrite String.eqb_refl.
  - repeat split; reflexivity.
Qed.

Lemma sent_message_is_stored_alike_at_receiver_witness :
  let pkt := command_packet nodeA "u1" "SOS" "" "help" world0 in
  let wb' := exec (on_incoming_message nodeB pkt) world0 in
  exists rb, Storage.select_by_id "u1" (messages wb') = Some rb /\
             message_columns rb
             = message_columns (command_row nodeA "u1" "SOS" "" "help" world0).
Proof.
  intros pkt wb'.
  destruct (sent_message_is_stored_alike_at_receiver
              nodeA nodeB "u1" "SOS" "" "help" world0 world0)
    as (rb & H1 & H2 & _).
  - discriminate.
  - now left.
  - reflexivity.
  - exists rb. split; [exact H1 | exact H2].
Defined.

(** X15.  The copy a node re-emits is stored by the next node that sees it
    for the first time with the same id, origin, destination, type, payload
    and ttl as the first node stored, and with one hop more.  The stored
    timestamp is the packet's when it carries one; when it carries none,
    each node stores its own clock reading. *)
Theorem relayed_message_keeps_content
        (n1 n2 : node) (msg out : packet) (w1 w2 : world) (mid : string) :
  first_seen n1 msg w1 mid ->
  relayed_copy n1 msg w1 = Some out ->
  first_seen n2 out w2 mid ->
  let r1 := admitted_row n1 msg mid w1 in
  let r2 := admitted_row n2 out mid w2 in
  Storage.select_by_id mid (messages (exec (on_incoming_message n1 msg) w1))
  = Some r1 /\
  Storage.select_by_id mid (messages (exec (on_incoming_message n2 out) w2))
  = Some r2 /\
  message_columns r2 = message_columns r1 /\
  r_hops r2 = r_hops r1 + 1 /\
  (forall ts, p_timestamp msg = Some ts ->
              r_timestamp r1 = ts /\ r_timestamp r2 = ts) /\
  (p_timestamp msg = None ->
   r_timestamp r1 = clock n1 (clock_reads w1) /\
   r_timestamp r2 = clock n2 (clock_reads w2)).
Proof.
  intros Hfs1 Hrel Hfs2 r1 r2.
  pose proof (relayed_copy_in_range n1 msg out w1 Hrel) as Hfit1.
  apply relayed_copy_some in Hrel. destruct Hrel as [Hlt ->].
  pose proof (in_range_set_hops msg Hfit1 Hlt) as Hfit2.
  destruct Hfs1 as (Ht1 & Hd1 & Hi1 & Hm1 & Hs1).
  destruct Hfs2 as (Ht2 & Hd2 & Hi2 & Hm2 & Hs2).
  unfold exec.
  rewrite (dm_msg_admitted n1 msg w1 mid Ht1 Hd1 Hi1 Hm1 Hs1 Hfit1).
  rewrite (dm_msg_admitted n2 _ w2 mid Ht2 Hd2 Hi2 Hm2 Hs2 Hfit2).
  cbn [snd messages]. fold r1 r2.
  rewrite !select_by_id_app, Hs1, Hs2. unfold Storage.select_by_id.
  simpl. rewrite String.eqb_refl.
  split; [reflexivity|]. split; [reflexivity|]. split; [reflexivity|].
  split; [reflexivity|]. split.
  - intros ts Hts. unfold r1, r2, admitted_row. simpl. rewrite Hts. auto.
  - intros Hts. unfold r1, r2, admitted_row. simpl. rewrite Hts. auto.
Qed.

Lemma relayed_message_keeps_content_witness :
  let msg := bare_msg "m9" in
  let out := set_hops msg 1 in
  r_hops (admitted_row nodeB out "m9" world0) = 1 /\
  message_columns (admitted_row nodeB out "m9" world0)
  = message_columns (admitted_row nodeA msg "m9" world0).
Proof.
  intros msg out.
  destruct (relayed_message_keeps_content
              nodeA nodeB msg out world0 world0 "m9")
    as (_ & _ & H1 & H2 & _).
  - split; [reflexivity|]. split; [left; reflexivity|].
    split; [reflexivity|]. split; [discriminate | reflexivity].
  - reflexivity.
  - split; [reflexivity|]. split; [left; reflexivity|].
    split; [reflexivity|]. split; [discriminate | reflexivity].
  - split; [exact H2 | exact H1].
Defined.

(** X16.  The packet the scheduler rebuilds from a stored record whose ttl
    fits SQLite's 64-bit INTEGER (as that of every record read from the
    table does), seen for the first time by another node, is stored there
    with the record's id, origin, destination, type, payload, ttl and
    timestamp, and with [hops = 0] whatever hops the record has: a resend
    is a new flood. *)
Theorem resent_message_is_stored_as_new_flood
        (b : node) (r : row) (wb : world) :
  r_id r <> "" ->
  r_dest_id r = "" \/ r_dest_id r = node_id b ->
  fits_integer (r_ttl r) = true ->
  Storage.select_by_id (r_id r) (messages wb) = None ->
  let wb' := exec (on_incoming_message b (resend_packet r)) wb in
  exists rb : row,
    Storage.select_by_id (r_id r) (messages wb') = Some rb /\
    message_columns rb = message_columns r /\
    r_timestamp rb = r_timestamp r /\
    r_hops rb = 0 /\
    emitted wb wb'
      (admission_packets b (resend_packet r) wb (r_id r)).
Proof.
  intros Hid Hdest Hfit Hsel wb'.
  exists (admitted_row b (resend_packet r) (r_id r) wb).
  subst wb'. unfold exec, emitted.
  rewrite (dm_msg_admitted b (resend_packet r) wb (r_id r)
                           eq_refl Hdest eq_refl Hid Hsel
                           (conj eq_refl Hfit)).
  cbn [snd messages sent]. split.
  - rewrite select_by_id_app, Hsel. unfold Storage.select_by_id. simpl.
    now rewrite String.eqb_refl.
  - repeat split; reflexivity.
Qed.

Lemma resent_message_is_stored_as_new_flood_witness :
  let r := sos_row "m1" "A" 0 3 in
  exists rb,
    Storage.select_by_id "m1"
      (messages (exec (on_incoming_message nodeB (resend_packet r)) world0))
    = Some rb /\ message_columns rb = message_columns r /\ r_hops rb = 0.
Proof.
  intros r.
  destruct (resent_message_is_stored_as_new_flood nodeB r world0)
    as (rb & H1 & H2 & _ & H3 & _).
  - discriminate.
  - now left.
  - reflexivity.
  - reflexivity.
  - exists rb. split; [exact H1|]. split; [exact H2 | exact H3].
Defined.

(** ** After a forwarding batch *)

Section AfterBatch.

Import Storage.

Lemma mark_all_pending (t : list row) :
  mark_all (filter is_pending t) t = map (mark_row t) t.
Proof. apply mark_all_map. Qed.

Lemma mark_row_id (t : list row) (r : row) : r_id (mark_row t r) = r_id r.
Proof. unfold mark_row. now destruct (existsb _ _). Qed.

Lemma mark_row_open_sos (t : list row) (r : row) :
  is_open_sos (mark_row t r) = is_open_sos r.
Proof. unfold mark_row. now destruct (existsb _ _). Qed.

Lemma mark_row_by_id (t : list row) (r x : row) :
  In x t -> is_pending x = true -> r_id x = r_id r ->
  mark_row t r = set_forwarded 1 r.
Proof.
  intros Hx Hp E. unfold mark_row.
  assert (Hex : existsb (fun y => (r_id y =? r_id r)%string)
                        (filter is_pending t) = true).
  { apply existsb_exists. exists x.
    split; [now apply filter_In | now apply String.eqb_eq]. }
  now rewrite Hex.
Qed.

Lemma mark_row_forwarded (t : list row) (r : row) :
  In r t -> r_forwarded (mark_row t r) <> 0.
Proof.
  intros Hr. destruct (is_pending r) eqn:Hp.
  - rewrite (mark_row_by_id t r r Hr Hp eq_refl). discriminate.
  - unfold mark_row. destruct (existsb _ _); [discriminate|].
    unfold is_pending in Hp. apply orb_false_iff in Hp.
    destruct Hp as [Hp _]. now apply Z.eqb_neq.
Qed.

Lemma pending_open_sos (r : row) :
  r_forwarded r <> 0 -> is_pending r = is_open_sos r.
Proof.
  intros H. unfold is_pending, is_open_sos.
  destruct (Z.eqb_spec (r_forwarded r) 0); [contradiction | reflexivity].
Qed.

Lemma filter_none {A : Type} (p : A -> bool) (l : list A) :
  Forall (fun x => p x = false) l -> filter p l = [].
Proof.
  induction 1 as [|x l Hx _ IH]; simpl; [reflexivity|]. now rewrite Hx.
Qed.

(** The state a forwarding batch leaves. *)
Lemma batch_state (w : world) :
  seen_online w = false ->
  messages (exec (notifier_step true) w) = map (mark_row (messages w))
                                               (messages w) /\
  Forall (fun r => r_forwarded r <> 0)
         (messages (exec (notifier_step true) w)).
Proof.
  intros H. unfold exec. rewrite (notifier_step_edge w H). cbn [snd messages].
  rewrite mark_all_pending. split; [reflexivity|].
  apply Forall_forall. intros x Hx.
  apply in_map_iff in Hx. destruct Hx as (r & <- & Hr).
  now apply mark_row_forwarded.
Qed.

(** A second batch right after a batch marks nothing new. *)
Lemma mark_row_twice (t : list row) :
  map (mark_row (map (mark_row t) t)) (map (mark_row t) t)
  = map (mark_row t) t.
Proof.
  rewrite map_map. apply map_ext_in. intros r Hr.
  unfold mark_row at 1.
  destruct (existsb _ (filter is_pending (map (mark_row t) t))) eqn:Hex;
    [|reflexivity].
  apply existsb_exists in Hex. destruct Hex as (y & Hy & Heq).
  apply String.eqb_eq in Heq. rewrite mark_row_id in Heq.
  apply filter_In in Hy. destruct Hy as [Hy Hpy].
  apply in_map_iff in Hy. destruct Hy as (x & <- & Hx).
  rewrite (pending_open_sos _ (mark_row_forwarded t x Hx)) in Hpy.
  rewrite mark_row_open_sos in Hpy. rewrite mark_row_id in Heq.
  assert (Hpx : is_pending x = true).
  { unfold is_pending. unfold is_open_sos in Hpy. rewrite Hpy.
    apply orb_true_r. }
  now rewrite (mark_row_by_id t r x Hx Hpx Heq).
Qed.

End AfterBatch.

(** X17.  After a forwarding batch no record is left with [forwarded = 0]:
    [list_messages(unseen_only=True)] is empty, and what
    [get_pending_messages] still returns is exactly the SOS records that
    are not acknowledged; no record was added or removed. *)
Theorem batch_leaves_only_open_sos_pending (w : world) :
  seen_online w = false ->
  let w' := exec (notifier_step true) w in
  fst (Storage.list_messages true w') = [] /\
  fst (Storage.get_pending_messages w') = filter is_open_sos (messages w') /\
  map r_id (messages w') = map r_id (messages w) /\
  (forall r, In r (messages w') -> r_forwarded r <> 0).
Proof.
  intros H w'. destruct (batch_state w H) as [Em Hall]. fold w' in Em, Hall.
  unfold Storage.list_messages, Storage.get_pending_messages. cbn [fst].
  split; [|split; [|split]].
  - rewrite filter_none; [reflexivity|].
    eapply Forall_impl; [|exact Hall]. intros r Hr. now apply Z.eqb_neq.
  - apply filter_ext_in. intros r Hr. rewrite Forall_forall in Hall.
    apply pending_open_sos. now apply Hall.
  - rewrite Em, map_map. apply map_ext. intros r. apply mark_row_id.
  - now apply Forall_forall.
Qed.

Lemma batch_leaves_only_open_sos_pending_witness :
  let w := world_of [sos_row "m1" "A" 0 0; sos_row "m2" "B" 1 0;
                     sos_row "m3" "C" 0 1] in
  let w' := exec (notifier_step true) w in
  fst (Storage.list_messages true w') = [] /\
  map r_id (fst (Storage.get_pending_messages w')) = ["m1"; "m3"].
Proof.
  intros w w'.
  destruct (batch_leaves_only_open_sos_pending w eq_refl) as (H1 & H2 & _).
  split; [exact H1|]. fold w' in H2. rewrite H2. reflexivity.
Defined.

(** X18.  At the next reconnection (an offline observation, then an online
    one) the batch consists of exactly the SOS records still not
    acknowledged, which are forwarded again; no other record is forwarded a
    second time, and the table is left as the first batch left it. *)
Theorem next_batch_repeats_open_sos_only (w : world) :
  seen_online w = false ->
  let w1 := exec (notifier_step true) w in
  let w2 := exec (notifier_run [false; true]) w1 in
  upstream w2 =
  upstream w1 ++ Connectivity_detected
                 :: map forwarding_line (filter is_open_sos (messages w1)) /\
  messages w2 = messages w1.
Proof.
  intros H w1 w2. destruct (batch_state w H) as [Em Hall]. fold w1 in Em, Hall.
  assert (Hp : filter Storage.is_pending (messages w1)
               = filter is_open_sos (messages w1)).
  { apply filter_ext_in. intros r Hr. rewrite Forall_forall in Hall.
    apply pending_open_sos. now apply Hall. }
  assert (E : notifier_run [false; true] w1 =
              (tt, mkWorld (mark_all (filter Storage.is_pending (messages w1))
                                     (messages w1))
                           (sent w1) (clock_reads w1) true
                           (upstream w1 ++ Connectivity_detected
                              :: map forwarding_line
                                   (filter Storage.is_pending (messages w1))))).
  { simpl. unfold bind. rewrite notifier_step_offline.
    rewrite notifier_step_edge by reflexivity. reflexivity. }
  unfold w2, exec. rewrite E. cbn [snd messages upstream].
  split; [now rewrite Hp|].
  rewrite mark_all_pending, Em. apply mark_row_twice.
Qed.

Lemma next_batch_repeats_open_sos_only_witness :
  let alert := mkRow "m2" "B" "B" "" "ALERT" "flood" "t" "t" 0 6 0 0 0 in
  let w := world_of [sos_row "m1" "A" 0 0; alert] in
  let w2 := exec (notifier_run [true; false; true]) w in
  upstream w2 =
  [Connectivity_detected; Forwarding "m1" "A" "SOS";
   Forwarding "m2" "B" "ALERT";
   Connectivity_detected; Forwarding "m1" "A" "SOS"].
Proof.
  intros alert w w2.
  destruct (next_batch_repeats_open_sos_only w eq_refl) as [H _].
  exact H.
Defined.

(** ** Retention and deduplication *)

Lemma select_by_id_filter_out (p : row -> bool) (t : list row) (r : row) :
  ids_unique t -> In r t -> p r = false ->
  Storage.select_by_id (r_id r) (filter p t) = None.
Proof.
  intros Hu Hr Hp. apply select_by_id_none. intros Hin.
  apply in_map_iff in Hin. destruct Hin as (x & E & Hx).
  apply filter_In in Hx. destruct Hx as [Hx Hpx].
  rewrite (same_id_same_row t x r Hu Hx Hr E) in Hpx. congruence.
Qed.

(** X19.  [cleanup_expired] deletes exactly the records received before the
    cutoff and keeps the others in order.  The store is the only memory of
    seen ids: a DM_MSG whose record was deleted, and whose hops and ttl
    fit SQLite's 64-bit INTEGER, is admitted again as if new (stored,
    acknowledged and, with hops left, relayed), although before the
    cleanup the same packet was dropped as a duplicate. *)
Theorem expired_message_is_admitted_again
        (nd : node) (cutoff : string) (msg : packet) (w : world)
        (mid : string) (r : row) :
  ids_unique (messages w) ->
  Storage.select_by_id mid (messages w) = Some r ->
  String.ltb (r_received_at r) cutoff = true ->
  get (p_type msg) "" = "DM_MSG" ->
  addressed_here nd msg ->
  p_id msg = Some mid ->
  mid <> "" ->
  in_range msg ->
  let w1 := exec (Storage.cleanup_expired cutoff) w in
  (forall x, In x (messages w1) <->
             In x (messages w) /\ String.ltb (r_received_at x) cutoff = false)
  /\
  Subseq (messages w1) (messages w) /\
  ids_unique (messages w1) /\
  emissions (on_incoming_message nd msg) w = [] /\
  emissions (on_incoming_message nd msg) w1
  = admission_packets nd msg w1 mid /\
  Storage.select_by_id mid (messages (exec (on_incoming_message nd msg) w1))
  = Some (admitted_row nd msg mid w1).
Proof.
  intros Hu Hsel Hold Ht Hdest Hid Hmid Hfit w1.
  assert (Em : messages w1 =
               filter (fun x => negb (String.ltb (r_received_at x) cutoff))
                      (messages w)) by reflexivity.
  destruct (select_by_id_some mid (messages w) r Hsel) as [Hr Hrid].
  assert (Hgone : Storage.select_by_id mid (messages w1) = None).
  { rewrite Em, <- Hrid. apply select_by_id_filter_out; try assumption.
    now rewrite Hold. }
  assert (Hfs : first_seen nd msg w1 mid) by (repeat split; assumption).
  split; [|split; [|split; [|split; [|split]]]].
  - intros x. rewrite Em, filter_In, negb_true_iff. tauto.
  - rewrite Em. apply filter_Subseq.
  - rewrite Em. now apply NoDup_map_filter.
  - apply emissions_of. unfold exec.
    rewrite (dm_msg_duplicate nd msg w mid r Ht Hdest Hid Hmid Hsel).
    simpl. now rewrite app_nil_r.
  - now apply emissions_first_seen.
  - unfold exec.
    rewrite (dm_msg_admitted nd msg w1 mid Ht Hdest Hid Hmid Hgone Hfit).
    cbn [snd messages]. rewrite select_by_id_app, Hgone.
    unfold Storage.select_by_id. simpl. now rewrite String.eqb_refl.
Qed.

Lemma expired_message_is_admitted_again_witness :
  let old := sos_row "m1" "A" 0 0 in
  let w := world_of [old; set_forwarded 1 (sos_row "m2" "A" 0 0)] in
  let msg := dm_msg "m1" "A" "" "SOS" "help" 0 6 in
  let w1 := exec (Storage.cleanup_expired "2025-01-01T00:00:00+00:01") w in
  emissions (on_incoming_message nodeB msg) w = [] /\
  length (emissions (on_incoming_message nodeB msg) w1) = 2%nat.
Proof.
  intros old w msg w1.
  assert (Hu : ids_unique (messages w)).
  { unfold ids_unique. simpl.
    repeat constructor; simpl; intuition discriminate. }
  destruct (expired_message_is_admitted_again
              nodeB "2025-01-01T00:00:00+00:01" msg w "m1" old Hu)
    as (_ & _ & _ & H1 & H2 & _).
  - reflexivity.
  - reflexivity.
  - reflexivity.
  - left. reflexivity.
  - reflexivity.
  - discriminate.
  - split; reflexivity.
  - split; [exact H1|]. fold w1 in H2. now rewrite H2.
Defined.

(** ** Setting the resend count *)

(** X20.  [set_resend_count], given a count that fits SQLite's 64-bit
    INTEGER, writes it on the record of the id and on no other.  For an
    unacknowledged SOS of this node with a positive ttl, the next scheduler
    pass sends it exactly when the count written is below MAX_SOS_RESENDS,
    and then raises the count by one.  Given a count out of that range the
    call raises OverflowError and writes nothing. *)
Theorem set_resend_count_decides_next_pass
        (nd : node) (w : world) (r : row) (v : Z) :
  ids_unique (messages w) ->
  In r (messages w) ->
  r_type r = "SOS" ->
  r_acknowledged r = 0 ->
  0 < r_ttl r ->
  r_origin_id r = node_id nd ->
  fits_integer v = true ->
  let w1 := exec (Storage.set_resend_count (r_id r) v) w in
  let w2 := exec (sos_resender_cycle nd) w1 in
  Storage.select_by_id (r_id r) (messages w1) = Some (set_resend v r) /\
  (forall x, In x (messages w) -> r_id x <> r_id r -> In x (messages w1)) /\
  count_msgs (r_id r) (emissions (sos_resender_cycle nd) w1) =
  (if v <? MAX_SOS_RESENDS then 1%nat else O) /\
  Storage.select_by_id (r_id r) (messages w2) =
  Some (set_resend (if v <? MAX_SOS_RESENDS then v + 1 else v) r) /\
  (forall v' : Z,
      v' < -9223372036854775808 \/ 9223372036854775807 < v' ->
      Storage.set_resend_count (r_id r) v' w = (Raises OverflowError, w)).
Proof.
  intros Hu Hr Hty Hack Httl Ho Hfit w1 w2.
  assert (Em : messages w1 =
               Storage.update_where_id (r_id r) (set_resend v) (messages w)).
  { unfold w1, exec, Storage.set_resend_count. now rewrite Hfit. }
  assert (Hu1 : ids_unique (messages w1)).
  { unfold ids_unique. rewrite Em. now rewrite update_where_id_ids. }
  assert (Hr1 : In (set_resend v r) (messages w1)).
  { rewrite Em. unfold Storage.update_where_id. apply in_map_iff.
    exists r. now rewrite String.eqb_refl. }
  assert (Hel : eligible nd (set_resend v r) = (v <? MAX_SOS_RESENDS)).
  { rewrite eligible_set_resend. unfold Storage.is_unacknowledged_sos, neq.
    apply Z.ltb_lt in Httl.
    rewrite Hty, Hack, Ho, !String.eqb_refl, Httl. reflexivity. }
  pose proof (sos_resender_cycle_rows nd w1 Hu1) as E.
  split; [|split; [|split; [|split]]].
  - change (r_id r) with (r_id (set_resend v r)).
    now apply select_by_id_unique.
  - intros x Hx Hne. rewrite Em. now apply update_where_id_other.
  - rewrite (emissions_of _ w1 (map resend_packet
                                    (filter (eligible nd) (messages w1))))
      by (unfold exec; now rewrite E).
    change (r_id r) with (r_id (set_resend v r)).
    now rewrite (count_msgs_resend_unique nd _ _ Hu1 Hr1), Hel.
  - unfold w2, exec. rewrite E. cbn [snd messages].
    replace (set_resend (if v <? MAX_SOS_RESENDS then v + 1 else v) r)
      with (pass_row nd (set_resend v r)).
    + assert (Hid : r_id (pass_row nd (set_resend v r)) = r_id r)
        by exact (pass_row_id nd (set_resend v r)).
      rewrite <- Hid. apply select_by_id_unique.
      * now apply ids_unique_pass.
      * now apply in_map.
    + unfold pass_row. rewrite Hel.
      now destruct (v <? MAX_SOS_RESENDS).
  - intros v' Hout. unfold Storage.set_resend_count.
    assert (Hno : fits_integer v' = false).
    { unfold fits_integer. apply andb_false_iff.
      destruct Hout as [Hlo|Hhi];
        [left; apply Z.leb_gt | right; apply Z.leb_gt]; lia. }
    now rewrite Hno.
Qed.

Lemma set_resend_count_decides_next_pass_witness :
  let r := sos_row "m1" "A" 0 6 in
  let w := world_of [r] in
  count_msgs "m1" (emissions (sos_resender_cycle nodeA) w) = O /\
  count_msgs "m1"
    (emissions (sos_resender_cycle nodeA)
               (exec (Storage.set_resend_count "m1" 0) w)) = 1%nat /\
  Storage.set_resend_count "m1" 9223372036854775808 w
  = (Raises OverflowError, w).
Proof.
  intros r w. split; [reflexivity|].
  assert (Hu : ids_unique (messages w)).
  { unfold ids_unique. simpl. repeat constructor. intros []. }
  assert (Hin : In r (messages w)) by now left.
  destruct (set_resend_count_decides_next_pass
              nodeA w r 0 Hu Hin eq_refl eq_refl eq_refl eq_refl eq_refl)
    as (_ & _ & H1 & _ & H2).
  split; [exact H1|]. apply (H2 9223372036854775808). right. lia.
Defined.

(** ** The alert cache *)

Section AlertCache.

Import Alerts.

Lemma alerts_select_none (i : string) (t : list alert) :
  Alerts.select_by_id i t = None <-> ~ In i (map a_id t).
Proof.
  unfold Alerts.select_by_id. induction t as [|a t IH]; simpl.
  - tauto.
  - destruct (String.eqb_spec (a_id a) i) as [E|E].
    + split; [discriminate | intros H; exfalso; apply H; now left].
    + rewrite IH. tauto.
Qed.

Lemma alerts_select_app (i : string) (t u : list alert) :
  Alerts.select_by_id i (t ++ u) =
  match Alerts.select_by_id i t with
  | Some a => Some a
  | None => Alerts.select_by_id i u
  end.
Proof.
  unfold Alerts.select_by_id. induction t as [|a t IH]; simpl.
  - reflexivity.
  - destruct (a_id a =? i)%string; [reflexivity | exact IH].
Qed.

Lemma alerts_select_others (i j : string) (t : list alert) :
  j <> i ->
  Alerts.select_by_id j (filter (fun a => negb (a_id a =? i)%string) t)
  = Alerts.select_by_id j t.
Proof.
  intros Hne. unfold Alerts.select_by_id.
  induction t as [|a t IH]; simpl; [reflexivity|].
  destruct (String.eqb_spec (a_id a) i) as [E|E]; simpl.
  - destruct (String.eqb_spec (a_id a) j); [congruence | exact IH].
  - destruct (a_id a =? j)%string; [reflexivity | exact IH].
Qed.

Lemma alerts_removed (i : string) (t : list alert) :
  ~ In i (map a_id (filter (fun a => negb (a_id a =? i)%string) t)).
Proof.
  intros H. apply in_map_iff in H. destruct H as (a & E & Ha).
  apply filter_In in Ha. destruct Ha as [_ Ha].
  rewrite E, String.eqb_refl in Ha. discriminate.
Qed.

Lemma alerts_filter_NoDup (p : alert -> bool) (t : list alert) :
  NoDup (map a_id t) -> NoDup (map a_id (filter p t)).
Proof.
  induction t as [|a t IH]; simpl; intros Hnd.
  - constructor.
  - inversion Hnd as [|? ? Ha Ht]; subst.
    destruct (p a); simpl; [|now apply IH].
    constructor; [|now apply IH].
    intros Hin. apply Ha. apply in_map_iff in Hin.
    destruct Hin as (y & Hy & Hin). apply filter_In in Hin.
    apply in_map_iff. exists y. tauto.
Qed.

Lemma alerts_filter_length (i : string) (t : list alert) :
  NoDup (map a_id t) ->
  length (filter (fun a => negb (a_id a =? i)%string) t) =
  match Alerts.select_by_id i t with
  | Some _ => Nat.pred (length t)
  | None => length t
  end.
Proof.
  unfold Alerts.select_by_id. induction t as [|a t IH]; simpl; intros Hnd.
  - reflexivity.
  - inversion Hnd as [|? ? Ha Ht]; subst.
    destruct (String.eqb_spec (a_id a) i) as [E|E]; simpl.
    + rewrite (IH Ht).
      assert (Hn : find (fun a0 => (a_id a0 =? i)%string) t = None).
      { apply alerts_select_none. now rewrite <- E. }
      now rewrite Hn.
    + rewrite (IH Ht).
      destruct (find (fun a0 => (a_id a0 =? i)%string) t) eqn:Hf;
        [|reflexivity].
      apply find_some in Hf. destruct t; [now destruct Hf | reflexivity].
Qed.

Lemma insert_alert_NoDup (i title body source now : string)
      (t : list alert) :
  NoDup (map a_id t) ->
  NoDup (map a_id (insert_alert i title body source now t)).
Proof.
  intros Hnd. unfold insert_alert. rewrite map_app. simpl.
  apply NoDup_snoc; [now apply alerts_filter_NoDup | apply alerts_removed].
Qed.

Lemma store_feeds_spec (clock : nat -> string)
      (feeds : list (string * option fetched)) (st : list alert * nat) :
  NoDup (map a_id (fst st)) ->
  let st' := store_feeds clock feeds st in
  NoDup (map a_id (fst st')) /\
  (forall a, In a (fst st') ->
     In a (fst st) \/
     exists url f, In (url, Some f) feeds /\
                   a_id a = f_id f /\ a_title a = f_title f /\
                   a_body a = f_body f /\ a_source a = f_source f) /\
  (forall url f, In (url, Some f) feeds ->
                 In (f_id f) (map a_id (fst st'))) /\
  (forall i, In i (map a_id (fst st)) -> In i (map a_id (fst st'))).
Proof.
  revert st. induction feeds as [|[url [f|]] feeds IH]; intros st Hnd; simpl.
  - split; [exact Hnd|]. split; [auto|]. split; [intros ? ? []|auto].
  - set (st1 := (insert_alert (f_id f) (f_title f) (f_body f) (f_source f)
                              (clock (snd st)) (fst st), S (snd st))).
    assert (Hnd1 : NoDup (map a_id (fst st1)))
      by (apply insert_alert_NoDup; exact Hnd).
    destruct (IH st1 Hnd1) as (H1 & H2 & H3 & H4).
    split; [exact H1|]. split; [|split].
    + intros a Ha. destruct (H2 a Ha) as [Hin|(u & g & Hu & Hrest)].
      * simpl in Hin. unfold insert_alert in Hin.
        apply in_app_or in Hin. destruct Hin as [Hin|[<-|[]]].
        -- left. apply filter_In in Hin. tauto.
        -- right. exists url, f. split; [now left|]. repeat split.
      * right. exists u, g. split; [now right | exact Hrest].
    + intros u g [E|Hu].
      * inversion E; subst. apply H4. simpl. unfold insert_alert.
        rewrite map_app. apply in_or_app. right. now left.
      * now apply (H3 u g).
    + intros i Hi. apply H4. simpl. unfold insert_alert.
      rewrite map_app. destruct (String.eqb_spec i (f_id f)) as [->|Hne].
      * apply in_or_app. right. now left.
      * apply in_or_app. left. apply in_map_iff in Hi.
        destruct Hi as (a & <- & Ha). apply in_map. apply filter_In.
        split; [exact Ha|].
        destruct (String.eqb_spec (a_id a) (f_id f));
          [contradiction | reflexivity].
  - destruct (IH st Hnd) as (H1 & H2 & H3 & H4).
    split; [exact H1|]. split; [|split; [|exact H4]].
    + intros a Ha. destruct (H2 a Ha) as [Hin|(u & g & Hu & Hrest)];
        [now left|].
      right. exists u, g. split; [now right | exact Hrest].
    + intros u g [E|Hu]; [discriminate E | now apply (H3 u g)].
Qed.

End AlertCache.

(** X21.  [insert_alert] replaces: after it the table holds under the id
    the alert just given (title, body, source and fetch time), whether or
    not the id was there; every other alert is as it was; the table keeps
    one row per id, and grows by one row only when the id is new. *)
Theorem insert_alert_replaces
        (alert_id title body source now : string) (t : list alert) :
  NoDup (map a_id t) ->
  let t' := Alerts.insert_alert alert_id title body source now t in
  Alerts.select_by_id alert_id t'
  = Some (mkAlert alert_id title body source now) /\
  (forall j, j <> alert_id ->
             Alerts.select_by_id j t' = Alerts.select_by_id j t) /\
  NoDup (map a_id t') /\
  length t' = match Alerts.select_by_id alert_id t with
              | Some _ => length t
              | None => S (length t)
              end.
Proof.
  intros Hnd t'. subst t'. unfold Alerts.insert_alert.
  split; [|split; [|split]].
  - rewrite alerts_select_app.
    assert (E : Alerts.select_by_id alert_id
                  (filter (fun a => negb (a_id a =? alert_id)%string) t)
                = None)
      by (apply alerts_select_none; apply alerts_removed).
    rewrite E. unfold Alerts.select_by_id. simpl.
    now rewrite String.eqb_refl.
  - intros j Hne. rewrite alerts_select_app, alerts_select_others by exact Hne.
    destruct (Alerts.select_by_id j t); [reflexivity|].
    unfold Alerts.select_by_id. simpl.
    destruct (String.eqb_spec alert_id j); [congruence | reflexivity].
  - now apply (insert_alert_NoDup alert_id title body source now).
  - rewrite length_app, (alerts_filter_length alert_id t Hnd). simpl.
    destruct (Alerts.select_by_id alert_id t) as [a|] eqn:E; [|lia].
    unfold Alerts.select_by_id in E. apply find_some in E.
    destruct t; [now destruct E | simpl; lia].
Qed.

Lemma insert_alert_replaces_witness :
  let t := [mkAlert "f1::1" "old" "b" "f1" "t0"; mkAlert "f2::7" "x" "y" "f2" "t0"] in
  let t' := Alerts.insert_alert "f1::1" "new" "b2" "f1" "t1" t in
  Alerts.select_by_id "f1::1" t' = Some (mkAlert "f1::1" "new" "b2" "f1" "t1")
  /\ length t' = 2%nat.
Proof.
  intros t t'.
  assert (Hnd : NoDup (map a_id t)).
  { simpl. repeat constructor; simpl; intuition discriminate. }
  destruct (insert_alert_replaces "f1::1" "new" "b2" "f1" "t1" t Hnd)
    as (H1 & _ & _ & H2).
  split; [exact H1 | exact H2].
Defined.

(** X22.  A pass of the online monitor does nothing when the node is
    offline, has no feed, or has no HTTP library.  Otherwise it keeps one
    row per alert id, keeps every id that was cached, caches an id for
    every feed it could read, and every alert in the table afterwards was
    there before or was fetched in this pass. *)
Theorem monitor_pass_caches_fetched_alerts
        (clock : nat -> string) (feeds : list (string * option fetched))
        (online requests : bool) (st : list alert * nat) :
  NoDup (map a_id (fst st)) ->
  let st' := Alerts.monitor_pass clock feeds online requests st in
  (online = false \/ feeds = [] \/ requests = false -> st' = st) /\
  NoDup (map a_id (fst st')) /\
  (forall i, In i (map a_id (fst st)) -> In i (map a_id (fst st'))) /\
  (forall a, In a (fst st') ->
     In a (fst st) \/
     exists url f, In (url, Some f) feeds /\
                   a_id a = f_id f /\ a_title a = f_title f /\
                   a_body a = f_body f /\ a_source a = f_source f) /\
  (online = true -> requests = true ->
   forall url f, In (url, Some f) feeds ->
                 In (f_id f) (map a_id (fst st'))).
Proof.
  intros Hnd st'. subst st'. unfold Alerts.monitor_pass.
  destruct (store_feeds_spec clock feeds st Hnd) as (H1 & H2 & H3 & H4).
  split.
  - intros [->|[->| ->]]; [reflexivity | now rewrite andb_false_r |].
    now rewrite andb_false_r.
  - destruct (online && negb match feeds with [] => true | _ => false end
              && requests) eqn:E.
    + split; [exact H1|]. split; [exact H4|]. split; [exact H2|].
      intros _ _. exact H3.
    + split; [exact Hnd|]. split; [auto|]. split; [auto|].
      intros -> ->. destruct feeds; [intros ? ? []|discriminate E].
Qed.

Lemma monitor_pass_caches_fetched_alerts_witness :
  let feeds := [("http://a", Some (mkFetched "http://a::1" "T" "B" "http://a"));
                ("http://b", None)] in
  map a_id (fst (Alerts.monitor_pass clockA feeds true true ([], O)))
  = ["http://a::1"] /\
  Alerts.monitor_pass clockA feeds false true ([], O) = ([], O).
Proof.
  intros feeds. split; [reflexivity|].
  apply (monitor_pass_caches_fetched_alerts clockA feeds false true ([], O)).
  - constructor.
  - now left.
Defined.

(** ** Directed messages *)

(** X23.  A node re-emits a DM_MSG only if the packet is addressed to it or
    to nobody; the copy keeps the destination, so a directed message that
    its addressee re-emits is dropped, unstored and unanswered, by every
    node with another id. *)
Theorem directed_message_is_relayed_by_addressee_only
        (nd : node) (msg out : packet) (w : world) :
  relayed_copy nd msg w = Some out ->
  addressed_here nd msg /\
  p_dest_id out = p_dest_id msg /\
  (get (p_dest_id msg) "" <> "" ->
   forall (other : node) (w' : world),
     node_id other <> node_id nd ->
     on_incoming_message other out w' = (tt, w')).
Proof.
  intros Hrel. pose proof (relayed_copy_some nd msg out w Hrel) as [_ Hout].
  unfold relayed_copy in Hrel.
  destruct (emissions_handler nd msg w) as [E|(mid & Hfs & E)];
    [rewrite E in Hrel; discriminate|].
  destruct Hfs as (Ht & Hdest & _). subst out.
  split; [exact Hdest|]. split; [reflexivity|].
  intros Hne other w' Hother. apply dm_msg_rejected.
  - exact Ht.
  - exact Hne.
  - simpl. destruct Hdest as [Hd|Hd]; [contradiction|]. congruence.
Qed.

Lemma directed_message_is_relayed_by_addressee_only_witness :
  let msg := dm_msg "m1" "A" "B" "SOS" "help" 0 6 in
  relayed_copy nodeB msg world0 = Some (set_hops msg 1) /\
  on_incoming_message nodeC (set_hops msg 1) world0 = (tt, world0).
Proof.
  intros msg. split; [reflexivity|].
  destruct (directed_message_is_relayed_by_addressee_only
              nodeB msg (set_hops msg 1) world0 eq_refl) as (_ & _ & H).
  apply H; discriminate.
Defined.

(** ** What the notifier leaves alone *)

Lemma mark_all_only_forwarded (rs t : list row) :
  map (set_forwarded 0) (mark_all rs t) = map (set_forwarded 0) t.
Proof.
  rewrite mark_all_map, map_map. apply map_ext. intros r.
  now destruct (existsb _ rs).
Qed.

(** X24.  The notifier transmits nothing: over any sequence of probe
    results no packet is handed to the socket and no clock is read, and the
    only column it ever changes is [forwarded], although each batch reports
    its messages as forwarded. *)
Theorem notifier_only_marks (obs : list bool) (w : world) :
  let w' := exec (notifier_run obs) w in
  sent w' = sent w /\
  clock_reads w' = clock_reads w /\
  map (set_forwarded 0) (messages w') = map (set_forwarded 0) (messages w).
Proof.
  revert w. induction obs as [|online obs IH]; intros w; simpl.
  - auto.
  - unfold exec, bind.
    assert (H : let w1 := snd (notifier_step online w) in
                sent w1 = sent w /\ clock_reads w1 = clock_reads w /\
                map (set_forwarded 0) (messages w1)
                = map (set_forwarded 0) (messages w)).
    { destruct online.
      - destruct (seen_online w) eqn:E.
        + rewrite (notifier_step_still_online w E). simpl. auto.
        + rewrite (notifier_step_edge w E). simpl.
          split; [reflexivity|]. split; [reflexivity|].
          apply mark_all_only_forwarded.
      - rewrite notifier_step_offline. simpl. auto. }
    destruct (notifier_step online w) as [[] w1]. simpl in H.
    destruct H as (H1 & H2 & H3).
    destruct (IH w1) as (I1 & I2 & I3). unfold exec in I1, I2, I3.
    rewrite I1, I2, I3. auto.
Qed.
